(** * personal-utils: the two command-line scripts, embedded and verified

    [scripts/convert_to_hex.py] recolours the dark pixels of a drawing,
    [scripts/m4a_to_wav_conversion.py] walks a directory tree and calls an
    external transcoder once per [.m4a] file.

    Python values are modelled as follows: [str] is a list of characters
    (code points below 256), [int] is [Z], a loop counter produced by
    [range] is [nat], an exception is a value of [exn], and a function with
    effects is a computation of the monad [M] over an abstract world. *)

From Stdlib Require Import ZArith Ascii String List Bool Lia.
From Stdlib Require Import Numbers.DecimalString.
From stdpp Require Import base list.
Import ListNotations.

Local Open Scope nat_scope.
Local Open Scope list_scope.

Abbreviation str := (list ascii).

(** A Python string literal. *)
Definition lit (x : string) : str := list_ascii_of_string x.

Arguments lit : simpl never.

(* ===================================================================== *)
(** * Python built-ins used by the scripts *)
(* ===================================================================== *)

Module Py.

Definition chr_eqb (a b : ascii) : bool := Ascii.eqb a b.

Fixpoint str_eqb (a b : str) : bool :=
  match a, b with
  | [], [] => true
  | x :: a', y :: b' => chr_eqb x y && str_eqb a' b'
  | _, _ => false
  end.

(** Lookup by name in a list of named things. *)
Fixpoint assoc {A} (p : str) (l : list (str * A)) : option A :=
  match l with
  | [] => None
  | (q, a) :: l' => if str_eqb p q then Some a else assoc p l'
  end.

(** [s.startswith(p)] *)
Fixpoint startswith (s p : str) {struct p} : bool :=
  match p, s with
  | [], _ => true
  | y :: p', x :: s' => chr_eqb x y && startswith s' p'
  | _ :: _, [] => false
  end.

(** [s.endswith(p)] *)
Definition endswith (s p : str) : bool := startswith (rev s) (rev p).

(** [s.lstrip(c)] for a one-character argument: every leading [c] goes. *)
Fixpoint lstrip (c : ascii) (s : str) : str :=
  match s with
  | x :: s' => if chr_eqb x c then lstrip c s' else s
  | [] => []
  end.

(** [s[i:j]] for [0 <= i <= j]; Python clamps both ends to the length. *)
Definition slice (s : str) (i j : nat) : str := firstn (j - i) (skipn i s).

(** [c.lower()] on one character: the letters [A-Z] move to [a-z], and
    the capital letters among the code points from 192 to 222 (all of them
    but the multiplication sign, 215) move to their small forms, 32 further
    on.  Every other character below 256 is its own lower case. *)
Definition lower_chr (c : ascii) : ascii :=
  let n := nat_of_ascii c in
  if ((65 <=? n) && (n <=? 90))
     || ((192 <=? n) && (n <=? 222) && negb (n =? 215))
  then ascii_of_nat (n + 32) else c.

Definition lower (s : str) : str := map lower_chr s.

(** [sep.join(l)] *)
Fixpoint join (sep : str) (l : list str) : str :=
  match l with
  | [] => []
  | [x] => x
  | x :: l' => x ++ sep ++ join sep l'
  end.

(** [s.split(c)] for a one-character separator: never the empty list. *)
Fixpoint split (c : ascii) (s : str) : list str :=
  match s with
  | [] => [[]]
  | x :: s' =>
      if chr_eqb x c then [] :: split c s'
      else match split c s' with
           | h :: t => (x :: h) :: t
           | [] => [[x]]
           end
  end.

(** [c.isprintable()] for a code point below 256: what [repr] shows as it
    is. *)
Definition isprintable (c : ascii) : bool :=
  let n := nat_of_ascii c in
  ((32 <=? n) && (n <=? 126)) || ((161 <=? n) && negb (n =? 173)).

Definition hexdigit (n : nat) : ascii := nth n (lit "0123456789abcdef") "0"%char.

(** One character of [repr(s)] between quotes [q]: the quote itself and
    the backslash get a backslash in front, tab, newline and carriage
    return are written with their letters, and any other character that is
    not printable is written as a backslash, an x and two hexadecimal
    digits. *)
Definition escaped (q c : ascii) : str :=
  if chr_eqb c q || chr_eqb c "092"%char then ["092"%char; c]
  else if chr_eqb c "009"%char then ["092"%char; "t"%char]
  else if chr_eqb c "010"%char then ["092"%char; "n"%char]
  else if chr_eqb c "013"%char then ["092"%char; "r"%char]
  else if isprintable c then [c]
  else ["092"%char; "x"%char;
        hexdigit (nat_of_ascii c / 16); hexdigit (nat_of_ascii c mod 16)].

(** [repr(s)]: between single quotes, or between double quotes when the
    string holds a single quote and no double one. *)
Definition quoted (s : str) : str :=
  let q := if existsb (chr_eqb "039"%char) s && negb (existsb (chr_eqb "034"%char) s)
           then "034"%char else "039"%char in
  [q] ++ flat_map (escaped q) s ++ [q].

(** [str(n)] for a counter. *)
Definition str_of_nat (n : nat) : str :=
  lit (NilEmpty.string_of_uint (Nat.to_uint n)).

(** [str(z)] for an [int]. *)
Definition str_of_Z (z : Z) : str :=
  lit (NilEmpty.string_of_int (Z.to_int z)).

(** Characters [int()] skips around a literal: tab to carriage return and
    the space, and of the code points from 128 to 255 the two that count as
    white space, next-line and the no-break space. *)
Definition isspace (c : ascii) : bool :=
  let n := nat_of_ascii c in
  ((9 <=? n) && (n <=? 13)) || (n =? 32) || (n =? 133) || (n =? 160).

(** Value of a character as a digit in base 16, if it is one. *)
Definition hexval (c : ascii) : option Z :=
  let n := nat_of_ascii c in
  if (48 <=? n) && (n <=? 57) then Some (Z.of_nat (n - 48))
  else if (65 <=? n) && (n <=? 70) then Some (Z.of_nat (n - 55))
  else if (97 <=? n) && (n <=? 102) then Some (Z.of_nat (n - 87))
  else None.

Definition ishex (c : ascii) : bool :=
  match hexval c with Some _ => true | None => false end.

Definition is_underscore (c : ascii) : bool := chr_eqb c "_"%char.

(** The digit scan of [int(s, 16)]: digits with single underscores between
    them.  Returns the value, the number of digits, and what follows; a
    doubled or a trailing underscore is a syntax error. *)
Fixpoint scan_digits (s : str) (acc : Z) (digits : nat) (prev_us : bool)
  : option (Z * nat * str) :=
  match s with
  | [] => if prev_us then None else Some (acc, digits, [])
  | c :: s' =>
      match hexval c with
      | Some d => scan_digits s' (16 * acc + d)%Z (S digits) false
      | None =>
          if is_underscore c then
            if prev_us then None else scan_digits s' acc digits true
          else if prev_us then None else Some (acc, digits, s)
      end
  end.

Fixpoint skip_space (s : str) : str :=
  match s with
  | c :: s' => if isspace c then skip_space s' else s
  | [] => []
  end.

(** An optional sign in front of the digits. *)
Definition take_sign (s : str) : Z * str :=
  match s with
  | c :: t =>
      if chr_eqb c "+"%char then (1%Z, t)
      else if chr_eqb c "-"%char then ((-1)%Z, t)
      else (1%Z, s)
  | [] => (1%Z, s)
  end.

(** An optional [0x] or [0X] in front of the digits; one underscore may
    follow it. *)
Definition drop_prefix (s : str) : str :=
  match s with
  | z :: x :: t =>
      if chr_eqb z "0"%char && (chr_eqb x "x"%char || chr_eqb x "X"%char)
      then match t with
           | u :: t' => if is_underscore u then t' else t
           | [] => t
           end
      else s
  | _ => s
  end.

(** The digits themselves: at least one, no leading underscore, and only
    white space after them. *)
Definition read_digits (sign : Z) (s : str) : option Z :=
  match s with
  | u :: _ =>
      if is_underscore u then None
      else match scan_digits s 0%Z 0 false with
           | Some (v, S _, rest) =>
               match skip_space rest with
               | [] => Some (sign * v)%Z
               | _ :: _ => None
               end
           | _ => None
           end
  | [] => None
  end.

(** [int(s, 16)]: surrounding white space, an optional sign, an optional
    [0x] prefix, then the digits.  [None] stands for the [ValueError]
    Python raises. *)
Definition int16 (s : str) : option Z :=
  let '(sign, s2) := take_sign (skip_space s) in
  read_digits sign (drop_prefix s2).

End Py.

(* ===================================================================== *)
(** * Exceptions, the trace of visible actions, and the monad *)
(* ===================================================================== *)

(** The exceptions the two scripts can meet.  All of them are subclasses of
    Python's [Exception]. *)
Inductive exn : Type :=
| FileNotFoundError (msg : str)
| ValueError (msg : str)
| IndexError (msg : str)
| CalledProcessError (returncode : Z) (cmd : list str) (stdout stderr : str)
| OtherException (cls msg : str).

(** [str(e)], as an f-string prints it.  Neither script prints a
    [CalledProcessError] this way; its text is the library's for a positive
    exit status. *)
Definition str_of_exn (e : exn) : str :=
  match e with
  | FileNotFoundError m | ValueError m | IndexError m => m
  | CalledProcessError rc cmd _ _ =>
      lit "Command '[" ++ Py.join (lit ", ") (map Py.quoted cmd)
        ++ lit "]' returned non-zero exit status " ++ Py.str_of_Z rc ++ lit "."
  | OtherException _ m => m
  end.

(** An RGBA pixel and a raster image: [size] is (width, height), [data] the
    pixels row by row. *)
Definition pixel : Type := Z * Z * Z * Z.

Record Image : Type := mkImage { size : nat * nat; data : list pixel }.

(** What a run does that the outside can see. *)
Inductive event : Type :=
| Printed (line : str)
| Saved (img : Image) (path : str)
| MadeDirs (path : str)
| Spawned (cmd : list str) (outcome : exn + Z).

Section Monad.
Context {W : Type}.

(** A computation reads and changes the world, appends to the trace, and
    returns a value or raises. *)
Definition M (A : Type) : Type := W * list event -> (exn + A) * (W * list event).

Definition ret {A} (a : A) : M A := fun st => (inr a, st).

Definition raise {A} (e : exn) : M A := fun st => (inl e, st).

Definition bind {A B} (c : M A) (k : A -> M B) : M B :=
  fun st => match c st with
            | (inr a, st') => k a st'
            | (inl e, st') => (inl e, st')
            end.

(** [try: c  except Exception as e: h e] *)
Definition try_except {A} (c : M A) (h : exn -> M A) : M A :=
  fun st => match c st with
            | (inr a, st') => (inr a, st')
            | (inl e, st') => h e st'
            end.

Definition emit (ev : event) : M unit := fun '(w, tr) => (inr tt, (w, tr ++ [ev])).

Definition print (line : str) : M unit := emit (Printed line).

(** A pure library call that may raise. *)
Definition lift {A} (r : exn + A) : M A :=
  match r with inr a => ret a | inl e => raise e end.

(** A pure query of the world. *)
Definition ask {A} (f : W -> A) : M A := fun '(w, tr) => (inr (f w), (w, tr)).

(** [for x in l: body x], threading the loop's local variables [a]. *)
Fixpoint for_each {X A} (l : list X) (body : X -> A -> M A) (a : A) : M A :=
  match l with
  | [] => ret a
  | x :: l' => bind (body x a) (for_each l' body)
  end.

End Monad.

Declare Scope py_scope.
Delimit Scope py_scope with py.
Notation "x <- c ;; k" := (bind c (fun x => k))
  (at level 100, c at next level, right associativity) : py_scope.
Notation "c ;;; k" := (bind c (fun _ => k))
  (at level 100, right associativity) : py_scope.

Local Open Scope py_scope.

(* ===================================================================== *)
(** * scripts/convert_to_hex.py *)
(* ===================================================================== *)

Module ConvertToHex.

(** The image library, taken as a black box over the world [W]:
    [Image.open(path).convert('RGBA')] and [img.save(path, format='PNG')].
    Either may raise; saving may change the world. *)
Class Pillow (W : Type) : Type := {
  Image_open_convert : W -> str -> exn + Image;
  Image_save : W -> Image -> str -> option exn * W
}.

(** An 8-bit channel: what the image library stores of an [int]. *)
Definition clip8 (v : Z) : Z :=
  if (v <=? 0)%Z then 0%Z else if (v <? 256)%Z then v else 255%Z.

Definition clip_pixel (p : pixel) : pixel :=
  let '(r, g, b, a) := p in (clip8 r, clip8 g, clip8 b, clip8 a).

(** [Image.new('RGBA', size, color)] *)
Definition Image_new (sz : nat * nat) (color : pixel) : Image :=
  mkImage sz (replicate (fst sz * snd sz) (clip_pixel color)).

Definition in_bounds (img : Image) (x y : nat) : bool :=
  (x <? fst (size img)) && (y <? snd (size img)).

(** [pixels[x, y]] *)
Definition getpixel (img : Image) (x y : nat) : exn + pixel :=
  if in_bounds img x y then
    match data img !! (y * fst (size img) + x) with
    | Some p => inr p
    | None => inl (IndexError (lit "image index out of range"))
    end
  else inl (IndexError (lit "image index out of range")).

(** [pixels[x, y] = p] *)
Definition putpixel (img : Image) (x y : nat) (p : pixel) : exn + Image :=
  if in_bounds img x y then
    inr (mkImage (size img) (<[y * fst (size img) + x := clip_pixel p]> (data img)))
  else inl (IndexError (lit "image index out of range")).

(** [tuple(int(color_hex[i:i+2], 16) for i in (0, 2, 4))], after
    [color_hex = color_hex.lstrip('#')]. *)
Definition int_slice (color_hex : str) (i : nat) : exn + Z :=
  let piece := Py.slice color_hex i (i + 2) in
  match Py.int16 piece with
  | Some v => inr v
  | None =>
      inl (ValueError (lit "invalid literal for int() with base 16: "
                         ++ Py.quoted piece))
  end.

Definition parse_color (color_hex : str) : exn + (Z * Z * Z) :=
  let color_hex := Py.lstrip "#"%char color_hex in
  match int_slice color_hex 0 with
  | inl e => inl e
  | inr r =>
      match int_slice color_hex 2 with
      | inl e => inl e
      | inr g =>
          match int_slice color_hex 4 with
          | inl e => inl e
          | inr b => inr (r, g, b)
          end
      end
  end.

(** The threshold test of the inner loop. *)
Definition is_ink (r g b : Z) : bool :=
  (r <? 230)%Z && (g <? 230)%Z && (b <? 230)%Z.

(** What the loop body leaves at a coordinate whose input pixel is [p]. *)
Definition recolor_pixel (new_color : Z * Z * Z) (p : pixel) : pixel :=
  let '(r, g, b, a) := p in
  let '(cr, cg, cb) := new_color in
  clip_pixel (if is_ink r g b then (cr, cg, cb, a) else (r, g, b, a)).

Definition channel (v : Z) : Prop := (0 <= v <= 255)%Z.

Definition pixel_ok (p : pixel) : Prop :=
  let '(r, g, b, a) := p in channel r /\ channel g /\ channel b /\ channel a.

(** A decoded RGBA image: as many pixels as its size says, 8 bits each. *)
Definition wf_image (img : Image) : Prop :=
  length (data img) = fst (size img) * snd (size img)
  /\ Forall pixel_ok (data img).

(** A validated ColorSpec. *)
Definition ColorSpec (c : Z * Z * Z) : Prop :=
  let '(r, g, b) := c in channel r /\ channel g /\ channel b.

(** The shape the specification gives a colour string once its leading
    [#] is gone: six hexadecimal digits. *)
Definition is_six_hex (s : str) : bool :=
  (length s =? 6) && forallb Py.ishex s.

Section Run.
Context {W : Type} `{Pillow W}.

(** The body of the inner loop, at one coordinate. *)
Definition recolor_at (img : Image) (new_color : Z * Z * Z) (y x : nat)
           (new_img : Image) : M (W := W) Image :=
  p <- lift (getpixel img x y) ;;
  let '(r, g, b, a) := p in
  if is_ink r g b then
    let '(cr, cg, cb) := new_color in
    lift (putpixel new_img x y (cr, cg, cb, a))
  else
    lift (putpixel new_img x y (r, g, b, a)).

(** The two nested loops over [range(img.size[1])] and
    [range(img.size[0])]. *)
Definition recolor_loops (img : Image) (new_color : Z * Z * Z)
           (new_img : Image) : M (W := W) Image :=
  for_each (seq 0 (snd (size img)))
    (fun y new_img =>
       for_each (seq 0 (fst (size img))) (recolor_at img new_color y) new_img)
    new_img.

Definition open_image (input_path : str) : M (W := W) Image :=
  r <- ask (fun w => Image_open_convert w input_path) ;;
  lift r.

Definition save_image (img : Image) (output_path : str) : M (W := W) unit :=
  fun '(w, tr) =>
    match Image_save w img output_path with
    | (None, w') => (inr tt, (w', tr ++ [Saved img output_path]))
    | (Some e, w') => (inl e, (w', tr))
    end.

Definition convert_to_color (input_path output_path color_hex : str)
  : M (W := W) unit :=
  try_except
    (img <- open_image input_path ;;
     new_color <- lift (parse_color color_hex) ;;
     let new_img := Image_new (size img) (255, 255, 255, 0)%Z in
     new_img <- recolor_loops img new_color new_img ;;
     save_image new_img output_path ;;;
     print (lit "Image successfully saved to " ++ output_path))
    (fun e => print (lit "An error occurred: " ++ str_of_exn e)).

End Run.

(** How a run of the script ends once the new image is there: saved and
    announced, or the error of the save printed. *)
Definition saved_or_logged {W} (tr : list event) (output_path : str) (out : Image)
           (r : option exn * W) : (exn + unit) * (W * list event) :=
  match r with
  | (None, w') =>
      (inr tt, (w', tr ++ [Saved out output_path;
                           Printed (lit "Image successfully saved to " ++ output_path)]))
  | (Some e, w') =>
      (inr tt, (w', tr ++ [Printed (lit "An error occurred: " ++ str_of_exn e)]))
  end.

(** A small in-memory world: the decodable images by path, and the paths
    that cannot be written. *)
Record Disk : Type := mkDisk { images : list (str * Image); readonly : list str }.

#[export] Instance Disk_Pillow : Pillow Disk := {
  Image_open_convert d p :=
    match Py.assoc p (images d) with
    | Some img => inr img
    | None =>
        inl (FileNotFoundError (lit "[Errno 2] No such file or directory: '"
                                  ++ p ++ lit "'"))
    end;
  Image_save d img p :=
    if existsb (Py.str_eqb p) (readonly d)
    then (Some (OtherException (lit "PermissionError")
                  (lit "[Errno 13] Permission denied: '" ++ p ++ lit "'")), d)
    else (None, mkDisk ((p, img) :: images d) (readonly d))
}.

(** The image of the specification's example. *)
Definition example_image : Image :=
  mkImage (2, 2) [(0, 0, 0, 255); (255, 255, 255, 255);
                  (10, 10, 10, 0); (240, 240, 240, 255)]%Z.

Definition example_disk : Disk := mkDisk [(lit "draw.png", example_image)] [].

End ConvertToHex.

(* ===================================================================== *)
(** * The path functions of [os.path] (POSIX flavour) *)
(* ===================================================================== *)

Module PosixPath.

Definition sep : ascii := "/"%char.
Definition extsep : ascii := "."%char.
Definition curdir : str := ["."%char].
Definition pardir : str := ["."%char; "."%char].

Definition is_nil {A} (l : list A) : bool :=
  match l with [] => true | _ :: _ => false end.

Definition isabs (p : str) : bool := Py.startswith p [sep].

(** [os.path.join(a, b)] *)
Definition join (a b : str) : str :=
  if Py.startswith b [sep] then b
  else if is_nil a || Py.endswith a [sep] then a ++ b
  else a ++ [sep] ++ b.

(** What [join] puts in front of a relative second argument. *)
Definition pre (base : str) : str :=
  if is_nil base || Py.endswith base [sep] then base else base ++ [sep].

(** A string without a separator. *)
Definition nosep (s : str) : Prop :=
  existsb (fun c => Py.chr_eqb c sep) s = false.

(** A path component as [normpath] keeps them: not empty, no separator. *)
Definition clean (s : str) : Prop := s <> [] /\ nosep s.

(** [s.rfind(c)]: the index of the last [c], or -1. *)
Fixpoint rfind_from (c : ascii) (s : str) (i found : Z) : Z :=
  match s with
  | [] => found
  | x :: s' => rfind_from c s' (i + 1)%Z (if Py.chr_eqb x c then i else found)
  end.

Definition rfind (c : ascii) (s : str) : Z := rfind_from c s 0%Z (-1)%Z.

(** [os.path.splitext(p)]: split at the last dot of the last component,
    unless only dots come before it. *)
Definition splitext (p : str) : str * str :=
  let sepIndex := rfind sep p in
  let dotIndex := rfind extsep p in
  if (sepIndex <? dotIndex)%Z then
    let leading := Py.slice p (Z.to_nat (sepIndex + 1)) (Z.to_nat dotIndex) in
    if existsb (fun c => negb (Py.chr_eqb c extsep)) leading
    then (firstn (Z.to_nat dotIndex) p, skipn (Z.to_nat dotIndex) p)
    else (p, [])
  else (p, []).

(** The number of leading slashes [normpath] keeps: two stay two, three or
    more collapse to one. *)
Definition initial_slashes (p : str) : nat :=
  if Py.startswith p [sep] then
    if Py.startswith p [sep; sep] && negb (Py.startswith p [sep; sep; sep])
    then 2 else 1
  else 0.

(** One turn of [normpath]'s loop over the components. *)
Definition norm_step (slashes : nat) (new_comps : list str) (comp : str)
  : list str :=
  if is_nil comp || Py.str_eqb comp curdir then new_comps
  else if negb (Py.str_eqb comp pardir)
          || ((slashes =? 0) && is_nil new_comps)
          || (negb (is_nil new_comps) && Py.str_eqb (List.last new_comps []) pardir)
  then new_comps ++ [comp]
  else if negb (is_nil new_comps) then List.removelast new_comps
  else new_comps.

Definition norm_comps (p : str) : list str :=
  fold_left (norm_step (initial_slashes p)) (Py.split sep p) [].

(** [os.path.normpath(p)] *)
Definition normpath (p : str) : str :=
  if is_nil p then curdir
  else
    let path := repeat sep (initial_slashes p) ++ Py.join [sep] (norm_comps p) in
    if is_nil path then curdir else path.

(** What [abspath] normalises: the path itself when it is absolute, the
    path under the working directory otherwise. *)
Definition absolutize (cwd p : str) : str :=
  if isabs p then p else join cwd p.

(** [os.path.abspath(p)], with [os.getcwd()] passed in. *)
Definition abspath (cwd p : str) : str := normpath (absolutize cwd p).

(** [os.path.commonprefix] of two lists: their longest common prefix. *)
Fixpoint commonprefix (a b : list str) : list str :=
  match a, b with
  | x :: a', y :: b' => if Py.str_eqb x y then x :: commonprefix a' b' else []
  | _, _ => []
  end.

Definition nonempty_comps (p : str) : list str :=
  List.filter (fun x => negb (is_nil x)) (Py.split sep p).

(** [os.path.relpath(path, start)], with [os.getcwd()] passed in. *)
Definition relpath (cwd path start : str) : exn + str :=
  if is_nil path then inl (ValueError (lit "no path specified"))
  else
    let start_list := nonempty_comps (abspath cwd start) in
    let path_list := nonempty_comps (abspath cwd path) in
    let i := length (commonprefix start_list path_list) in
    let rel_list := repeat pardir (length start_list - i) ++ skipn i path_list in
    if is_nil rel_list then inr curdir
    else inr (Py.join [sep] rel_list).

End PosixPath.

(* ===================================================================== *)
(** * scripts/m4a_to_wav_conversion.py *)
(* ===================================================================== *)

Module M4aToWav.

(** A directory as [os.walk] sees it: the names of its files, and its
    subdirectories by name.  A subdirectory that is not descended into (a
    symbolic link) is a [Dir] without entries: the loop has nothing to do
    there either way. *)
Local Unset Elimination Schemes.

Inductive tree : Type :=
| Dir (files : list str) (subdirs : list (str * tree)).

Local Set Elimination Schemes.

(** [os.walk(top)], top down: one (root, dirs, files) triple per
    directory. *)
Fixpoint walk (top : str) (t : tree) : list (str * list str * list str) :=
  match t with
  | Dir files subdirs =>
      (top, map fst subdirs, files)
        :: flat_map (fun dt => walk (PosixPath.join top (fst dt)) (snd dt)) subdirs
  end.

Record CompletedProcess : Type :=
  mkCompleted { returncode : Z; stdout : str; stderr : str }.

(** The operating system, taken as a black box over the world [W].
    [os_listing w d] is the tree [os.walk] goes through under [d];
    [spawn] starts the process and waits for it: it raises when the
    process cannot be started, and gives the exit status otherwise. *)
Class OS (W : Type) : Type := {
  os_path_isdir : W -> str -> bool;
  os_path_exists : W -> str -> bool;
  os_path_isfile : W -> str -> bool;
  shutil_which : W -> str -> option str;
  os_getcwd : W -> str;
  os_listing : W -> str -> tree;
  os_makedirs : W -> str -> option exn * W;
  spawn : W -> list str -> (exn + CompletedProcess) * W
}.

(** The filter of line 60. *)
Definition is_m4a (filename : str) : bool :=
  Py.endswith (Py.lower filename) (lit ".m4a").

(** The argument list of lines 78-89. *)
Definition command (ffmpeg_path input_m4a_path output_wav_path : str) : list str :=
  [ffmpeg_path; lit "-i"; input_m4a_path; lit "-acodec"; lit "pcm_s16le";
   lit "-y"; output_wav_path].

Section Run.
Context {W : Type} `{OS W}.

Definition makedirs (p : str) : M (W := W) unit :=
  fun '(w, tr) =>
    match os_makedirs w p with
    | (None, w') => (inr tt, (w', tr ++ [MadeDirs p]))
    | (Some e, w') => (inl e, (w', tr))
    end.

(** [subprocess.run(cmd, check=True, capture_output=True, text=True)] *)
Definition subprocess_run (cmd : list str) : M (W := W) CompletedProcess :=
  fun '(w, tr) =>
    match spawn w cmd with
    | (inl e, w') => (inl e, (w', tr ++ [Spawned cmd (inl e)]))
    | (inr cp, w') =>
        let tr' := tr ++ [Spawned cmd (inr (returncode cp))] in
        if (returncode cp =? 0)%Z then (inr cp, (w', tr'))
        else (inl (CalledProcessError (returncode cp) cmd (stdout cp) (stderr cp)),
              (w', tr'))
    end.

(** The body of the inner loop (lines 60-111) for one file name; the
    two counters are the loop's local state. *)
Definition process_file (input_dir output_dir ffmpeg_path root filename : str)
           (counts : nat * nat) : M (W := W) (nat * nat) :=
  let '(converted_count, failed_count) := counts in
  if is_m4a filename then
    let input_m4a_path := PosixPath.join root filename in
    cwd <- ask os_getcwd ;;
    relative_path <- lift (PosixPath.relpath cwd root input_dir) ;;
    let current_output_dir := PosixPath.join output_dir relative_path in
    present <- ask (fun w => os_path_exists w current_output_dir) ;;
    (if negb present then makedirs current_output_dir else ret tt) ;;;
    let base_filename := fst (PosixPath.splitext filename) in
    let output_wav_path :=
      PosixPath.join current_output_dir (base_filename ++ lit ".wav") in
    print (lit "Converting: " ++ input_m4a_path ++ lit "  ==>  "
             ++ output_wav_path) ;;;
    let command := command ffmpeg_path input_m4a_path output_wav_path in
    try_except
      (subprocess_run command ;;;
       ret (S converted_count, failed_count))
      (fun e =>
         match e with
         | CalledProcessError e_returncode e_cmd e_stdout e_stderr =>
             print (lit "--- FAILED to convert: " ++ input_m4a_path ++ lit " ---") ;;;
             print (lit "Error Code: " ++ Py.str_of_Z e_returncode) ;;;
             print (lit "FFmpeg Command: " ++ Py.join (lit " ") e_cmd) ;;;
             print (lit "FFmpeg stderr:" ++ ["010"%char] ++ e_stderr) ;;;
             print (lit "FFmpeg stdout:" ++ ["010"%char] ++ e_stdout) ;;;
             ret (converted_count, S failed_count)
         | _ =>
             print (lit "--- FAILED to convert: " ++ input_m4a_path ++ lit " ---") ;;;
             print (lit "An unexpected error occurred: " ++ str_of_exn e) ;;;
             ret (converted_count, S failed_count)
         end)
  else ret counts.

(** Lines 36-44: "1. Validate inputs". *)
Definition validate_inputs (input_dir ffmpeg_path : str) : M (W := W) unit :=
  isdir <- ask (fun w => os_path_isdir w input_dir) ;;
  (if negb isdir
   then raise (FileNotFoundError (lit "Input directory not found: " ++ input_dir))
   else ret tt) ;;;
  found <- ask (fun w => shutil_which w ffmpeg_path) ;;
  match found with
  | Some _ => ret tt
  | None =>
      ex <- ask (fun w => os_path_exists w ffmpeg_path) ;;
      isf <- ask (fun w => os_path_isfile w ffmpeg_path) ;;
      if negb ex || negb isf
      then raise (FileNotFoundError
                    (lit "FFmpeg executable not found at '" ++ ffmpeg_path
                       ++ lit "'. Ensure FFmpeg is installed and in your PATH, or provide the full path."))
      else ret tt
  end.

(** Lines 46-53: the output root, created when it is given and absent. *)
Definition choose_output_dir (input_dir : str) (output_dir : option str)
  : M (W := W) str :=
  match output_dir with
  | None =>
      print (lit "Output directory not specified. Saving .wav files alongside .m4a files in '"
               ++ input_dir ++ lit "'.") ;;;
      ret input_dir
  | Some output_dir =>
      ex <- ask (fun w => os_path_exists w output_dir) ;;
      (if negb ex
       then print (lit "Output directory '" ++ output_dir
                     ++ lit "' does not exist. Creating it.") ;;;
            makedirs output_dir
       else ret tt) ;;;
      ret output_dir
  end.

(** Lines 55-111: "2. Walk through the directory tree", with the two
    counters starting at 0. *)
Definition convert_tree (input_dir output_dir ffmpeg_path : str)
  : M (W := W) (nat * nat) :=
  listing <- ask (fun w => os_listing w input_dir) ;;
  for_each (walk input_dir listing)
    (fun '(root, dirs, files) counts =>
       for_each files (process_file input_dir output_dir ffmpeg_path root) counts)
    (0, 0).

(** Lines 113-116: the summary. *)
Definition print_summary (counts : nat * nat) (output_dir : str) : M (W := W) unit :=
  let '(converted_count, failed_count) := counts in
  print (["010"%char] ++ lit "--- Conversion Summary ---") ;;;
  print (lit "Successfully converted: " ++ Py.str_of_nat converted_count ++ lit " file(s)") ;;;
  print (lit "Failed conversions:     " ++ Py.str_of_nat failed_count ++ lit " file(s)") ;;;
  cwd <- ask os_getcwd ;;
  print (lit "Output directory:       " ++ PosixPath.abspath cwd output_dir).

Definition convert_m4a_directory_to_wav
           (input_dir : str) (output_dir : option str) (ffmpeg_path : str)
  : M (W := W) unit :=
  validate_inputs input_dir ffmpeg_path ;;;
  output_dir <- choose_output_dir input_dir output_dir ;;
  counts <- convert_tree input_dir output_dir ffmpeg_path ;;
  print_summary counts output_dir.

End Run.

(** ** What the properties below speak about *)

(** The invocations of the transcoder in a trace, with their outcomes, and
    the lines printed. *)
Definition spawned (tr : list event) : list (list str * (exn + Z)) :=
  flat_map (fun ev => match ev with Spawned cmd o => [(cmd, o)] | _ => [] end) tr.

Definition printed (tr : list event) : list str :=
  flat_map (fun ev => match ev with Printed l => [l] | _ => [] end) tr.

(** An invocation succeeds when the process starts and exits with 0. *)
Definition succeeded (o : exn + Z) : bool :=
  match o with inr 0%Z => true | _ => false end.

Definition count_ok (l : list (list str * (exn + Z))) : nat :=
  length (List.filter (fun co => succeeded (snd co)) l).

Definition count_failed (l : list (list str * (exn + Z))) : nat :=
  length (List.filter (fun co => negb (succeeded (snd co))) l).

(** An invocation that started and exited with a non-zero status. *)
Definition nonzero_exit (o : exn + Z) : bool :=
  match o with inr rc => negb (rc =? 0)%Z | inl _ => false end.

Definition count_nonzero (l : list (list str * (exn + Z))) : nat :=
  length (List.filter (fun co => nonzero_exit (snd co)) l).

Definition started (o : exn + Z) : bool :=
  match o with inr _ => true | inl _ => false end.

(** Whether [sub] occurs in [s]. *)
Fixpoint occurs (sub s : str) : bool :=
  Py.startswith s sub
  || match s with
     | [] => false
     | _ :: s' => occurs sub s'
     end.

(** The (root, filename) pairs in the order the two loops meet them. *)
Definition walk_pairs (top : str) (t : tree) : list (str * str) :=
  flat_map (fun '(root, _, files) => map (pair root) files) (walk top t).

(** The files of a tree in the same order, each with the names of the
    directories that lead to it. *)
Fixpoint tree_files (t : tree) : list (list str * str) :=
  match t with
  | Dir files subdirs =>
      map (pair []) files
        ++ flat_map (fun dt => map (fun e => (fst dt :: fst e, snd e))
                                   (tree_files (snd dt))) subdirs
  end.

(** [base/c1/c2/...], built with [os.path.join]. *)
Definition join_all (base : str) (comps : list str) : str :=
  fold_left PosixPath.join comps base.

(** The name the destination gets: the four characters of the extension
    are replaced by [.wav]; a name that is nothing but dots before its
    [m4a], which [os.path.splitext] takes to have no extension, gets [.wav]
    appended. *)
Definition wav_name (filename : str) : str :=
  let stem := firstn (length filename - 4) filename in
  if existsb (fun c => negb (Py.chr_eqb c PosixPath.extsep)) stem
  then stem ++ lit ".wav"
  else filename ++ lit ".wav".

(** A name a directory entry can have. *)
Definition valid_name (n : str) : bool :=
  negb (PosixPath.is_nil n)
  && negb (existsb (fun c => Py.chr_eqb c PosixPath.sep) n)
  && negb (Py.str_eqb n PosixPath.curdir)
  && negb (Py.str_eqb n PosixPath.pardir).

Fixpoint valid_tree (t : tree) : bool :=
  match t with
  | Dir files subdirs =>
      forallb valid_name files
      && forallb (fun dt => valid_name (fst dt) && valid_tree (snd dt)) subdirs
  end.

(** Lines 70-73: the destination for a file, given the relative path of
    its directory. *)
Definition destination (output_dir relative_path filename : str) : str :=
  PosixPath.join (PosixPath.join output_dir relative_path)
                 (fst (PosixPath.splitext filename) ++ lit ".wav").

(** What the two handlers print for a failed item. *)
Definition failure_report (input_m4a_path : str) (e : exn) : list event :=
  match e with
  | CalledProcessError rc cmd out err =>
      [Printed (lit "--- FAILED to convert: " ++ input_m4a_path ++ lit " ---");
       Printed (lit "Error Code: " ++ Py.str_of_Z rc);
       Printed (lit "FFmpeg Command: " ++ Py.join (lit " ") cmd);
       Printed (lit "FFmpeg stderr:" ++ ["010"%char] ++ err);
       Printed (lit "FFmpeg stdout:" ++ ["010"%char] ++ out)]
  | _ =>
      [Printed (lit "--- FAILED to convert: " ++ input_m4a_path ++ lit " ---");
       Printed (lit "An unexpected error occurred: " ++ str_of_exn e)]
  end.

(** The summary block of lines 113-116. *)
Definition summary (converted_count failed_count : nat) (abs_output_dir : str)
  : list event :=
  [Printed (["010"%char] ++ lit "--- Conversion Summary ---");
   Printed (lit "Successfully converted: " ++ Py.str_of_nat converted_count ++ lit " file(s)");
   Printed (lit "Failed conversions:     " ++ Py.str_of_nat failed_count ++ lit " file(s)");
   Printed (lit "Output directory:       " ++ abs_output_dir)].

(** The filter, on a (root, filename) pair. *)
Definition matching (rf : str * str) : bool := is_m4a (snd rf).

Section Props.
Context {W : Type} `{OS W}.

(** [co] is the invocation the loop body makes for the file [snd rf] of
    the directory [fst rf]: lines 61-89 with the relative path computed
    in some state of the world. *)
Definition item_cmd (input_dir output_dir ffmpeg_path : str)
           (rf : str * str) (co : list str * (exn + Z)) : Prop :=
  exists (wq : W) (rel : str),
    PosixPath.relpath (os_getcwd wq) (fst rf) input_dir = inr rel
    /\ fst co = command ffmpeg_path (PosixPath.join (fst rf) (snd rf))
                        (destination output_dir rel (snd rf)).

(** The two ways the loop itself can raise: [os.makedirs] fails on a
    path that is not there yet, or [os.path.relpath] rejects a root. *)
Definition loop_fatal (input_dir : str) (roots : list str) (e : exn) : Prop :=
  (exists (wq : W) (p : str),
      os_path_exists wq p = false /\ fst (os_makedirs wq p) = Some e)
  \/ (exists (wq : W) (root : str),
        In root roots /\ PosixPath.relpath (os_getcwd wq) root input_dir = inl e).

(** The checks of lines 37-44 pass. *)
Definition preconditions_hold (w : W) (input_dir ffmpeg_path : str) : bool :=
  os_path_isdir w input_dir
  && (match shutil_which w ffmpeg_path with Some _ => true | None => false end
      || (os_path_exists w ffmpeg_path && os_path_isfile w ffmpeg_path)).

(** The output root the loop uses, and the world the walk starts in
    (lines 46-53). *)
Definition output_root (input_dir : str) (output_dir : option str) : str :=
  match output_dir with None => input_dir | Some o => o end.

Definition world_at_walk (w : W) (output_dir : option str) : W :=
  match output_dir with
  | None => w
  | Some o => if os_path_exists w o then w else snd (os_makedirs w o)
  end.

End Props.

(** A small concrete world: directories and files by path, the commands
    on the search path, the tree under each root, and the sources on which
    the transcoder exits with status 1.  Its working directory is fixed. *)
Definition host_cwd : str := lit "/home/u".

Record Host : Type := mkHost {
  host_dirs : list str;
  host_files : list str;
  host_path : list str;
  host_trees : list (str * tree);
  host_bad : list str
}.

Definition mem (p : str) (l : list str) : bool := existsb (Py.str_eqb p) l.

(** Two spellings of one location. *)
Definition same_path (cwd p q : str) : bool :=
  Py.str_eqb (PosixPath.abspath cwd p) (PosixPath.abspath cwd q).

Definition has_path (cwd p : str) (l : list str) : bool :=
  existsb (same_path cwd p) l.

#[export] Instance Host_OS : OS Host := {
  os_path_isdir h p := has_path host_cwd p (host_dirs h);
  os_path_exists h p :=
    has_path host_cwd p (host_dirs h) || has_path host_cwd p (host_files h);
  os_path_isfile h p := has_path host_cwd p (host_files h);
  shutil_which h p :=
    if mem p (host_path h) then Some (lit "/usr/bin/" ++ p) else None;
  os_getcwd _ := host_cwd;
  os_listing h p :=
    match Py.assoc p (host_trees h) with Some t => t | None => Dir [] [] end;
  os_makedirs h p :=
    if has_path host_cwd p (host_dirs h) || has_path host_cwd p (host_files h)
    then (Some (OtherException (lit "FileExistsError")
                  (lit "[Errno 17] File exists: " ++ Py.quoted p)), h)
    else (None, mkHost (p :: host_dirs h) (host_files h)
                  (host_path h) (host_trees h) (host_bad h));
  spawn h cmd :=
    match cmd with
    | exe :: _ :: src :: _ =>
        if mem exe (host_path h) || has_path host_cwd exe (host_files h) then
          if mem src (host_bad h)
          then (inr (mkCompleted 1 [] (src ++ lit ": Invalid data found when processing input")), h)
          else (inr (mkCompleted 0 [] []), h)
        else (inl (FileNotFoundError
                     (lit "[Errno 2] No such file or directory: " ++ Py.quoted exe)), h)
    | _ => (inl (IndexError (lit "list index out of range")), h)
    end
}.

(** The tree of the specification's example, [in/a.m4a] and
    [in/sub/b.m4a], with one more file that fails to transcode. *)
Definition example_tree : tree :=
  Dir [lit "a.m4a"; lit "notes.txt"] [(lit "sub", Dir [lit "b.m4a"; lit "C.M4A"] [])].

(** The tree of the specification's example alone, [in/a.m4a] and
    [in/sub/b.m4a]. *)
Definition spec_tree : tree :=
  Dir [lit "a.m4a"] [(lit "sub", Dir [lit "b.m4a"] [])].

Definition spec_host : Host :=
  mkHost [lit "in"; lit "in/sub"] [] [lit "ffmpeg"] [(lit "in", spec_tree)] [].

Definition example_host : Host :=
  mkHost [lit "in"; lit "in/sub"] [] [lit "ffmpeg"]
         [(lit "in", example_tree)] [lit "in/sub/C.M4A"].

End M4aToWav.

(* ===================================================================== *)
(** * The shape of a run's trace *)
(* ===================================================================== *)

Module RunTrace.
Import M4aToWav.

(** What the loop body did for one file that passed the filter and got as
    far as the transcoder: the directory it created, if it created one, the
    two paths, and how the process went. *)
Record item_run : Type := mkItemRun {
  made_dir : option str;
  source : str;
  dest : str;
  result : exn + CompletedProcess
}.

(** The outcome as the trace records it. *)
Definition outcome (r : exn + CompletedProcess) : exn + Z :=
  match r with inl e => inl e | inr cp => inr (returncode cp) end.

(** The exception the [try] block sees, if any: a launch error, or the
    [CalledProcessError] that [check=True] makes of a non-zero status. *)
Definition raised (cmd : list str) (r : exn + CompletedProcess) : option exn :=
  match r with
  | inl e => Some e
  | inr cp =>
      if (returncode cp =? 0)%Z then None
      else Some (CalledProcessError (returncode cp) cmd (stdout cp) (stderr cp))
  end.

(** The text printed at line 75. *)
Definition progress_text (input_m4a_path output_wav_path : str) : str :=
  lit "Converting: " ++ input_m4a_path ++ lit "  ==>  " ++ output_wav_path.

(** Everything one such file leaves in the trace. *)
Definition item_events (ffmpeg_path : str) (r : item_run) : list event :=
  let cmd := command ffmpeg_path (source r) (dest r) in
  match made_dir r with Some d => [MadeDirs d] | None => [] end
  ++ Printed (progress_text (source r) (dest r))
  :: Spawned cmd (outcome (result r))
  :: match raised cmd (result r) with
     | Some e => failure_report (source r) e
     | None => []
     end.

(** The texts given to [print] that begin with [prefix], in order.  A text
    is what one call prints, not one line of the output: it holds a newline
    wherever a file name or the captured output of the transcoder does, and
    those of lines 105, 106 and 113 hold one of their own. *)
Definition prints_with (prefix : str) (tr : list event) : list str :=
  List.filter (fun line => Py.startswith line prefix) (printed tr).

(** The directories a trace shows as created. *)
Definition made_dirs (tr : list event) : list str :=
  flat_map (fun ev => match ev with MadeDirs p => [p] | _ => [] end) tr.

(** The exit status the first handler reports for an outcome: that of a
    process that ended with a non-zero status (or the one carried by a
    [CalledProcessError] raised otherwise). *)
Definition reported_status (o : exn + Z) : list Z :=
  match o with
  | inr rc => if (rc =? 0)%Z then [] else [rc]
  | inl (CalledProcessError rc _ _ _) => [rc]
  | inl _ => []
  end.

Section Shape.
Context {W : Type} `{OS W}.

(** [ir] is what the loop body does for the file [snd rf] of the directory
    [fst rf]: the paths of lines 61-73. *)
Definition item_ok (input_dir output_dir : str) (rf : str * str) (ir : item_run)
  : Prop :=
  source ir = PosixPath.join (fst rf) (snd rf)
  /\ (exists (wq : W) (rel : str),
         PosixPath.relpath (os_getcwd wq) (fst rf) input_dir = inr rel
         /\ dest ir = destination output_dir rel (snd rf)).

End Shape.

(** What lines 46-53 can leave in the trace. *)
Definition root_notice (input_dir : str) (output_dir : option str)
           (pre : list event) : Prop :=
  match output_dir with
  | None =>
      pre = [Printed (lit "Output directory not specified. Saving .wav files alongside .m4a files in '"
                        ++ input_dir ++ lit "'.")]
  | Some o =>
      pre = []
      \/ pre = [Printed (lit "Output directory '" ++ o
                           ++ lit "' does not exist. Creating it.")]
      \/ pre = [Printed (lit "Output directory '" ++ o
                           ++ lit "' does not exist. Creating it.");
                MadeDirs o]
  end.

(** A world like [Host] in which no directory can be created. *)
Record Locked : Type := mkLocked { unlocked : Host }.

#[export] Instance Locked_OS : OS Locked := {
  os_path_isdir l p := os_path_isdir (unlocked l) p;
  os_path_exists l p := os_path_exists (unlocked l) p;
  os_path_isfile l p := os_path_isfile (unlocked l) p;
  shutil_which l p := shutil_which (unlocked l) p;
  os_getcwd l := os_getcwd (unlocked l);
  os_listing l p := os_listing (unlocked l) p;
  os_makedirs l p :=
    (Some (OtherException (lit "PermissionError")
             (lit "[Errno 13] Permission denied: " ++ Py.quoted p)), l);
  spawn l cmd := (fst (spawn (unlocked l) cmd), mkLocked (snd (spawn (unlocked l) cmd)))
}.

(** A locked world in which the output root [out] is there but [out/sub]
    is not, over the tree of [example_tree]; the transcoder exits with
    status 1 on [in/a.m4a]. *)
Definition example_locked : Locked :=
  mkLocked (mkHost [lit "in"; lit "in/sub"; lit "out"] [] [lit "ffmpeg"]
                   [(lit "in", example_tree)] [lit "in/a.m4a"]).

End RunTrace.

(* ===================================================================== *)
(** * The calls a run makes *)
(* ===================================================================== *)

Module Recorder.
Import M4aToWav.

(** A call that can change the world, with the world it was made in and
    what it gave back: the exception of [os.makedirs], if it raised one,
    and the exception or the completed process of [subprocess.run]. *)
Inductive call (W : Type) : Type :=
| Makedirs (before : W) (path : str) (error : option exn)
| Spawn (before : W) (cmd : list str) (result : exn + CompletedProcess).

Arguments Makedirs {W} before path error.
Arguments Spawn {W} before cmd result.

(** A world that keeps the list of the calls made in it.  It answers
    every question as the world inside does, and hands every call on to
    it. *)
Record Recorded (W : Type) : Type :=
  mkRecorded { inner : W; calls : list (call W) }.

Arguments mkRecorded {W} inner calls.
Arguments inner {W} r.
Arguments calls {W} r.

#[export] Instance Recorded_OS {W : Type} `{OS W} : OS (Recorded W) := {
  os_path_isdir r p := os_path_isdir (inner r) p;
  os_path_exists r p := os_path_exists (inner r) p;
  os_path_isfile r p := os_path_isfile (inner r) p;
  shutil_which r p := shutil_which (inner r) p;
  os_getcwd r := os_getcwd (inner r);
  os_listing r p := os_listing (inner r) p;
  os_makedirs r p :=
    (fst (os_makedirs (inner r) p),
     mkRecorded (snd (os_makedirs (inner r) p))
                (calls r ++ [Makedirs (inner r) p (fst (os_makedirs (inner r) p))]));
  spawn r cmd :=
    (fst (spawn (inner r) cmd),
     mkRecorded (snd (spawn (inner r) cmd))
                (calls r ++ [Spawn (inner r) cmd (fst (spawn (inner r) cmd))]))
}.

Section Calls.
Context {W : Type} `{OS W}.

(** The calls of the run that starts in the world [w], in order: what
    the same run leaves in the record when it starts in [w] with an empty
    record. *)
Definition calls_made (input_dir : str) (output_dir : option str)
           (ffmpeg_path : str) (w : W) : list (call W) :=
  calls (fst (snd (convert_m4a_directory_to_wav input_dir output_dir ffmpeg_path
                     (mkRecorded w [], [])))).

(** [os.makedirs] was called on a path that [os.path.exists] denied in the
    world of the call. *)
Definition guarded (c : call W) : Prop :=
  match c with
  | Makedirs before path _ => os_path_exists before path = false
  | Spawn _ _ _ => True
  end.

(** The exception of a call of [os.makedirs] that raised. *)
Definition creation_error (c : call W) : option exn :=
  match c with
  | Makedirs _ _ error => error
  | Spawn _ _ _ => None
  end.

(** The directories the calls created, and the invocations among them with
    their outcomes. *)
Definition created (cs : list (call W)) : list str :=
  flat_map (fun c => match c with Makedirs _ p None => [p] | _ => [] end) cs.

Definition invocations (cs : list (call W)) : list (list str * (exn + Z)) :=
  flat_map (fun c => match c with
                     | Spawn _ cmd r => [(cmd, RunTrace.outcome r)]
                     | _ => []
                     end) cs.

(** The calls [cs] end with a call of [os.makedirs], on a path that was
    not there, which raised [e] and left the world [w']; no call of
    [os.makedirs] before it raised. *)
Definition ends_in_failed_creation (cs : list (call W)) (e : exn) (w' : W) : Prop :=
  exists init wq p,
    cs = init ++ [Makedirs wq p (Some e)]
    /\ Forall (fun c => creation_error c = None) init
    /\ os_path_exists wq p = false
    /\ os_makedirs wq p = (Some e, w').

End Calls.

End Recorder.

(* ===================================================================== *)
(** * Properties of the recolouring script *)
(* ===================================================================== *)

Module ConvertToHexProofs.
Import ConvertToHex.

Lemma clip8_id v : channel v -> clip8 v = v.
Proof.
  unfold channel, clip8. intros Hv.
  destruct (Z.leb_spec v 0); [lia|].
  destruct (Z.ltb_spec v 256); lia.
Qed.

Lemma clip8_idem v : clip8 (clip8 v) = clip8 v.
Proof.
  apply clip8_id. unfold channel, clip8.
  destruct (Z.leb_spec v 0); [lia|].
  destruct (Z.ltb_spec v 256); lia.
Qed.

Section Loops.
Context {W : Type}.
Variable img : Image.
Variable new_color : Z * Z * Z.
Hypothesis Hlen : length (data img) = fst (size img) * snd (size img).

Abbreviation w := (fst (size img)).
Abbreviation h := (snd (size img)).

(** One turn of the inner loop writes one cell and nothing else. *)
Lemma recolor_at_step (st : W * list event) y x new_img p :
  x < w -> y < h -> size new_img = size img ->
  data img !! (y * w + x) = Some p ->
  recolor_at img new_color y x new_img st
  = (inr (mkImage (size img)
            (<[y * w + x := recolor_pixel new_color p]> (data new_img))), st).
Proof.
  intros Hx Hy Hsz Hp.
  unfold recolor_at, bind, lift, getpixel, putpixel, in_bounds.
  rewrite Hsz.
  assert (Hxb : (x <? w) = true) by (apply Nat.ltb_lt; lia).
  assert (Hyb : (y <? h) = true) by (apply Nat.ltb_lt; lia).
  rewrite Hxb, Hyb. simpl. rewrite Hp. simpl.
  destruct p as [[[r g] b] a]. destruct new_color as [[cr cg] cb].
  unfold recolor_pixel.
  destruct (is_ink r g b); reflexivity.
Qed.

Lemma cell_in_range x y : x < w -> y < h -> y * w + x < w * h.
Proof. intros. nia. Qed.

(** The inner loop over columns [x0 .. x0+n) of row [y]. *)
Lemma inner_loop (st : W * list event) y n : forall x0 new_img,
  x0 + n <= w -> y < h -> size new_img = size img ->
  length (data new_img) = w * h ->
  exists out,
    for_each (seq x0 n) (recolor_at img new_color y) new_img st = (inr out, st)
    /\ size out = size img
    /\ length (data out) = w * h
    /\ forall i,
        data out !! i
        = if (y * w + x0 <=? i) && (i <? y * w + x0 + n)
          then recolor_pixel new_color <$> data img !! i
          else data new_img !! i.
Proof.
  induction n as [|n IH]; intros x0 new_img Hx Hy Hsz Hcan.
  - exists new_img. simpl. repeat split; auto.
    intros i. destruct (Nat.leb_spec (y * w + x0) i); simpl; auto.
    destruct (Nat.ltb_spec i (y * w + x0 + 0)); auto. lia.
  - assert (Hcell : y * w + x0 < w * h) by (apply cell_in_range; lia).
    assert (Hin : y * w + x0 < length (data img)) by (rewrite Hlen; exact Hcell).
    destruct (lookup_lt_is_Some_2 _ _ Hin) as [p Hp].
    simpl. unfold bind at 1.
    rewrite (recolor_at_step st y x0 new_img p) by (auto; lia).
    set (new1 := mkImage _ _).
    destruct (IH (S x0) new1) as (out & Hrun & Hs & Hl & Hd);
      [lia|auto|reflexivity|subst new1; simpl; rewrite length_insert; exact Hcan|].
    exists out. split; [exact Hrun|]. split; [exact Hs|]. split; [exact Hl|].
    intros i. rewrite Hd. subst new1. simpl.
    destruct (Nat.eq_dec i (y * w + x0)) as [->|Hne].
    + assert (Hlt : (y * w + S x0 <=? y * w + x0) = false) by (apply Nat.leb_gt; lia).
      rewrite Hlt. simpl.
      assert (Hle : (y * w + x0 <=? y * w + x0) = true) by (apply Nat.leb_le; lia).
      assert (Hlt2 : (y * w + x0 <? y * w + x0 + S n) = true) by (apply Nat.ltb_lt; lia).
      rewrite Hle, Hlt2. simpl. rewrite Hp. simpl.
      apply list_lookup_insert_eq. rewrite Hcan. exact Hcell.
    + rewrite list_lookup_insert_ne by congruence.
      destruct (Nat.leb_spec (y * w + S x0) i) as [H1|H1];
        destruct (Nat.leb_spec (y * w + x0) i) as [H2|H2];
        destruct (Nat.ltb_spec i (y * w + S x0 + n)) as [H3|H3];
        destruct (Nat.ltb_spec i (y * w + x0 + S n)) as [H4|H4];
        simpl; auto; lia.
Qed.

(** The outer loop over rows [y0 .. y0+m). *)
Lemma outer_loop (st : W * list event) m : forall y0 new_img,
  y0 + m <= h -> size new_img = size img ->
  length (data new_img) = w * h ->
  exists out,
    for_each (seq y0 m)
      (fun y acc => for_each (seq 0 w) (recolor_at img new_color y) acc)
      new_img st = (inr out, st)
    /\ size out = size img
    /\ length (data out) = w * h
    /\ forall i,
        data out !! i
        = if (y0 * w <=? i) && (i <? (y0 + m) * w)
          then recolor_pixel new_color <$> data img !! i
          else data new_img !! i.
Proof.
  induction m as [|m IH]; intros y0 new_img Hy Hsz Hcan.
  - exists new_img. simpl. repeat split; auto.
    intros i. destruct (Nat.leb_spec (y0 * w) i); simpl; auto.
    destruct (Nat.ltb_spec i ((y0 + 0) * w)); auto. lia.
  - destruct (inner_loop st y0 w 0 new_img) as (row & Hrow & Hrs & Hrl & Hrd);
      [lia|lia|auto|auto|].
    destruct (IH (S y0) row) as (out & Hrun & Hs & Hl & Hd); [lia|auto|auto|].
    exists out. split.
    { simpl. unfold bind at 1. rewrite Hrow. exact Hrun. }
    split; [exact Hs|]. split; [exact Hl|].
    intros i. rewrite Hd, Hrd.
    destruct (Nat.leb_spec (S y0 * w) i) as [H1|H1];
      destruct (Nat.leb_spec (y0 * w) i) as [H2|H2];
      destruct (Nat.leb_spec (y0 * w + 0) i) as [H2'|H2'];
      destruct (Nat.ltb_spec i ((S y0 + m) * w)) as [H3|H3];
      destruct (Nat.ltb_spec i ((y0 + S m) * w)) as [H4|H4];
      destruct (Nat.ltb_spec i (y0 * w + 0 + w)) as [H5|H5];
      simpl; auto; try lia; try nia.
Qed.

(** Both loops together: every cell of the canvas is rewritten from the
    cell of the input at the same place. *)
Lemma recolor_loops_map (st : W * list event) new_img :
  size new_img = size img -> length (data new_img) = w * h ->
  recolor_loops img new_color new_img st
  = (inr (mkImage (size img) (map (recolor_pixel new_color) (data img))), st).
Proof.
  intros Hsz Hcan. unfold recolor_loops.
  destruct (outer_loop st h 0 new_img) as (out & Hrun & Hs & Hl & Hd);
    [lia|auto|auto|].
  rewrite Hrun. f_equal. f_equal.
  destruct out as [osz odata]. simpl in *. subst osz. f_equal.
  apply list_eq. intros i. rewrite Hd, list_lookup_fmap.
  destruct (Nat.ltb_spec i (h * w)) as [H2|H2]; [reflexivity|].
  rewrite !lookup_ge_None_2 by lia. reflexivity.
Qed.

Lemma Image_new_size c : size (Image_new (size img) c) = size img.
Proof. reflexivity. Qed.

Lemma Image_new_length c : length (data (Image_new (size img) c)) = w * h.
Proof. unfold Image_new. simpl. apply length_replicate. Qed.

End Loops.

Lemma recolor_pixel_valid c r g b a :
  ColorSpec c -> pixel_ok (r, g, b, a) ->
  recolor_pixel c (r, g, b, a)
  = if is_ink r g b then (fst (fst c), snd (fst c), snd c, a) else (r, g, b, a).
Proof.
  destruct c as [[cr cg] cb]. simpl.
  intros (Hr & Hg & Hb) (Pr & Pg & Pb & Pa).
  destruct (is_ink r g b); simpl; rewrite ?clip8_id; auto.
Qed.

Lemma clip8_ink v : (clip8 v <? 230)%Z = (v <? 230)%Z.
Proof.
  unfold clip8.
  destruct (Z.leb_spec v 0); [|destruct (Z.ltb_spec v 256)];
    destruct (Z.ltb_spec v 230); try lia;
    (apply Z.ltb_lt || apply Z.ltb_ge); lia.
Qed.

(** With a light colour, what one pass writes is no longer ink. *)
Lemma recolor_pixel_idem cr cg cb p :
  (230 <= cr)%Z -> (230 <= cg)%Z -> (230 <= cb)%Z ->
  recolor_pixel (cr, cg, cb) (recolor_pixel (cr, cg, cb) p)
  = recolor_pixel (cr, cg, cb) p.
Proof.
  intros Hr Hg Hb. destruct p as [[[r g] b] a].
  unfold recolor_pixel.
  destruct (is_ink r g b) eqn:Hink; unfold clip_pixel.
  - assert (Hn : is_ink (clip8 cr) (clip8 cg) (clip8 cb) = false).
    { unfold is_ink. rewrite !clip8_ink.
      destruct (Z.ltb_spec cr 230); [lia|reflexivity]. }
    rewrite Hn. simpl. rewrite !clip8_idem. reflexivity.
  - assert (Hn : is_ink (clip8 r) (clip8 g) (clip8 b) = false).
    { unfold is_ink in *. rewrite !clip8_ink. exact Hink. }
    rewrite Hn. simpl. rewrite !clip8_idem. reflexivity.
Qed.

Section TopLevel.
Context {W : Type} `{Pillow W}.

(** The computation inside the [try]. *)
Lemma body_runs (w : W) tr input_path output_path color_hex img c :
  Image_open_convert w input_path = inr img ->
  length (data img) = fst (size img) * snd (size img) ->
  parse_color color_hex = inr c ->
  convert_to_color input_path output_path color_hex (w, tr)
  = let out := mkImage (size img) (map (recolor_pixel c) (data img)) in
    match Image_save w out output_path with
    | (None, w') =>
        (inr tt, (w', tr ++ [Saved out output_path;
                             Printed (lit "Image successfully saved to " ++ output_path)]))
    | (Some e, w') =>
        (inr tt, (w', tr ++ [Printed (lit "An error occurred: " ++ str_of_exn e)]))
    end.
Proof.
  intros Hopen Hlen Hcol.
  unfold convert_to_color, try_except, open_image.
  unfold bind at 1. unfold bind at 1. unfold ask. rewrite Hopen. simpl.
  unfold bind at 1. rewrite Hcol. simpl.
  unfold bind at 1.
  rewrite (recolor_loops_map img c Hlen (w, tr))
    by (try apply Image_new_size; apply Image_new_length).
  unfold bind, save_image.
  destruct (Image_save w _ output_path) as [[e|] w']; simpl.
  - reflexivity.
  - rewrite <- app_assoc. reflexivity.
Qed.

Lemma recolor_at_state img c y x acc (st : W * list event) :
  snd (recolor_at img c y x acc st) = st.
Proof.
  unfold recolor_at, bind, lift.
  destruct (getpixel img x y) as [e|[[[r g] b] a]]; simpl; [reflexivity|].
  destruct c as [[cr cg] cb].
  destruct (is_ink r g b);
    match goal with |- context [putpixel ?i ?a ?b ?p] =>
      destruct (putpixel i a b p) end; reflexivity.
Qed.

Lemma for_each_state {X A} (body : X -> A -> M (W := W) A) l :
  (forall x a st, snd (body x a st) = st) ->
  forall a st, snd (for_each l body a st) = st.
Proof.
  intros Hb. induction l as [|x l IH]; intros a st; simpl; [reflexivity|].
  unfold bind. specialize (Hb x a st).
  destruct (body x a st) as [[e|a'] st']; simpl in *; subst; auto.
Qed.

Lemma recolor_loops_state img c acc (st : W * list event) :
  snd (recolor_loops img c acc st) = st.
Proof.
  unfold recolor_loops. apply for_each_state.
  intros y a st'. apply for_each_state. intros. apply recolor_at_state.
Qed.

End TopLevel.

Lemma getpixel_inv img x y p :
  getpixel img x y = inr p ->
  x < fst (size img) /\ y < snd (size img)
  /\ data img !! (y * fst (size img) + x) = Some p.
Proof.
  unfold getpixel, in_bounds. intros Hg.
  destruct (Nat.ltb_spec x (fst (size img))); simpl in Hg; [|discriminate].
  destruct (Nat.ltb_spec y (snd (size img))); simpl in Hg; [|discriminate].
  destruct (data img !! _) eqn:E; [|discriminate].
  inversion Hg; subst. auto.
Qed.

(** C1. Recolouring keeps the dimensions; a pixel whose three colour
    channels are all below 230 takes the colour C and keeps its alpha,
    every other pixel is copied as it is; on the 2x2 image of the
    specification and colour #FF0000 the saved image is the expected
    one. *)
Theorem recolor_replaces_ink_keeps_alpha :
  (forall (W : Type) (PIL : Pillow W) (w : W) (tr : list event)
          (input_path output_path color_hex : str) (img : Image) (cr cg cb : Z),
      Image_open_convert w input_path = inr img ->
      wf_image img ->
      parse_color color_hex = inr (cr, cg, cb) ->
      ColorSpec (cr, cg, cb) ->
      exists out : Image,
        size out = size img
        /\ length (data out) = length (data img)
        /\ (forall x y r g b a,
               getpixel img x y = inr (r, g, b, a) ->
               getpixel out x y
               = inr (if is_ink r g b then (cr, cg, cb, a) else (r, g, b, a)))
        /\ convert_to_color input_path output_path color_hex (w, tr)
           = saved_or_logged tr output_path out (Image_save w out output_path))
  /\ snd (snd (convert_to_color (lit "draw.png") (lit "out.png") (lit "#FF0000")
                 (example_disk, [])))
     = [Saved (mkImage (2, 2) [(255, 0, 0, 255); (255, 255, 255, 255);
                               (255, 0, 0, 0); (240, 240, 240, 255)]%Z)
              (lit "out.png");
        Printed (lit "Image successfully saved to out.png")].
Proof.
  split; [|vm_compute; reflexivity].
  intros W PIL w tr input_path output_path color_hex img cr cg cb
         Hopen [Hlen Hpix] Hcol Hc.
  exists (mkImage (size img) (map (recolor_pixel (cr, cg, cb)) (data img))).
  split; [reflexivity|]. split; [simpl; apply length_map|]. split.
  - intros x y r g b a Hg.
    apply getpixel_inv in Hg. destruct Hg as (Hx & Hy & Hp).
    unfold getpixel, in_bounds. simpl.
    destruct (Nat.ltb_spec x (fst (size img))); [|lia].
    destruct (Nat.ltb_spec y (snd (size img))); [|lia]. simpl.
    rewrite list_lookup_fmap, Hp. simpl. f_equal.
    assert (Hok : pixel_ok (r, g, b, a)).
    { rewrite Forall_forall in Hpix. apply Hpix.
      apply list_elem_of_lookup. eauto. }
    apply (recolor_pixel_valid (cr, cg, cb)); assumption.
  - rewrite (body_runs w tr input_path output_path color_hex img (cr, cg, cb))
      by assumption.
    reflexivity.
Qed.

Lemma recolor_replaces_ink_keeps_alpha_witness :
  exists out : Image,
    size out = (2, 2)
    /\ getpixel out 0 1 = inr (255, 0, 0, 0)%Z
    /\ getpixel out 1 1 = inr (240, 240, 240, 255)%Z.
Proof.
  destruct (proj1 recolor_replaces_ink_keeps_alpha Disk Disk_Pillow example_disk []
              (lit "draw.png") (lit "out.png") (lit "#FF0000") example_image
              255%Z 0%Z 0%Z)
    as (out & Hs & _ & Hpx & _).
  - reflexivity.
  - split; [reflexivity|].
    repeat constructor; simpl; lia.
  - reflexivity.
  - repeat split; lia.
  - exists out. split; [exact Hs|]. split.
    + apply (Hpx 0 1 10%Z 10%Z 10%Z 0%Z). reflexivity.
    + apply (Hpx 1 1 240%Z 240%Z 240%Z 255%Z). reflexivity.
Defined.

(** C8. With a colour whose channels are all at least 230, a second pass
    over the result of a first pass changes nothing: the loops return the
    image they were given, and the script saves that same image. *)
Theorem recolor_twice_light_is_noop :
  forall (W : Type) (PIL : Pillow W) (st : W * list event) (img : Image)
         (cr cg cb : Z),
    length (data img) = fst (size img) * snd (size img) ->
    (230 <= cr)%Z -> (230 <= cg)%Z -> (230 <= cb)%Z ->
    exists once : Image,
      recolor_loops img (cr, cg, cb) (Image_new (size img) (255, 255, 255, 0)%Z) st
      = (inr once, st)
      /\ recolor_loops once (cr, cg, cb) (Image_new (size once) (255, 255, 255, 0)%Z) st
         = (inr once, st)
      /\ forall w tr input_path output_path color_hex,
           Image_open_convert w input_path = inr once ->
           parse_color color_hex = inr (cr, cg, cb) ->
           convert_to_color input_path output_path color_hex (w, tr)
           = saved_or_logged tr output_path once (Image_save w once output_path).
Proof.
  intros W PIL st img cr cg cb Hlen Hr Hg Hb.
  set (once := mkImage (size img) (map (recolor_pixel (cr, cg, cb)) (data img))).
  assert (Hlen1 : length (data once) = fst (size once) * snd (size once)).
  { subst once. simpl. rewrite length_map. exact Hlen. }
  assert (Hfix : mkImage (size once) (map (recolor_pixel (cr, cg, cb)) (data once))
                 = once).
  { subst once. simpl. f_equal. rewrite map_map.
    apply map_ext. intros p. apply recolor_pixel_idem; assumption. }
  exists once. split; [|split].
  - apply recolor_loops_map; [exact Hlen|reflexivity|apply Image_new_length].
  - rewrite (recolor_loops_map once (cr, cg, cb) Hlen1 st)
      by (try reflexivity; apply Image_new_length).
    rewrite Hfix. reflexivity.
  - intros w tr input_path output_path color_hex Hopen Hcol.
    rewrite (body_runs w tr input_path output_path color_hex once (cr, cg, cb))
      by assumption.
    cbv zeta. rewrite Hfix. reflexivity.
Qed.

Lemma recolor_twice_light_is_noop_witness :
  exists once : Image,
    recolor_loops example_image (240, 250, 255)%Z
      (Image_new (2, 2) (255, 255, 255, 0)%Z) (example_disk, []) = (inr once, (example_disk, []))
    /\ recolor_loops once (240, 250, 255)%Z
         (Image_new (size once) (255, 255, 255, 0)%Z) (example_disk, [])
       = (inr once, (example_disk, [])).
Proof.
  destruct (recolor_twice_light_is_noop Disk Disk_Pillow (example_disk, [])
              example_image 240%Z 250%Z 255%Z)
    as (once & H1 & H2 & _).
  - reflexivity.
  - lia.
  - lia.
  - lia.
  - exists once. split; [exact H1 | exact H2].
Defined.

(** C9. Whatever the inputs, the script returns normally: an error raised
    while opening the image, parsing the colour, rewriting the pixels or
    saving the result ends as one printed line, and nothing is raised past
    the top level. *)
Theorem convert_to_color_never_raises :
  forall (W : Type) (PIL : Pillow W) (w : W) (tr : list event)
         (input_path output_path color_hex : str),
    fst (convert_to_color input_path output_path color_hex (w, tr)) = inr tt
    /\ convert_to_color input_path output_path color_hex (w, tr)
       = let logged (e : exn) (w' : W) :=
           (inr tt, (w', tr ++ [Printed (lit "An error occurred: " ++ str_of_exn e)])) in
         match Image_open_convert w input_path with
         | inl e => logged e w
         | inr img =>
             match parse_color color_hex with
             | inl e => logged e w
             | inr c =>
                 match fst (recolor_loops img c
                              (Image_new (size img) (255, 255, 255, 0)%Z) (w, tr)) with
                 | inl e => logged e w
                 | inr out => saved_or_logged tr output_path out
                                (Image_save w out output_path)
                 end
             end
         end.
Proof.
  intros W PIL w tr input_path output_path color_hex.
  assert (Hchar :
    convert_to_color input_path output_path color_hex (w, tr)
    = let logged (e : exn) (w' : W) :=
           (inr tt, (w', tr ++ [Printed (lit "An error occurred: " ++ str_of_exn e)])) in
         match Image_open_convert w input_path with
         | inl e => logged e w
         | inr img =>
             match parse_color color_hex with
             | inl e => logged e w
             | inr c =>
                 match fst (recolor_loops img c
                              (Image_new (size img) (255, 255, 255, 0)%Z) (w, tr)) with
                 | inl e => logged e w
                 | inr out => saved_or_logged tr output_path out
                                (Image_save w out output_path)
                 end
             end
         end).
  { unfold convert_to_color, try_except, open_image.
    unfold bind at 1. unfold bind at 1. unfold ask.
    destruct (Image_open_convert w input_path) as [e|img]; simpl; [reflexivity|].
    unfold bind at 1.
    destruct (parse_color color_hex) as [e|c]; simpl; [reflexivity|].
    unfold bind at 1.
    pose proof (recolor_loops_state img c
                  (Image_new (size img) (255, 255, 255, 0)%Z) (w, tr)) as Hst.
    destruct (recolor_loops img c _ (w, tr)) as [[e|out] st']; simpl in Hst; subst st';
      simpl; [reflexivity|].
    unfold bind, save_image.
    destruct (Image_save w out output_path) as [[e|] w']; simpl; [reflexivity|].
    rewrite <- app_assoc. reflexivity. }
  split; [|exact Hchar].
  rewrite Hchar. cbv zeta.
  destruct (Image_open_convert w input_path) as [e|img]; [reflexivity|].
  destruct (parse_color color_hex) as [e|c]; [reflexivity|].
  destruct (fst (recolor_loops img c _ (w, tr))) as [e|out]; [reflexivity|].
  unfold saved_or_logged.
  destruct (Image_save w out output_path) as [[e|] w']; reflexivity.
Qed.

(** ** The colour parser *)

Lemma hexval_facts c v :
  Py.hexval c = Some v ->
  (0 <= v <= 15)%Z
  /\ Py.isspace c = false
  /\ Py.is_underscore c = false
  /\ Py.chr_eqb c "+"%char = false
  /\ Py.chr_eqb c "-"%char = false
  /\ Py.chr_eqb c "x"%char = false
  /\ Py.chr_eqb c "X"%char = false.
Proof.
  destruct c as [[] [] [] [] [] [] [] []]; vm_compute; intros Hv;
    try discriminate; inversion Hv; subst;
    repeat split; discriminate.
Qed.

Lemma scan_digits_bound s : forall acc digits prev v digits' rest,
  Py.scan_digits s acc digits prev = Some (v, digits', rest) ->
  (0 <= acc)%Z ->
  (acc <= v)%Z /\ (v + 1 <= (acc + 1) * 16 ^ Z.of_nat (length s))%Z.
Proof.
  induction s as [|c s IH]; intros acc digits prev v digits' rest Hs Hacc.
  - simpl in Hs. destruct prev; [discriminate|]. inversion Hs; subst.
    simpl. lia.
  - assert (Hpow : (16 ^ Z.of_nat (length (c :: s)) = 16 * 16 ^ Z.of_nat (length s))%Z).
    { simpl length. rewrite Nat2Z.inj_succ, Z.pow_succ_r by lia. reflexivity. }
    assert (Hpos : (0 < 16 ^ Z.of_nat (length s))%Z) by (apply Z.pow_pos_nonneg; lia).
    rewrite Hpow. simpl in Hs.
    destruct (Py.hexval c) as [d|] eqn:Hd.
    + destruct (hexval_facts c d Hd) as (Hdr & _).
      apply IH in Hs; [|lia]. nia.
    + destruct (Py.is_underscore c).
      * destruct prev; [discriminate|]. apply IH in Hs; [|lia]. nia.
      * destruct prev; [discriminate|]. inversion Hs; subst. nia.
Qed.

Lemma skip_space_length s : length (Py.skip_space s) <= length s.
Proof.
  induction s as [|c s IH]; simpl; [lia|].
  destruct (Py.isspace c); simpl; lia.
Qed.

Lemma take_sign_cases s :
  let '(sign, s2) := Py.take_sign s in
  (sign = 1%Z /\ length s2 <= length s)
  \/ (sign = (-1)%Z /\ S (length s2) <= length s).
Proof.
  destruct s as [|c t]; simpl; [left; split; [reflexivity|lia]|].
  destruct (Py.chr_eqb c "+"%char); [left; split; [reflexivity|simpl; lia]|].
  destruct (Py.chr_eqb c "-"%char); [right|left]; split; simpl; auto.
Qed.

Lemma drop_prefix_length s : length (Py.drop_prefix s) <= length s.
Proof.
  destruct s as [|z [|x t]]; simpl; try lia.
  destruct (Py.chr_eqb z "0"%char && _); simpl; [|lia].
  destruct t as [|u t']; simpl; [lia|].
  destruct (Py.is_underscore u); simpl; lia.
Qed.

Lemma read_digits_bound sign s v :
  Py.read_digits sign s = Some v ->
  exists v0, v = (sign * v0)%Z /\ (0 <= v0 < 16 ^ Z.of_nat (length s))%Z.
Proof.
  unfold Py.read_digits. intros Hm.
  destruct s as [|u s']; [discriminate|].
  destruct (Py.is_underscore u); [discriminate|].
  destruct (Py.scan_digits (u :: s') 0 0 false) as [[[v0 n] rest]|] eqn:Hscan;
    [|discriminate].
  destruct n; [discriminate|].
  destruct (Py.skip_space rest); [|discriminate].
  inversion Hm; subst v.
  apply scan_digits_bound in Hscan; [|lia].
  exists v0. split; [reflexivity|lia].
Qed.

(** A slice of at most two characters that [int] accepts is worth between
    -15 and 255. *)
Lemma int16_bound p v :
  Py.int16 p = Some v -> length p <= 2 -> (-15 <= v <= 255)%Z.
Proof.
  unfold Py.int16. intros Hv Hlen.
  pose proof (skip_space_length p) as Hsk.
  pose proof (take_sign_cases (Py.skip_space p)) as Hsign.
  destruct (Py.take_sign (Py.skip_space p)) as [sign s2].
  pose proof (drop_prefix_length s2) as Hpre.
  apply read_digits_bound in Hv. destruct Hv as (v0 & -> & H0 & Hup).
  destruct Hsign as [[-> H2]|[-> H2]].
  - assert ((16 ^ Z.of_nat (length (Py.drop_prefix s2)) <= 16 ^ 2)%Z)
      by (apply Z.pow_le_mono_r; lia).
    lia.
  - assert ((16 ^ Z.of_nat (length (Py.drop_prefix s2)) <= 16 ^ 1)%Z)
      by (apply Z.pow_le_mono_r; lia).
    lia.
Qed.

(** Two hexadecimal digits are read as the number they spell. *)
Lemma int16_two_digits a b va vb :
  Py.hexval a = Some va -> Py.hexval b = Some vb ->
  Py.int16 [a; b] = Some (16 * va + vb)%Z.
Proof.
  intros Ha Hb.
  destruct (hexval_facts a va Ha) as (_ & Hsa & Hua & Hpa & Hma & _).
  destruct (hexval_facts b vb Hb) as (_ & Hsb & Hub & _ & _ & Hxb & HXb).
  unfold Py.int16, Py.skip_space. rewrite Hsa.
  unfold Py.take_sign. rewrite Hpa, Hma.
  unfold Py.drop_prefix. rewrite Hxb, HXb, andb_false_r.
  unfold Py.read_digits. rewrite Hua. simpl. rewrite Ha, Hb. simpl.
  f_equal. lia.
Qed.

Lemma ishex_hexval c : Py.ishex c = true -> exists v, Py.hexval c = Some v.
Proof. unfold Py.ishex. destruct (Py.hexval c); [eauto|discriminate]. Qed.

Lemma six_hex_inv s :
  is_six_hex s = true ->
  exists a b c d e f va vb vc vd ve vf,
    s = [a; b; c; d; e; f]
    /\ Py.hexval a = Some va /\ Py.hexval b = Some vb
    /\ Py.hexval c = Some vc /\ Py.hexval d = Some vd
    /\ Py.hexval e = Some ve /\ Py.hexval f = Some vf.
Proof.
  unfold is_six_hex. intros Hs. apply andb_prop in Hs. destruct Hs as [Hl Hh].
  apply Nat.eqb_eq in Hl.
  destruct s as [|a [|b [|c [|d [|e [|f [|g s]]]]]]]; try discriminate.
  simpl in Hh.
  repeat match type of Hh with
         | (_ && _)%bool = true =>
             let H1 := fresh "Hx" in
             apply andb_prop in Hh; destruct Hh as [H1 Hh];
             apply ishex_hexval in H1; destruct H1 as [? H1]
         end.
  repeat eexists; eauto.
Qed.

Lemma lstrip_app c s t : Py.lstrip c s <> [] -> Py.lstrip c (s ++ t) = Py.lstrip c s ++ t.
Proof.
  induction s as [|x s IH]; simpl; [congruence|].
  destruct (Py.chr_eqb x c); auto.
Qed.

Lemma int_slice_ok s i v : int_slice s i = inr v -> Py.int16 (Py.slice s i (i + 2)) = Some v.
Proof.
  unfold int_slice. destruct (Py.int16 _); intros Hs; inversion Hs; reflexivity.
Qed.

Lemma slice_length s i : length (Py.slice s i (i + 2)) <= 2.
Proof.
  unfold Py.slice. rewrite length_firstn. lia.
Qed.

(** C6, as the code has it.  A string of six hexadecimal digits after its
    leading [#] characters is accepted and gives three channels between 0
    and 255; characters after the sixth do not change the result; and a
    string that is accepted has at least five characters after its leading
    [#] characters and gives three channels between -15 and 255. *)
Theorem parse_color_accepts :
  (forall s : str,
      is_six_hex (Py.lstrip "#"%char s) = true ->
      exists rgb, parse_color s = inr rgb /\ ColorSpec rgb
                  /\ forall t : str, parse_color (s ++ t) = inr rgb)
  /\ (forall (s : str) (r g b : Z),
        parse_color s = inr (r, g, b) ->
        5 <= length (Py.lstrip "#"%char s)
        /\ (-15 <= r <= 255)%Z /\ (-15 <= g <= 255)%Z /\ (-15 <= b <= 255)%Z).
Proof.
  split.
  - intros s Hs.
    destruct (six_hex_inv _ Hs)
      as (a & b & c & d & e & f & va & vb & vc & vd & ve & vf
          & Hl & Ha & Hb & Hc & Hd & He & Hf).
    assert (Hparse : forall t : str,
               Py.lstrip "#"%char t = a :: b :: c :: d :: e :: f :: skipn 6 (Py.lstrip "#"%char t) ->
               parse_color t
               = inr (16 * va + vb, 16 * vc + vd, 16 * ve + vf)%Z).
    { intros t Ht. unfold parse_color, int_slice. rewrite Ht.
      unfold Py.slice. simpl. rewrite !firstn_O.
      rewrite (int16_two_digits a b va vb Ha Hb). cbv iota beta.
      rewrite (int16_two_digits c d vc vd Hc Hd). cbv iota beta.
      rewrite (int16_two_digits e f ve vf He Hf). reflexivity. }
    exists (16 * va + vb, 16 * vc + vd, 16 * ve + vf)%Z.
    destruct (hexval_facts a va Ha) as (? & _).
    destruct (hexval_facts b vb Hb) as (? & _).
    destruct (hexval_facts c vc Hc) as (? & _).
    destruct (hexval_facts d vd Hd) as (? & _).
    destruct (hexval_facts e ve He) as (? & _).
    destruct (hexval_facts f vf Hf) as (? & _).
    split; [|split].
    + apply Hparse. rewrite Hl. reflexivity.
    + unfold ColorSpec, channel. lia.
    + intros t. apply Hparse.
      rewrite lstrip_app by (rewrite Hl; discriminate).
      rewrite Hl. reflexivity.
  - intros s r g b Hp. unfold parse_color in Hp.
    destruct (int_slice _ 0) as [e|r'] eqn:Hr; [discriminate|].
    destruct (int_slice _ 2) as [e|g'] eqn:Hg; [discriminate|].
    destruct (int_slice _ 4) as [e|b'] eqn:Hb; [discriminate|].
    inversion Hp; subst r' g' b'.
    apply int_slice_ok in Hr, Hg, Hb.
    split.
    + destruct (Nat.lt_ge_cases (length (Py.lstrip "#"%char s)) 5) as [Hlt|]; [|assumption].
      exfalso. unfold Py.slice in Hb.
      rewrite skipn_all2 in Hb by lia. discriminate.
    + split; [|split]; eapply int16_bound; eauto using slice_length.
Qed.

Lemma parse_color_accepts_witness :
  exists rgb, parse_color (lit "#FF5733") = inr rgb /\ ColorSpec rgb.
Proof.
  destruct (proj1 parse_color_accepts (lit "#FF5733")) as (rgb & Hp & Hc & _).
  - reflexivity.
  - exists rgb. split; assumption.
Defined.

(** C6 as stated fails: eight digits are accepted, the last two ignored,
    and a signed slice gives a channel below 0. *)
Lemma parse_color_accepts_other_shapes :
  parse_color (lit "#FF0000AA") = inr (255, 0, 0)%Z
  /\ is_six_hex (Py.lstrip "#"%char (lit "#FF0000AA")) = false
  /\ parse_color (lit "#-1-1-1") = inr (-1, -1, -1)%Z
  /\ forallb Py.ishex (Py.lstrip "#"%char (lit "#-1-1-1")) = false.
Proof. repeat split; vm_compute; reflexivity. Qed.

End ConvertToHexProofs.

(* ===================================================================== *)
(** * Properties of the transcoding script *)
(* ===================================================================== *)

Module M4aToWavProofs.
Import M4aToWav.

Lemma spawned_app a b : spawned (a ++ b) = spawned a ++ spawned b.
Proof. unfold spawned. apply flat_map_app. Qed.

Lemma spawned_failure_report src e : spawned (failure_report src e) = [].
Proof. destruct e; reflexivity. Qed.

Lemma for_each_cons {W X A} (x : X) l (body : X -> A -> M (W := W) A) a st :
  for_each (x :: l) body a st
  = match body x a st with
    | (inr a', st') => for_each l body a' st'
    | (inl e, st') => (inl e, st')
    end.
Proof. reflexivity. Qed.

Lemma for_each_app {W X A} (l1 l2 : list X) (body : X -> A -> M (W := W) A) :
  forall a st,
    for_each (l1 ++ l2) body a st
    = match for_each l1 body a st with
      | (inr a', st') => for_each l2 body a' st'
      | (inl e, st') => (inl e, st')
      end.
Proof.
  induction l1 as [|x l1 IH]; intros a st; [reflexivity|].
  simpl app. rewrite !for_each_cons.
  destruct (body x a st) as [[e|a'] st']; [reflexivity|apply IH].
Qed.

Lemma for_each_map {W X Y A} (g : X -> Y) l (body : Y -> A -> M (W := W) A) :
  forall a st,
    for_each (map g l) body a st = for_each l (fun x => body (g x)) a st.
Proof.
  induction l as [|x l IH]; intros a st; [reflexivity|].
  simpl map. rewrite !for_each_cons.
  destruct (body (g x) a st) as [[e|a'] st']; [reflexivity|apply IH].
Qed.

Section Loop.
Context {W : Type} `{OS W}.
Variables input_dir output_dir ffmpeg_path : str.

(** One file that passes the filter, step by step. *)
Lemma process_file_eq root filename c fl (w : W) tr :
  is_m4a filename = true ->
  process_file input_dir output_dir ffmpeg_path root filename (c, fl) (w, tr)
  = match PosixPath.relpath (os_getcwd w) root input_dir with
    | inl e => (inl e, (w, tr))
    | inr rel =>
        let cur := PosixPath.join output_dir rel in
        let src := PosixPath.join root filename in
        let cmd := command ffmpeg_path src (destination output_dir rel filename) in
        let line := Printed (lit "Converting: " ++ src ++ lit "  ==>  "
                               ++ destination output_dir rel filename) in
        match (if os_path_exists w cur then (None, w) else os_makedirs w cur) with
        | (Some e, w1) => (inl e, (w1, tr))
        | (None, w1) =>
            let made := if os_path_exists w cur then [] else [MadeDirs cur] in
            match spawn w1 cmd with
            | (inl e, w2) =>
                (inr (c, S fl),
                 (w2, tr ++ made ++ line :: Spawned cmd (inl e) :: failure_report src e))
            | (inr cp, w2) =>
                if (returncode cp =? 0)%Z
                then (inr (S c, fl),
                      (w2, tr ++ made ++ [line; Spawned cmd (inr (returncode cp))]))
                else (inr (c, S fl),
                      (w2, tr ++ made ++ line :: Spawned cmd (inr (returncode cp))
                             :: failure_report src
                                  (CalledProcessError (returncode cp) cmd
                                     (stdout cp) (stderr cp))))
            end
        end
    end.
Proof.
  intros Hm. unfold process_file, destination. rewrite Hm. cbv zeta.
  unfold bind, ask, lift, ret, raise, print, emit, try_except, makedirs,
    subprocess_run.
  cbv beta iota.
  destruct (PosixPath.relpath (os_getcwd w) root input_dir) as [e|rel];
    [reflexivity|].
  cbv beta iota.
  destruct (os_path_exists w (PosixPath.join output_dir rel)); unfold negb;
    cbv beta iota.
  - destruct (spawn w _) as [[e|cp] w2]; cbv beta iota.
    + destruct e; cbv beta iota; rewrite <- ?app_assoc; reflexivity.
    + destruct (returncode cp =? 0)%Z; cbv beta iota;
        rewrite <- ?app_assoc; reflexivity.
  - destruct (os_makedirs w (PosixPath.join output_dir rel)) as [[e|] w1];
      [reflexivity|].
    cbv beta iota.
    destruct (spawn w1 _) as [[e|cp] w2]; cbv beta iota.
    + destruct e; cbv beta iota; rewrite <- ?app_assoc; reflexivity.
    + destruct (returncode cp =? 0)%Z; cbv beta iota;
        rewrite <- ?app_assoc; reflexivity.
Qed.

Lemma process_file_skip root filename counts (st : W * list event) :
  is_m4a filename = false ->
  process_file input_dir output_dir ffmpeg_path root filename counts st
  = (inr counts, st).
Proof.
  intros Hm. unfold process_file. destruct counts as [c fl]. rewrite Hm.
  reflexivity.
Qed.

Lemma spawned_one made line cmd o rest :
  (made = [] \/ exists p, made = [MadeDirs p]) ->
  spawned rest = [] ->
  spawned (made ++ Printed line :: Spawned cmd o :: rest) = [(cmd, o)].
Proof.
  intros [->|[p ->]] Hr; simpl; rewrite Hr; reflexivity.
Qed.

(** One file that passes the filter: one invocation and one counter
    moved, unless [relpath] or [makedirs] raises before the process is
    started. *)
Lemma process_file_summary rf c fl (w : W) tr :
  is_m4a (snd rf) = true ->
  exists r w' evs,
    process_file input_dir output_dir ffmpeg_path (fst rf) (snd rf) (c, fl) (w, tr)
    = (r, (w', tr ++ evs))
    /\ match r with
       | inr (c', fl') =>
           exists co,
             spawned evs = [co]
             /\ item_cmd input_dir output_dir ffmpeg_path rf co
             /\ c' = c + (if succeeded (snd co) then 1 else 0)
             /\ fl' = fl + (if succeeded (snd co) then 0 else 1)
       | inl e => evs = [] /\ loop_fatal input_dir [fst rf] e
       end.
Proof.
  intros Hm. rewrite process_file_eq by exact Hm.
  destruct (PosixPath.relpath (os_getcwd w) (fst rf) input_dir) as [e|rel] eqn:Hrel.
  { exists (inl e), w, []. rewrite app_nil_r. split; [reflexivity|].
    split; [reflexivity|]. right. exists w, (fst rf). simpl. auto. }
  cbv zeta.
  set (cur := PosixPath.join output_dir rel).
  set (cmd := command _ _ _).
  assert (Hitem : forall o, item_cmd input_dir output_dir ffmpeg_path rf (cmd, o)).
  { intros o. exists w, rel. split; [exact Hrel|reflexivity]. }
  assert (Hmade : (if os_path_exists w cur then [] else [MadeDirs cur]) = []
                  \/ exists p, (if os_path_exists w cur then [] else [MadeDirs cur])
                               = [MadeDirs p]).
  { destruct (os_path_exists w cur); [left|right; exists cur]; reflexivity. }
  destruct (if os_path_exists w cur then (None, w) else os_makedirs w cur)
    as [[e|] w1] eqn:Hmk.
  { exists (inl e), w1, []. rewrite app_nil_r. split; [reflexivity|].
    split; [reflexivity|]. left.
    destruct (os_path_exists w cur) eqn:Hex; [discriminate|].
    exists w, cur. rewrite Hmk. auto. }
  destruct (spawn w1 cmd) as [[e|cp] w2].
  - eexists _, _, _. split; [reflexivity|].
    exists (cmd, inl e). split; [|split; [apply Hitem|simpl; split; lia]].
    apply spawned_one; [exact Hmade|apply spawned_failure_report].
  - destruct (Z.eqb_spec (returncode cp) 0) as [Hz|Hz].
    + eexists _, _, _. split; [reflexivity|].
      exists (cmd, inr (returncode cp)).
      split; [|split; [apply Hitem|simpl; rewrite Hz; simpl; split; lia]].
      apply spawned_one; [exact Hmade|reflexivity].
    + eexists _, _, _. split; [reflexivity|].
      exists (cmd, inr (returncode cp)).
      assert (Hs : succeeded (inr (returncode cp)) = false).
      { unfold succeeded. destruct (returncode cp); congruence. }
      split; [|split; [apply Hitem|simpl snd; rewrite Hs; split; lia]].
      apply spawned_one; [exact Hmade|apply spawned_failure_report].
Qed.

(** The loop over all (root, filename) pairs. *)
Lemma loop_summary l : forall c fl (w : W) tr,
  exists r w' evs,
    for_each l
      (fun rf => process_file input_dir output_dir ffmpeg_path (fst rf) (snd rf))
      (c, fl) (w, tr)
    = (r, (w', tr ++ evs))
    /\ Forall (fun co => exists rf, In rf l /\ matching rf = true
                                  /\ item_cmd input_dir output_dir ffmpeg_path rf co)
              (spawned evs)
    /\ match r with
       | inr (c', fl') =>
           Forall2 (item_cmd input_dir output_dir ffmpeg_path)
                   (List.filter matching l) (spawned evs)
           /\ c' = c + count_ok (spawned evs)
           /\ fl' = fl + count_failed (spawned evs)
       | inl e => loop_fatal input_dir (map fst l) e
       end.
Proof.
  induction l as [|rf l IH]; intros c fl w tr.
  - exists (inr (c, fl)), w, []. rewrite app_nil_r. simpl.
    repeat split; auto; unfold count_ok, count_failed; simpl; lia.
  - rewrite for_each_cons. cbv beta.
    destruct (is_m4a (snd rf)) eqn:Hm.
    + destruct (process_file_summary rf c fl w tr Hm) as (r1 & w1 & evs1 & Hrun & Hpost).
      rewrite Hrun. destruct r1 as [e|[c1 fl1]].
      * destruct Hpost as [-> Hf].
        exists (inl e), w1, []. split; [reflexivity|]. split; [constructor|].
        destruct Hf as [Hf|(wq & root & [<-|[]] & Hr)]; [left; exact Hf|].
        right. exists wq, (fst rf). simpl. auto.
      * destruct Hpost as (co & Hsp & Hitem & Hc & Hfl).
        destruct (IH c1 fl1 w1 (tr ++ evs1)) as (r & w' & evs & Hrest & Hall & Hpost).
        exists r, w', (evs1 ++ evs).
        split; [rewrite Hrest, app_assoc; reflexivity|].
        rewrite spawned_app, Hsp. split.
        { constructor.
          - exists rf. simpl. auto.
          - eapply Forall_impl; [exact Hall|].
            intros co' (rf' & Hin & Hm' & Hi). exists rf'. simpl. auto. }
        destruct r as [e|[c' fl']].
        { destruct Hpost as [Hf|(wq & root & Hin & Hr)]; [left; exact Hf|].
          right. exists wq, root. simpl. auto. }
        destruct Hpost as (H2 & Hc' & Hfl').
        simpl List.filter. unfold matching at 1. rewrite Hm.
        split; [constructor; assumption|].
        unfold count_ok, count_failed in *. simpl.
        destruct (succeeded (snd co)); simpl; lia.
    + rewrite process_file_skip by exact Hm.
      destruct (IH c fl w tr) as (r & w' & evs & Hrest & Hall & Hpost).
      exists r, w', evs. split; [exact Hrest|]. split.
      { eapply Forall_impl; [exact Hall|].
        intros co' (rf' & Hin & Hm' & Hi). exists rf'. simpl. auto. }
      destruct r as [e|[c' fl']].
      { destruct Hpost as [Hf|(wq & root & Hin & Hr)]; [left; exact Hf|].
        right. exists wq, root. simpl. auto. }
      simpl List.filter. unfold matching at 1. rewrite Hm. exact Hpost.
Qed.

(** The two nested loops visit the pairs of [walk_pairs] in order. *)
Lemma loops_flatten (triples : list (str * list str * list str)) :
  forall counts (st : W * list event),
    for_each triples
      (fun '(root, dirs, files) counts =>
         for_each files (process_file input_dir output_dir ffmpeg_path root) counts)
      counts st
    = for_each
        (flat_map (fun '(root, _, files) => map (pair root) files) triples)
        (fun rf => process_file input_dir output_dir ffmpeg_path (fst rf) (snd rf))
        counts st.
Proof.
  induction triples as [|[[root dirs] files] triples IH]; intros counts st;
    [reflexivity|].
  rewrite for_each_cons. simpl flat_map. rewrite for_each_app, for_each_map.
  simpl fst. simpl snd.
  destruct (for_each files _ counts st) as [[e|counts'] st'];
    [reflexivity|apply IH].
Qed.

End Loop.

Lemma bind_ask {W A B} (f : W -> A) (k : A -> M (W := W) B) w tr :
  bind (ask f) k (w, tr) = k (f w) (w, tr).
Proof. reflexivity. Qed.

Lemma bind_ret {W A B} (a : A) (k : A -> M (W := W) B) st :
  bind (ret a) k st = k a st.
Proof. reflexivity. Qed.

Lemma bind_print {W B} (line : str) (k : unit -> M (W := W) B) w tr :
  bind (print line) k (w, tr) = k tt (w, tr ++ [Printed line]).
Proof. reflexivity. Qed.

Lemma bind_assoc {W A B C} (c : M (W := W) A) (k : A -> M B) (k' : B -> M C) st :
  bind (bind c k) k' st = bind c (fun a => bind (k a) k') st.
Proof.
  unfold bind. destruct (c st) as [[e|a] st']; reflexivity.
Qed.

Section WholeRun.
Context {W : Type} `{OS W}.
Variables (input_dir : str) (output_dir : option str) (ffmpeg_path : str).

Abbreviation out := (output_root input_dir output_dir).

(** Lines 36-44 either pass and leave everything as it was, or raise
    [FileNotFoundError] and leave everything as it was. *)
Lemma validate_inputs_eq (st : W * list event) :
  validate_inputs input_dir ffmpeg_path st
  = if preconditions_hold (fst st) input_dir ffmpeg_path
    then (inr tt, st)
    else if os_path_isdir (fst st) input_dir
         then (inl (FileNotFoundError
                      (lit "FFmpeg executable not found at '" ++ ffmpeg_path
                         ++ lit "'. Ensure FFmpeg is installed and in your PATH, or provide the full path.")),
               st)
         else (inl (FileNotFoundError (lit "Input directory not found: " ++ input_dir)),
               st).
Proof.
  destruct st as [w tr]. unfold validate_inputs, preconditions_hold. simpl fst.
  rewrite bind_ask.
  destruct (os_path_isdir w input_dir); [|reflexivity].
  simpl negb. cbv iota. rewrite bind_ret, bind_ask.
  destruct (shutil_which w ffmpeg_path); [reflexivity|].
  rewrite bind_ask, bind_ask.
  destruct (os_path_exists w ffmpeg_path), (os_path_isfile w ffmpeg_path);
    reflexivity.
Qed.

(** Lines 46-53 start no process and end in the world the walk starts
    in, or fail in [os.makedirs]. *)
Lemma choose_output_dir_eq (w : W) tr :
  exists r pre,
    choose_output_dir input_dir output_dir (w, tr)
    = (r, (world_at_walk w output_dir, tr ++ pre))
    /\ spawned pre = []
    /\ match r with
       | inr o => o = out
       | inl e => exists (wq : W) p,
                    os_path_exists wq p = false /\ fst (os_makedirs wq p) = Some e
       end.
Proof.
  unfold choose_output_dir, world_at_walk, output_root.
  destruct output_dir as [o|].
  - rewrite bind_ask. destruct (os_path_exists w o) eqn:Hex; simpl negb; cbv iota.
    + exists (inr o), []. rewrite app_nil_r. auto.
    + rewrite bind_assoc, bind_print. unfold bind, makedirs, ret.
      destruct (os_makedirs w o) as [[e|] w1] eqn:Hmk; simpl.
      * exists (inl e), [Printed (lit "Output directory '" ++ o
                                  ++ lit "' does not exist. Creating it.")].
        repeat split; auto. exists w, o. rewrite Hmk. auto.
      * eexists (inr o), [_; _]. rewrite <- app_assoc. repeat split; auto.
  - rewrite bind_print. eexists (inr input_dir), [_]. repeat split; auto.
Qed.

(** What a run leaves behind, whatever the world does. *)
Lemma run_summary (w : W) tr :
  let pairs := walk_pairs input_dir
                 (os_listing (world_at_walk w output_dir) input_dir) in
  exists r w' evs,
    convert_m4a_directory_to_wav input_dir output_dir ffmpeg_path (w, tr)
    = (r, (w', tr ++ evs))
    /\ Forall (fun co => exists rf, In rf pairs /\ matching rf = true
                                  /\ item_cmd input_dir out ffmpeg_path rf co)
              (spawned evs)
    /\ match r with
       | inr _ =>
           preconditions_hold w input_dir ffmpeg_path = true
           /\ exists body,
               evs = body ++ summary (count_ok (spawned body))
                               (count_failed (spawned body))
                               (PosixPath.abspath (os_getcwd w') out)
               /\ Forall2 (item_cmd input_dir out ffmpeg_path)
                          (List.filter matching pairs) (spawned body)
       | inl e =>
           (preconditions_hold w input_dir ffmpeg_path = false
            /\ evs = [] /\ w' = w /\ exists msg, e = FileNotFoundError msg)
           \/ (preconditions_hold w input_dir ffmpeg_path = true
               /\ loop_fatal input_dir (map fst pairs) e)
       end.
Proof.
  intros pairs. unfold convert_m4a_directory_to_wav.
  unfold bind at 1. rewrite validate_inputs_eq. simpl fst.
  destruct (preconditions_hold w input_dir ffmpeg_path) eqn:Hpre.
  2: { destruct (os_path_isdir w input_dir);
       eexists (inl _), w, []; rewrite app_nil_r;
       (split; [reflexivity|]); (split; [constructor|]);
       left; repeat split; eauto. }
  unfold bind at 1.
  destruct (choose_output_dir_eq w tr) as (r0 & pre & Hch & Hsp0 & Hr0).
  rewrite Hch. destruct r0 as [e|o].
  { exists (inl e), (world_at_walk w output_dir), pre.
    split; [reflexivity|]. rewrite Hsp0. split; [constructor|].
    right. split; [reflexivity|]. left. exact Hr0. }
  subst o. unfold bind at 1. unfold convert_tree. rewrite bind_ask.
  unfold walk_pairs in pairs. rewrite loops_flatten. fold pairs.
  destruct (loop_summary input_dir out ffmpeg_path pairs 0 0
              (world_at_walk w output_dir) (tr ++ pre))
    as (r & w' & evs & Hloop & Hall & Hpost).
  rewrite Hloop. destruct r as [e|[c fl]].
  { exists (inl e), w', (pre ++ evs). rewrite app_assoc.
    split; [reflexivity|]. rewrite spawned_app, Hsp0. simpl.
    split; [exact Hall|]. right. split; [reflexivity|exact Hpost]. }
  destruct Hpost as (H2 & Hc & Hfl). simpl in Hc, Hfl. subst c fl.
  unfold print_summary.
  rewrite !bind_print, bind_ask. unfold print, emit.
  eexists (inr tt), w', _. split.
  { rewrite <- !app_assoc. reflexivity. }
  simpl app.
  assert (Hsum : forall c f p, spawned (summary c f p) = []) by reflexivity.
  split.
  { rewrite !spawned_app, Hsp0. simpl. rewrite app_nil_r. exact Hall. }
  split; [reflexivity|].
  exists (pre ++ evs). rewrite !spawned_app, Hsp0. simpl.
  split; [rewrite <- app_assoc; reflexivity|exact H2].
Qed.

End WholeRun.

(** ** Roots of the walk *)

Lemma tree_induction (P : tree -> Prop) :
  (forall files subdirs, Forall (fun dt => P (snd dt)) subdirs -> P (Dir files subdirs)) ->
  forall t, P t.
Proof.
  intros Hstep. fix IH 1. intros [files subdirs]. apply Hstep.
  induction subdirs as [|[d t] subdirs IHs]; constructor; [apply IH|exact IHs].
Qed.

Lemma join_nonempty a b : a <> [] -> PosixPath.join a b <> [].
Proof.
  intros Ha. unfold PosixPath.join.
  destruct (Py.startswith b [PosixPath.sep]) eqn:Hb.
  - destruct b; [discriminate|discriminate].
  - destruct (PosixPath.is_nil a || Py.endswith a [PosixPath.sep]);
      destruct a; try congruence; discriminate.
Qed.

Lemma walk_roots_nonempty t : forall top,
  top <> [] -> Forall (fun x => fst (fst x) <> []) (walk top t).
Proof.
  induction t as [files subdirs IH] using tree_induction. intros top Htop.
  simpl. constructor; [exact Htop|].
  induction subdirs as [|[d t'] subdirs IHs]; simpl; [constructor|].
  inversion IH as [|? ? Hd Hrest]; subst.
  apply Forall_app. split.
  - apply Hd. apply join_nonempty. exact Htop.
  - apply IHs. exact Hrest.
Qed.

Lemma walk_pairs_roots top t root :
  top <> [] -> In root (map fst (walk_pairs top t)) -> root <> [].
Proof.
  intros Htop Hin. unfold walk_pairs in Hin.
  apply in_map_iff in Hin. destruct Hin as ([r f] & <- & Hin).
  apply in_flat_map in Hin. destruct Hin as ([[r' dirs] files] & Hw & Hin).
  apply in_map_iff in Hin. destruct Hin as (f' & Heq & _).
  inversion Heq; subst. simpl.
  pose proof (walk_roots_nonempty t top Htop) as Hall.
  rewrite Forall_forall in Hall.
  apply (Hall (r, dirs, files)). apply list_elem_of_In. exact Hw.
Qed.

Lemma relpath_raises cwd root start e :
  PosixPath.relpath cwd root start = inl e -> root = [].
Proof.
  unfold PosixPath.relpath. destruct root; simpl; [reflexivity|].
  destruct (PosixPath.is_nil _); discriminate.
Qed.

Lemma counts_partition l : count_ok l + count_failed l = length l.
Proof.
  unfold count_ok, count_failed.
  induction l as [|co l IH]; simpl; [reflexivity|].
  destruct (succeeded (snd co)); simpl; lia.
Qed.

Lemma count_failed_nonzero l :
  forallb (fun co => started (snd co)) l = true -> count_failed l = count_nonzero l.
Proof.
  unfold count_failed, count_nonzero.
  induction l as [|[cmd o] l IH]; simpl; [reflexivity|].
  intros Hs. apply andb_prop in Hs. destruct Hs as [Ho Hl].
  destruct o as [e|rc]; [discriminate|]. simpl.
  destruct rc; simpl; rewrite IH by exact Hl; reflexivity.
Qed.

Section Completion.
Context {W : Type} `{OS W}.
Variables (input_dir : str) (output_dir : option str) (ffmpeg_path : str).

(** When the checks pass, no directory creation fails and the input
    root is a non-empty string, the run reaches its summary. *)
Lemma run_completes (w : W) tr :
  preconditions_hold w input_dir ffmpeg_path = true ->
  (forall (wq : W) p, os_path_exists wq p = false -> fst (os_makedirs wq p) = None) ->
  input_dir <> [] ->
  let pairs := walk_pairs input_dir
                 (os_listing (world_at_walk w output_dir) input_dir) in
  exists w' body,
    convert_m4a_directory_to_wav input_dir output_dir ffmpeg_path (w, tr)
    = (inr tt,
       (w', tr ++ body
               ++ summary (count_ok (spawned body)) (count_failed (spawned body))
                    (PosixPath.abspath (os_getcwd w')
                       (output_root input_dir output_dir))))
    /\ Forall2 (item_cmd input_dir (output_root input_dir output_dir) ffmpeg_path)
               (List.filter matching pairs) (spawned body).
Proof.
  intros Hpre Hmk Hin pairs.
  destruct (run_summary input_dir output_dir ffmpeg_path w tr)
    as (r & w' & evs & Hrun & _ & Hpost).
  fold pairs in Hpost. destruct r as [e|[]].
  - exfalso.
    destruct Hpost as [(Hf & _)|(_ & [(wq & p & Hex & Hm)|(wq & root & Hr & Hrel)])].
    + congruence.
    + rewrite Hmk in Hm by exact Hex. discriminate.
    + apply relpath_raises in Hrel.
      apply (walk_pairs_roots input_dir _ root Hin Hr). exact Hrel.
  - destruct Hpost as (_ & body & -> & H2).
    exists w', body. split; [exact Hrun|exact H2].
Qed.

End Completion.

(** ** The parts of a run, and how far the loop gets *)

(** The four parts of a run, one after the other. *)
Lemma run_unfold {W} `{OS W} input_dir output_dir ffmpeg_path (st : W * list event) :
  convert_m4a_directory_to_wav input_dir output_dir ffmpeg_path st
  = match validate_inputs input_dir ffmpeg_path st with
    | (inl e, st1) => (inl e, st1)
    | (inr _, st1) =>
        match choose_output_dir input_dir output_dir st1 with
        | (inl e, st2) => (inl e, st2)
        | (inr o, st2) =>
            match convert_tree input_dir o ffmpeg_path st2 with
            | (inl e, st3) => (inl e, st3)
            | (inr counts, st3) => print_summary counts o st3
            end
        end
    end.
Proof.
  unfold convert_m4a_directory_to_wav, bind.
  destruct (validate_inputs input_dir ffmpeg_path st) as [[e|u] st1]; reflexivity.
Qed.

Lemma convert_tree_eq {W} `{OS W} input_dir output_dir ffmpeg_path (w : W) tr :
  convert_tree input_dir output_dir ffmpeg_path (w, tr)
  = for_each (walk_pairs input_dir (os_listing w input_dir))
      (fun rf => process_file input_dir output_dir ffmpeg_path (fst rf) (snd rf))
      (0, 0) (w, tr).
Proof.
  unfold convert_tree. rewrite bind_ask. unfold walk_pairs. apply loops_flatten.
Qed.

Lemma print_summary_eq {W} `{OS W} c fl output_dir (w : W) tr :
  print_summary (c, fl) output_dir (w, tr)
  = (inr tt, (w, tr ++ summary c fl (PosixPath.abspath (os_getcwd w) output_dir))).
Proof.
  unfold print_summary. rewrite !bind_print, bind_ask. unfold print, emit, summary.
  rewrite <- !app_assoc. reflexivity.
Qed.

Section Prefix.
Context {W : Type} `{OS W}.
Variables (input_dir : str) (output_dir : option str) (ffmpeg_path : str).

(** The invocations of the loop are those of the first files that pass the
    filter, in order: of all of them when the loop ends, and not of all of
    them when it raises. *)
Lemma loop_prefix out l : forall c fl (w : W) tr,
  exists r w' evs done rest,
    for_each l
      (fun rf => process_file input_dir out ffmpeg_path (fst rf) (snd rf))
      (c, fl) (w, tr)
    = (r, (w', tr ++ evs))
    /\ List.filter matching l = done ++ rest
    /\ Forall2 (item_cmd input_dir out ffmpeg_path) done (spawned evs)
    /\ match r with inr _ => rest = [] | inl _ => rest <> [] end.
Proof.
  induction l as [|rf l IH]; intros c fl w tr.
  - exists (inr (c, fl)), w, [], [], []. rewrite app_nil_r.
    repeat split; constructor.
  - rewrite for_each_cons. cbv beta. simpl List.filter. unfold matching at 1.
    destruct (is_m4a (snd rf)) eqn:Hm.
    + destruct (process_file_summary input_dir out ffmpeg_path rf c fl w tr Hm)
        as (r1 & w1 & evs1 & Hrun & Hpost).
      rewrite Hrun. destruct r1 as [e|[c1 fl1]].
      * destruct Hpost as [-> _].
        exists (inl e), w1, [], [], (rf :: List.filter matching l).
        split; [reflexivity|]. split; [reflexivity|].
        split; [constructor|discriminate].
      * destruct Hpost as (co & Hsp & Hitem & _).
        destruct (IH c1 fl1 w1 (tr ++ evs1))
          as (r & w' & evs & done & rest & Hrest & Hsplit & H2 & Hend).
        exists r, w', (evs1 ++ evs), (rf :: done), rest.
        rewrite Hrest, app_assoc, Hsplit, spawned_app, Hsp.
        split; [reflexivity|]. split; [reflexivity|].
        split; [constructor; assumption|exact Hend].
    + rewrite process_file_skip by exact Hm. apply IH.
Qed.

(** The same for a whole run, which gets to all of them when it returns. *)
Lemma run_prefix (w : W) :
  let run := convert_m4a_directory_to_wav input_dir output_dir ffmpeg_path (w, []) in
  exists done rest,
    List.filter matching
      (walk_pairs input_dir (os_listing (world_at_walk w output_dir) input_dir))
    = done ++ rest
    /\ Forall2 (item_cmd input_dir (output_root input_dir output_dir) ffmpeg_path)
               done (spawned (snd (snd run)))
    /\ (fst run = inr tt -> rest = []).
Proof.
  cbv zeta. rewrite run_unfold, validate_inputs_eq. cbn [fst].
  set (pairs := walk_pairs input_dir (os_listing (world_at_walk w output_dir) input_dir)).
  destruct (preconditions_hold w input_dir ffmpeg_path).
  2: { exists [], (List.filter matching pairs).
       destruct (os_path_isdir w input_dir); simpl;
         (split; [reflexivity|]); (split; [constructor|discriminate]). }
  destruct (choose_output_dir_eq input_dir output_dir w [])
    as (r0 & pre & Hch & Hsp0 & Hr0).
  rewrite Hch. simpl app. destruct r0 as [e|o].
  { exists [], (List.filter matching pairs). simpl. rewrite Hsp0.
    split; [reflexivity|]. split; [constructor|discriminate]. }
  subst o. rewrite convert_tree_eq. fold pairs.
  destruct (loop_prefix (output_root input_dir output_dir) pairs 0 0
              (world_at_walk w output_dir) pre)
    as (r & w' & evs & done & rest & Hloop & Hsplit & H2 & Hend).
  rewrite Hloop. exists done, rest. split; [exact Hsplit|].
  destruct r as [e|[c fl]].
  - simpl. rewrite spawned_app, Hsp0. simpl.
    split; [exact H2|discriminate].
  - rewrite print_summary_eq. simpl. rewrite !spawned_app, Hsp0. simpl.
    rewrite app_nil_r. split; [exact H2|]. intros _. exact Hend.
Qed.

End Prefix.

(** ** The claims about preconditions, invocations and the summary *)

(** C3. When the source root is not a directory, or the transcoder is
    neither found on the search path nor an existing file, the run raises
    [FileNotFoundError] with the world and the trace as they were: nothing
    was printed, created or invoked. *)
Theorem failed_precondition_aborts_before_any_item :
  forall (W : Type) (os : OS W) (w : W) (tr : list event)
         (input_dir : str) (output_dir : option str) (ffmpeg_path : str),
    os_path_isdir w input_dir = false
    \/ (shutil_which w ffmpeg_path = None
        /\ (os_path_exists w ffmpeg_path = false
            \/ os_path_isfile w ffmpeg_path = false)) ->
    (exists msg,
        convert_m4a_directory_to_wav input_dir output_dir ffmpeg_path (w, tr)
        = (inl (FileNotFoundError msg), (w, tr)))
    /\ spawned (snd (snd (convert_m4a_directory_to_wav input_dir output_dir
                            ffmpeg_path (w, [])))) = [].
Proof.
  intros W os w tr input_dir output_dir ffmpeg_path Hfail.
  assert (Hpre : preconditions_hold w input_dir ffmpeg_path = false).
  { unfold preconditions_hold.
    destruct Hfail as [->|(-> & [->| ->])]; simpl; [reflexivity| |].
    - apply andb_false_r.
    - rewrite andb_false_r. apply andb_false_r. }
  assert (Habort : forall tr0, exists msg,
             convert_m4a_directory_to_wav input_dir output_dir ffmpeg_path (w, tr0)
             = (inl (FileNotFoundError msg), (w, tr0))).
  { intros tr0. unfold convert_m4a_directory_to_wav, bind.
    rewrite validate_inputs_eq. simpl fst. rewrite Hpre.
    destruct (os_path_isdir w input_dir); eauto. }
  split; [apply Habort|].
  destruct (Habort []) as [msg ->]. reflexivity.
Qed.

Lemma failed_precondition_aborts_before_any_item_witness :
  exists msg,
    convert_m4a_directory_to_wav (lit "missing") None (lit "ffmpeg") (example_host, [])
    = (inl (FileNotFoundError msg), (example_host, [])).
Proof.
  apply (failed_precondition_aborts_before_any_item Host Host_OS example_host []
           (lit "missing") None (lit "ffmpeg")).
  left. reflexivity.
Defined.


Lemma example_makedirs (h : Host) p :
  os_path_exists h p = false -> fst (os_makedirs h p) = None.
Proof. simpl. intros ->. reflexivity. Qed.

(** C7, as the code has it.  A run that returns has printed, as its last
    four lines, the summary header, the number of files converted, the
    number of failed conversions and the absolute path of the output
    root; the two numbers count this run's invocations that ended with
    status 0 and those that did not. *)
Theorem summary_reports_counts_and_location :
  forall (W : Type) (os : OS W) (w w' : W) (tr tr' : list event)
         (input_dir : str) (output_dir : option str) (ffmpeg_path : str),
    convert_m4a_directory_to_wav input_dir output_dir ffmpeg_path (w, tr)
    = (inr tt, (w', tr')) ->
    exists body,
      tr' = tr ++ body
               ++ summary (count_ok (spawned body)) (count_failed (spawned body))
                    (PosixPath.abspath (os_getcwd w')
                       (output_root input_dir output_dir)).
Proof.
  intros W os w w' tr tr' input_dir output_dir ffmpeg_path Hrun.
  destruct (run_summary input_dir output_dir ffmpeg_path w tr)
    as (r & w1 & evs & Hrun' & _ & Hpost).
  rewrite Hrun in Hrun'. inversion Hrun'; subst r w1 tr'.
  destruct Hpost as (_ & body & -> & _).
  exists body. reflexivity.
Qed.

Lemma summary_reports_counts_and_location_witness :
  exists body,
    snd (snd (convert_m4a_directory_to_wav (lit "in") None (lit "ffmpeg")
                (example_host, [])))
    = [] ++ body
         ++ summary (count_ok (spawned body)) (count_failed (spawned body))
              (PosixPath.abspath (os_getcwd example_host) (lit "in")).
Proof.
  apply (summary_reports_counts_and_location Host Host_OS example_host
           example_host [] _ (lit "in") None (lit "ffmpeg")).
  vm_compute. reflexivity.
Defined.

(** C7 as stated fails: of a run over three matching files, two
    converted and one failed, no printed line contains the number of
    files attempted; and a run that fails its checks prints nothing. *)
Lemma summary_omits_attempted_count :
  let run := convert_m4a_directory_to_wav (lit "in") (Some (lit "out/"))
               (lit "ffmpeg") (example_host, []) in
  fst run = inr tt
  /\ length (spawned (snd (snd run))) = 3
  /\ forallb (fun line => negb (occurs (Py.str_of_nat 3) line))
             (printed (snd (snd run))) = true
  /\ printed (snd (snd (convert_m4a_directory_to_wav (lit "missing") None
                          (lit "ffmpeg") (example_host, [])))) = [].
Proof. repeat split; vm_compute; reflexivity. Qed.

(** ** The filter *)

Lemma lower_chr_inv c :
  (Py.chr_eqb (Py.lower_chr c) "a"%char = true -> c = "a"%char \/ c = "A"%char)
  /\ (Py.chr_eqb (Py.lower_chr c) "m"%char = true -> c = "m"%char \/ c = "M"%char)
  /\ (Py.chr_eqb (Py.lower_chr c) "4"%char = true -> c = "4"%char)
  /\ (Py.chr_eqb (Py.lower_chr c) "."%char = true -> c = "."%char).
Proof.
  destruct c as [[] [] [] [] [] [] [] []]; vm_compute;
    repeat split; intros Hc; try discriminate; auto.
Qed.

Lemma rev_eq_app {A} (l : list A) x1 x2 x3 x4 rest :
  rev l = x1 :: x2 :: x3 :: x4 :: rest -> l = rev rest ++ [x4; x3; x2; x1].
Proof.
  intros Hr. rewrite <- (rev_involutive l), Hr. simpl.
  rewrite <- !app_assoc. reflexivity.
Qed.

(** The filter accepts exactly the names that end in a dot, an m in either
    case, a 4 and an a in either case. *)
Lemma is_m4a_iff filename :
  is_m4a filename = true
  <-> exists stem m a,
      filename = stem ++ ["."%char; m; "4"%char; a]
      /\ (m = "m"%char \/ m = "M"%char) /\ (a = "a"%char \/ a = "A"%char).
Proof.
  unfold is_m4a, Py.endswith, Py.lower. rewrite <- map_rev. split.
  - intros Hs.
    destruct (rev filename) as [|x1 [|x2 [|x3 [|x4 rest]]]] eqn:Hr;
      try (vm_compute in Hs; discriminate);
      try (simpl in Hs; rewrite ?andb_false_r in Hs; discriminate).
    change (rev (lit ".m4a")) with ["a"%char; "4"%char; "m"%char; "."%char] in Hs.
    simpl in Hs.
    apply andb_prop in Hs. destruct Hs as [H1 Hs].
    apply andb_prop in Hs. destruct Hs as [H2 Hs].
    apply andb_prop in Hs. destruct Hs as [H3 Hs].
    apply andb_prop in Hs. destruct Hs as [H4 _].
    apply (proj1 (lower_chr_inv x1)) in H1.
    apply (proj1 (proj2 (proj2 (lower_chr_inv x2)))) in H2.
    apply (proj1 (proj2 (lower_chr_inv x3))) in H3.
    apply (proj2 (proj2 (proj2 (lower_chr_inv x4)))) in H4.
    subst x2 x4. exists (rev rest), x3, x1.
    split; [apply rev_eq_app; exact Hr|auto].
  - intros (stem & m & a & -> & Hm & Ha).
    rewrite rev_app_distr. simpl.
    destruct Hm as [-> | ->], Ha as [-> | ->]; reflexivity.
Qed.

End M4aToWavProofs.

(* ===================================================================== *)
(** * Properties of the path functions *)
(* ===================================================================== *)

Module PathProofs.
Import PosixPath.

Arguments Py.chr_eqb : simpl never.

Lemma chr_eqb_eq a b : Py.chr_eqb a b = true <-> a = b.
Proof. unfold Py.chr_eqb. apply Ascii.eqb_eq. Qed.

Lemma chr_eqb_refl a : Py.chr_eqb a a = true.
Proof. apply chr_eqb_eq. reflexivity. Qed.

Lemma str_eqb_eq a : forall b, Py.str_eqb a b = true <-> a = b.
Proof.
  induction a as [|x a IH]; intros [|y b]; simpl; split; intros Hs;
    try discriminate; try reflexivity.
  - apply andb_prop in Hs. destruct Hs as [Hx Ha].
    apply chr_eqb_eq in Hx. apply IH in Ha. subst. reflexivity.
  - inversion Hs; subst. rewrite chr_eqb_refl. simpl. apply IH. reflexivity.
Qed.

Lemma str_eqb_refl a : Py.str_eqb a a = true.
Proof. apply str_eqb_eq. reflexivity. Qed.

Lemma str_eqb_neq a b : a <> b -> Py.str_eqb a b = false.
Proof.
  intros Hn. destruct (Py.str_eqb a b) eqn:E; [|reflexivity].
  apply str_eqb_eq in E. contradiction.
Qed.

(** ** Names *)

Lemma valid_name_inv n :
  M4aToWav.valid_name n = true ->
  clean n /\ n <> curdir /\ n <> pardir.
Proof.
  unfold M4aToWav.valid_name. intros Hv.
  apply andb_prop in Hv. destruct Hv as [Hv Hp].
  apply andb_prop in Hv. destruct Hv as [Hv Hc].
  apply andb_prop in Hv. destruct Hv as [Hn Hs].
  apply negb_true_iff in Hn, Hs, Hc, Hp.
  repeat split.
  - intros ->. discriminate.
  - exact Hs.
  - intros ->. rewrite str_eqb_refl in Hc. discriminate.
  - intros ->. rewrite str_eqb_refl in Hp. discriminate.
Qed.

Lemma nosep_head c s : nosep (c :: s) -> Py.chr_eqb c sep = false /\ nosep s.
Proof. unfold nosep. simpl. intros Hs. apply orb_false_elim in Hs. exact Hs. Qed.

Lemma nosep_app a b : nosep (a ++ b) <-> nosep a /\ nosep b.
Proof.
  unfold nosep. rewrite existsb_app. split.
  - intros Hs. apply orb_false_elim in Hs. exact Hs.
  - intros [-> ->]. reflexivity.
Qed.

Lemma nosep_rev s : nosep s -> nosep (rev s).
Proof.
  unfold nosep. induction s as [|c s IH]; simpl; [auto|].
  intros Hs. apply orb_false_elim in Hs. destruct Hs as [Hc Hs].
  rewrite existsb_app. simpl. rewrite IH, Hc by exact Hs. reflexivity.
Qed.

Lemma clean_not_abs n : clean n -> Py.startswith n [sep] = false.
Proof.
  intros [Hn Hs]. destruct n as [|c n]; [congruence|].
  apply nosep_head in Hs. destruct Hs as [Hc _].
  simpl. rewrite Hc. reflexivity.
Qed.

Lemma nosep_not_abs n : nosep n -> Py.startswith n [sep] = false.
Proof.
  intros Hs. destruct n as [|c n]; [reflexivity|].
  apply nosep_head in Hs. destruct Hs as [Hc _].
  simpl. rewrite Hc. reflexivity.
Qed.

Lemma endswith_sep_inv s :
  Py.endswith s [sep] = true -> exists s', s = s' ++ [sep].
Proof.
  unfold Py.endswith. simpl. intros Hs.
  destruct (rev s) as [|c r] eqn:Hr; [discriminate|].
  simpl in Hs. rewrite andb_true_r in Hs. apply chr_eqb_eq in Hs. subst c.
  exists (rev r). rewrite <- (rev_involutive s), Hr. reflexivity.
Qed.

Lemma endswith_app a b : b <> [] -> Py.endswith (a ++ b) [sep] = Py.endswith b [sep].
Proof.
  intros Hb. unfold Py.endswith. rewrite rev_app_distr.
  destruct (rev b) as [|c r] eqn:Hr.
  - apply (f_equal (@rev ascii)) in Hr. rewrite rev_involutive in Hr. contradiction.
  - reflexivity.
Qed.

Lemma nosep_not_endswith n : nosep n -> Py.endswith n [sep] = false.
Proof.
  intros Hs. unfold Py.endswith. apply nosep_not_abs, nosep_rev, Hs.
Qed.

(** ** [join] *)

Lemma join_rel base b :
  Py.startswith b [sep] = false -> join base b = pre base ++ b.
Proof.
  intros Hb. unfold join, pre. rewrite Hb.
  destruct (is_nil base || Py.endswith base [sep]); [reflexivity|].
  rewrite <- app_assoc. reflexivity.
Qed.

Lemma pre_nonempty base : base <> [] -> pre base <> [].
Proof.
  unfold pre. intros Hb.
  destruct (is_nil base || Py.endswith base [sep]); [exact Hb|].
  destruct base; discriminate.
Qed.

Lemma pre_app a b : b <> [] -> pre (a ++ b) = a ++ pre b.
Proof.
  intros Hb. unfold pre. rewrite endswith_app by exact Hb.
  assert (Hn : is_nil (a ++ b) = false) by (destruct a, b; try congruence; reflexivity).
  assert (Hn' : is_nil b = false) by (destruct b; [congruence|reflexivity]).
  rewrite Hn, Hn'. simpl.
  destruct (Py.endswith b [sep]); [reflexivity|symmetry; apply app_assoc].
Qed.

Lemma pre_clean_end a n : clean n -> pre (a ++ n) = a ++ n ++ [sep].
Proof.
  intros [Hn Hs]. rewrite pre_app by exact Hn. f_equal.
  unfold pre. rewrite nosep_not_endswith by exact Hs.
  destruct n; [congruence|reflexivity].
Qed.

Lemma startswith_app a b :
  a <> [] -> Py.startswith (a ++ b) [sep] = Py.startswith a [sep].
Proof. destruct a; [congruence|reflexivity]. Qed.

Lemma startswith_pre a : a <> [] -> Py.startswith (pre a) [sep] = Py.startswith a [sep].
Proof.
  intros Ha. unfold pre.
  destruct (is_nil a || Py.endswith a [sep]); [reflexivity|].
  apply startswith_app. exact Ha.
Qed.

(** ** [split] *)

Lemma split_cons_sep s : Py.split sep (sep :: s) = [] :: Py.split sep s.
Proof. reflexivity. Qed.

Lemma split_not_nil c s : Py.split c s <> [].
Proof.
  destruct s as [|x s]; simpl; [discriminate|].
  destruct (Py.chr_eqb x c); [discriminate|].
  destruct (Py.split c s); discriminate.
Qed.

Lemma split_app_sep a b :
  Py.split sep (a ++ sep :: b) = Py.split sep a ++ Py.split sep b.
Proof.
  induction a as [|x a IH].
  - simpl app. rewrite split_cons_sep. reflexivity.
  - simpl. destruct (Py.chr_eqb x sep).
    + rewrite IH. reflexivity.
    + rewrite IH. destruct (Py.split sep a) as [|h t] eqn:Hs.
      * exfalso. exact (split_not_nil _ _ Hs).
      * reflexivity.
Qed.

Lemma split_nosep s : nosep s -> Py.split sep s = [s].
Proof.
  induction s as [|x s IH]; intros Hs; [reflexivity|].
  apply nosep_head in Hs. destruct Hs as [Hx Hs].
  simpl. rewrite Hx, IH by exact Hs. reflexivity.
Qed.

Lemma split_all_nosep s : Forall nosep (Py.split sep s).
Proof.
  induction s as [|x s IH]; simpl.
  - constructor; [reflexivity|constructor].
  - destruct (Py.chr_eqb x sep) eqn:Hx.
    + constructor; [reflexivity|exact IH].
    + destruct (Py.split sep s) as [|h t]; [constructor; [|constructor]|].
      * unfold nosep. simpl. rewrite Hx. reflexivity.
      * inversion IH; subst. constructor; [|assumption].
        unfold nosep in *. simpl. rewrite Hx. assumption.
Qed.

(** Joining clean components and splitting again gives them back. *)
Lemma split_join l :
  l <> [] -> Forall clean l -> Py.split sep (Py.join [sep] l) = l.
Proof.
  induction l as [|x l IH]; intros Hl Hc; [congruence|].
  inversion Hc as [|? ? [Hx Hs] Hc']; subst.
  destruct l as [|y l].
  - simpl. apply split_nosep. exact Hs.
  - change (Py.join [sep] (x :: y :: l)) with (x ++ sep :: Py.join [sep] (y :: l)).
    rewrite split_app_sep, split_nosep by exact Hs.
    rewrite IH; [reflexivity|discriminate|exact Hc'].
Qed.

Lemma filter_clean l : Forall clean l -> List.filter (fun x => negb (is_nil x)) l = l.
Proof.
  induction 1 as [|x l [Hx _] Hl IH]; [reflexivity|].
  simpl. destruct x; [congruence|]. simpl. rewrite IH. reflexivity.
Qed.

(** The components [relpath] reads off a normalised absolute path. *)
Lemma nonempty_comps_normal k l :
  Forall clean l ->
  nonempty_comps (repeat sep k ++ Py.join [sep] l) = l.
Proof.
  intros Hc. unfold nonempty_comps. induction k as [|k IH].
  - simpl. destruct l as [|x l]; [reflexivity|].
    rewrite split_join by (auto; discriminate). apply filter_clean. exact Hc.
  - simpl repeat. simpl app. rewrite split_cons_sep. simpl. exact IH.
Qed.

(** ** [normpath] *)

Lemma initial_slashes_app a y :
  a <> [] ->
  Py.startswith y [sep] = false \/ Py.endswith a [sep] = false ->
  initial_slashes (a ++ y) = initial_slashes a.
Proof.
  intros Ha Hy. unfold initial_slashes.
  destruct a as [|c1 [|c2 [|c3 a]]]; [congruence| | |reflexivity].
  - (* one character *)
    simpl. destruct (Py.chr_eqb c1 sep) eqn:H1; [|reflexivity].
    destruct Hy as [Hy|Hy].
    + destruct y as [|c y]; [reflexivity|]. simpl in *.
      rewrite andb_true_r in Hy. rewrite Hy. reflexivity.
    + unfold Py.endswith in Hy. simpl in Hy. rewrite H1 in Hy. discriminate.
  - (* two characters *)
    simpl. destruct (Py.chr_eqb c1 sep) eqn:H1; [|reflexivity].
    destruct (Py.chr_eqb c2 sep) eqn:H2; [|reflexivity].
    destruct Hy as [Hy|Hy].
    + destruct y as [|c y]; [reflexivity|]. simpl in *.
      rewrite andb_true_r in Hy. rewrite Hy. reflexivity.
    + unfold Py.endswith in Hy. simpl in Hy. rewrite H2 in Hy. discriminate.
Qed.

Lemma norm_step_name k acc n :
  n <> [] -> n <> curdir -> n <> pardir -> norm_step k acc n = acc ++ [n].
Proof.
  intros Hn Hc Hp. unfold norm_step.
  assert (Hnil : is_nil n = false) by (destruct n; [congruence|reflexivity]).
  rewrite Hnil, (str_eqb_neq n curdir Hc), (str_eqb_neq n pardir Hp).
  reflexivity.
Qed.

Lemma norm_step_clean k acc comp :
  Forall clean acc -> nosep comp -> Forall clean (norm_step k acc comp).
Proof.
  intros Hacc Hs. unfold norm_step.
  destruct (is_nil comp) eqn:Hn; simpl; [exact Hacc|].
  destruct (Py.str_eqb comp curdir); simpl; [exact Hacc|].
  assert (Hc : clean comp).
  { split; [intros ->; discriminate|exact Hs]. }
  assert (Hrm : Forall clean (List.removelast acc)).
  { clear - Hacc. induction Hacc as [|x l Hx Hl IH]; [constructor|].
    simpl. destruct l; [constructor|]. constructor; assumption. }
  destruct (negb (Py.str_eqb comp pardir) || _ || _);
    [apply Forall_app; split; [exact Hacc|constructor; [exact Hc|constructor]]|].
  destruct (negb (is_nil acc)); [exact Hrm|exact Hacc].
Qed.

Lemma norm_fold_clean k comps : forall acc,
  Forall clean acc -> Forall nosep comps ->
  Forall clean (fold_left (norm_step k) comps acc).
Proof.
  induction comps as [|c comps IH]; intros acc Hacc Hs; [exact Hacc|].
  inversion Hs; subst. simpl. apply IH; [|assumption].
  apply norm_step_clean; assumption.
Qed.

Lemma norm_comps_clean p : Forall clean (norm_comps p).
Proof.
  unfold norm_comps. apply norm_fold_clean; [constructor|apply split_all_nosep].
Qed.

(** A relative piece without separators, joined to a non-empty path, is
    one more turn of the loop of [normpath]. *)
Lemma norm_comps_join base b :
  base <> [] -> nosep b ->
  initial_slashes (join base b) = initial_slashes base
  /\ norm_comps (join base b)
     = norm_step (initial_slashes base) (norm_comps base) b.
Proof.
  intros Hb Hs.
  rewrite join_rel by (apply nosep_not_abs; exact Hs).
  assert (Hk : initial_slashes (pre base ++ b) = initial_slashes base).
  { unfold pre. destruct (is_nil base || Py.endswith base [sep]) eqn:He.
    - apply initial_slashes_app; [exact Hb|left; apply nosep_not_abs; exact Hs].
    - apply orb_false_elim in He. destruct He as [_ He].
      rewrite <- app_assoc. apply initial_slashes_app; [exact Hb|right; exact He]. }
  split; [exact Hk|].
  unfold norm_comps. rewrite Hk. unfold pre.
  destruct (is_nil base) eqn:Hn; [destruct base; [congruence|discriminate]|].
  simpl orb. destruct (Py.endswith base [sep]) eqn:He.
  - apply endswith_sep_inv in He. destruct He as [base' ->].
    rewrite <- app_assoc. simpl app.
    rewrite !split_app_sep, (split_nosep b Hs). simpl (Py.split sep []).
    rewrite !fold_left_app. simpl. reflexivity.
  - rewrite <- app_assoc. simpl app.
    rewrite split_app_sep, (split_nosep b Hs).
    rewrite fold_left_app. reflexivity.
Qed.

Lemma norm_comps_join_name base n :
  base <> [] -> M4aToWav.valid_name n = true ->
  initial_slashes (join base n) = initial_slashes base
  /\ norm_comps (join base n) = norm_comps base ++ [n].
Proof.
  intros Hb Hv. apply valid_name_inv in Hv. destruct Hv as ([Hn Hs] & Hc & Hp).
  destruct (norm_comps_join base n Hb Hs) as [Hk Hcomps].
  split; [exact Hk|]. rewrite Hcomps. apply norm_step_name; assumption.
Qed.

Lemma norm_comps_join_curdir base :
  base <> [] ->
  initial_slashes (join base curdir) = initial_slashes base
  /\ norm_comps (join base curdir) = norm_comps base.
Proof.
  intros Hb. destruct (norm_comps_join base curdir Hb eq_refl) as [Hk Hcomps].
  split; [exact Hk|]. rewrite Hcomps. reflexivity.
Qed.

Lemma join_not_nil base b : base <> [] -> join base b <> [].
Proof.
  intros Ha. unfold join.
  destruct (Py.startswith b [sep]) eqn:Hb.
  - destruct b; discriminate.
  - destruct (is_nil base || Py.endswith base [sep]);
      destruct base; try congruence; discriminate.
Qed.

Lemma join_all_not_nil ds : forall base,
  base <> [] -> M4aToWav.join_all base ds <> [].
Proof.
  induction ds as [|d ds IH]; intros base Hb; [exact Hb|].
  simpl. apply IH. apply join_not_nil. exact Hb.
Qed.

Lemma join_all_app base ds ds' :
  M4aToWav.join_all base (ds ++ ds')
  = M4aToWav.join_all (M4aToWav.join_all base ds) ds'.
Proof. unfold M4aToWav.join_all. apply fold_left_app. Qed.

Lemma norm_comps_join_all ds : forall base,
  base <> [] -> forallb M4aToWav.valid_name ds = true ->
  initial_slashes (M4aToWav.join_all base ds) = initial_slashes base
  /\ norm_comps (M4aToWav.join_all base ds) = norm_comps base ++ ds.
Proof.
  induction ds as [|d ds IH]; intros base Hb Hv.
  - simpl. rewrite app_nil_r. auto.
  - simpl in Hv. apply andb_prop in Hv. destruct Hv as [Hd Hv].
    destruct (norm_comps_join_name base d Hb Hd) as [Hk Hc].
    destruct (IH (join base d) (join_not_nil base d Hb) Hv) as [Hk' Hc'].
    simpl. rewrite Hk', Hc', Hk, Hc, <- app_assoc. auto.
Qed.

(** [normpath] depends on the leading slashes and the components only. *)
Lemma normpath_eq p q :
  p <> [] -> q <> [] ->
  initial_slashes p = initial_slashes q -> norm_comps p = norm_comps q ->
  normpath p = normpath q.
Proof.
  intros Hp Hq Hk Hc. unfold normpath. rewrite Hk, Hc.
  destruct p, q; try congruence. reflexivity.
Qed.

(** The [.] that [relpath] gives for the root itself does not change where
    the destination is. *)
Lemma normpath_through_curdir base n :
  M4aToWav.valid_name n = true ->
  normpath (join (join base curdir) n) = normpath (join base n).
Proof.
  intros Hv. destruct base as [|c base].
  - (* an empty output root: ./n against n *)
    pose proof (valid_name_inv n Hv) as ([Hn Hs] & Hc & Hp).
    change (join [] curdir) with curdir.
    destruct (norm_comps_join_name curdir n) as [Hk Hcomps]; [discriminate|exact Hv|].
    unfold normpath at 1. rewrite Hk, Hcomps.
    assert (Hj : join [] n = n).
    { rewrite join_rel by (apply nosep_not_abs; exact Hs). reflexivity. }
    rewrite Hj. unfold normpath, norm_comps.
    assert (Hk0 : initial_slashes n = 0).
    { unfold initial_slashes. rewrite (nosep_not_abs n Hs). reflexivity. }
    rewrite Hk0, (split_nosep n Hs). simpl fold_left.
    rewrite (norm_step_name 0 [] n Hn Hc Hp).
    assert (Hnil : is_nil (join curdir n) = false).
    { pose proof (join_not_nil curdir n) as Hj'.
      destruct (join curdir n); [exfalso; apply Hj'; [discriminate|reflexivity]|reflexivity]. }
    rewrite Hnil. destruct n; [congruence|reflexivity].
  - assert (Hb : c :: base <> []) by discriminate.
    destruct (norm_comps_join_curdir (c :: base) Hb) as [Hk1 Hc1].
    destruct (norm_comps_join_name (join (c :: base) curdir) n
                (join_not_nil _ _ Hb) Hv) as [Hk2 Hc2].
    destruct (norm_comps_join_name (c :: base) n Hb Hv) as [Hk3 Hc3].
    apply normpath_eq.
    + apply join_not_nil, join_not_nil, Hb.
    + apply join_not_nil, Hb.
    + congruence.
    + congruence.
Qed.

(** Joining the relative path of a directory in one piece, or one name at
    a time, gives the same string. *)
Lemma join_relative_path ds : forall base,
  ds <> [] -> forallb M4aToWav.valid_name ds = true ->
  join base (Py.join [sep] ds) = M4aToWav.join_all base ds.
Proof.
  induction ds as [|d ds IH]; intros base Hds Hv; [congruence|].
  simpl in Hv. apply andb_prop in Hv. destruct Hv as [Hd Hv].
  pose proof (valid_name_inv d Hd) as (Hclean & _ & _).
  destruct ds as [|d2 ds]; [reflexivity|].
  change (Py.join [sep] (d :: d2 :: ds)) with (d ++ [sep] ++ Py.join [sep] (d2 :: ds)).
  change (M4aToWav.join_all base (d :: d2 :: ds))
    with (M4aToWav.join_all (join base d) (d2 :: ds)).
  rewrite <- IH by (auto; discriminate).
  assert (Hrest : Py.startswith (Py.join [sep] (d2 :: ds)) [sep] = false).
  { simpl in Hv. apply andb_prop in Hv. destruct Hv as [Hd2 _].
    pose proof (valid_name_inv d2 Hd2) as ([Hn2 Hs2] & _ & _).
    destruct d2 as [|c d2]; [congruence|].
    apply nosep_head in Hs2. destruct Hs2 as [Hc _].
    destruct ds; simpl; rewrite Hc; reflexivity. }
  assert (Hfirst : Py.startswith (d ++ [sep] ++ Py.join [sep] (d2 :: ds)) [sep] = false).
  { rewrite startswith_app by (destruct Hclean; assumption).
    apply clean_not_abs. exact Hclean. }
  rewrite (join_rel base _ Hfirst), (join_rel base d (clean_not_abs d Hclean)).
  rewrite (join_rel _ _ Hrest), (pre_clean_end (pre base) d Hclean).
  rewrite <- !app_assoc. reflexivity.
Qed.

(** ** [relpath] of a walked root *)

Section Relpath.
Variable cwd : str.
Hypothesis cwd_abs : isabs cwd = true.

Lemma cwd_not_nil : cwd <> [].
Proof. intros E. rewrite E in cwd_abs. discriminate. Qed.

Lemma isabs_join p d : p <> [] -> clean d -> isabs (join p d) = isabs p.
Proof.
  intros Hp Hd. unfold isabs.
  rewrite join_rel by (apply clean_not_abs; exact Hd).
  rewrite startswith_app by (apply pre_nonempty; exact Hp).
  apply startswith_pre. exact Hp.
Qed.

Lemma absolutize_join p d :
  p <> [] -> clean d -> absolutize cwd (join p d) = join (absolutize cwd p) d.
Proof.
  intros Hp Hd. unfold absolutize. rewrite isabs_join by assumption.
  destruct (isabs p) eqn:Habs; [reflexivity|].
  pose proof (clean_not_abs d Hd) as Hd'.
  assert (Hjp : Py.startswith (join p d) [sep] = false).
  { pose proof (isabs_join p d Hp Hd) as E. unfold isabs in E, Habs. congruence. }
  rewrite (join_rel cwd (join p d) Hjp), (join_rel p d Hd').
  rewrite (join_rel cwd p Habs).
  rewrite (join_rel (pre cwd ++ p) d Hd'), (pre_app (pre cwd) p Hp).
  rewrite <- app_assoc. reflexivity.
Qed.

Lemma absolutize_abs p : isabs (absolutize cwd p) = true.
Proof.
  unfold absolutize. destruct (isabs p) eqn:Habs; [exact Habs|].
  unfold isabs in *. rewrite join_rel by exact Habs.
  rewrite startswith_app by (apply pre_nonempty, cwd_not_nil).
  rewrite startswith_pre by apply cwd_not_nil. exact cwd_abs.
Qed.

Lemma absolutize_not_nil p : absolutize cwd p <> [].
Proof.
  pose proof (absolutize_abs p) as Ha. intros E. rewrite E in Ha. discriminate.
Qed.

Lemma absolutize_join_all ds : forall p,
  p <> [] -> forallb M4aToWav.valid_name ds = true ->
  absolutize cwd (M4aToWav.join_all p ds) = M4aToWav.join_all (absolutize cwd p) ds.
Proof.
  induction ds as [|d ds IH]; intros p Hp Hv; [reflexivity|].
  simpl in Hv. apply andb_prop in Hv. destruct Hv as [Hd Hv].
  pose proof (valid_name_inv d Hd) as (Hclean & _).
  simpl. rewrite IH by (auto using join_not_nil).
  rewrite absolutize_join by assumption. reflexivity.
Qed.

Lemma normpath_abs q :
  isabs q = true ->
  normpath q = repeat sep (initial_slashes q) ++ Py.join [sep] (norm_comps q).
Proof.
  intros Hq. unfold normpath.
  destruct q as [|c q]; [discriminate|]. simpl is_nil. cbv iota.
  assert (Hk : exists k, initial_slashes (c :: q) = S k).
  { unfold initial_slashes. unfold isabs in Hq. rewrite Hq.
    destruct (_ && _); eauto. }
  destruct Hk as [k ->]. reflexivity.
Qed.

Lemma commonprefix_app l ds : commonprefix l (l ++ ds) = l.
Proof.
  induction l as [|x l IH]; simpl; [destruct ds; reflexivity|].
  rewrite str_eqb_refl, IH. reflexivity.
Qed.

(** A root the walk reaches through the directories [ds] is, relative to
    the input root, [.] for the root itself and [d1/.../dk] below it. *)
Lemma relpath_walk_root input_dir ds :
  input_dir <> [] -> forallb M4aToWav.valid_name ds = true ->
  relpath cwd (M4aToWav.join_all input_dir ds) input_dir
  = inr (if is_nil ds then curdir else Py.join [sep] ds).
Proof.
  intros Hi Hv. unfold relpath.
  assert (Hnil : is_nil (M4aToWav.join_all input_dir ds) = false).
  { pose proof (join_all_not_nil ds input_dir Hi) as Hj.
    destruct (M4aToWav.join_all input_dir ds); [congruence|reflexivity]. }
  rewrite Hnil. unfold abspath.
  rewrite (absolutize_join_all ds input_dir Hi Hv).
  set (q := absolutize cwd input_dir).
  assert (Hq : q <> []) by apply absolutize_not_nil.
  assert (Hqa : isabs q = true) by apply absolutize_abs.
  destruct (norm_comps_join_all ds q Hq Hv) as [Hk Hc].
  assert (Hja : isabs (M4aToWav.join_all q ds) = true).
  { unfold q. rewrite <- (absolutize_join_all ds input_dir Hi Hv).
    apply absolutize_abs. }
  rewrite (normpath_abs q Hqa), (normpath_abs _ Hja), Hk, Hc.
  assert (Hclean : Forall clean ds).
  { clear - Hv. induction ds as [|d ds IH]; [constructor|].
    simpl in Hv. apply andb_prop in Hv. destruct Hv as [Hd Hv].
    constructor; [apply valid_name_inv; exact Hd|apply IH; exact Hv]. }
  rewrite !nonempty_comps_normal
    by (try apply Forall_app; auto using norm_comps_clean).
  rewrite commonprefix_app, Nat.sub_diag. simpl repeat. simpl app.
  rewrite skipn_app, Nat.sub_diag, skipn_all. simpl.
  destruct ds; reflexivity.
Qed.

End Relpath.

End PathProofs.

(* ===================================================================== *)
(** * The walk, the filter and the destinations *)
(* ===================================================================== *)

Module TreeProofs.
Import PosixPath M4aToWav RunTrace PathProofs M4aToWavProofs.

(** ** [splitext] on a name that passes the filter *)

Lemma rfind_from_absent c s : forall i found,
  existsb (fun x => Py.chr_eqb x c) s = false -> rfind_from c s i found = found.
Proof.
  induction s as [|x s IH]; intros i found Hs; [reflexivity|].
  simpl in Hs. apply orb_false_elim in Hs. destruct Hs as [Hx Hs].
  simpl. rewrite Hx. apply IH. exact Hs.
Qed.

Lemma rfind_from_last c s1 s2 :
  existsb (fun x => Py.chr_eqb x c) s2 = false ->
  forall i found,
    rfind_from c (s1 ++ c :: s2) i found = (i + Z.of_nat (length s1))%Z.
Proof.
  intros Hs2. induction s1 as [|x s1 IH]; intros i found.
  - simpl. rewrite chr_eqb_refl, rfind_from_absent by exact Hs2. lia.
  - simpl app. simpl rfind_from. rewrite IH. simpl length. lia.
Qed.

Lemma splitext_m4a filename :
  nosep filename -> is_m4a filename = true ->
  fst (splitext filename) ++ lit ".wav" = wav_name filename.
Proof.
  intros Hs Hm. apply is_m4a_iff in Hm.
  destruct Hm as (stem & m & a & -> & Hm & Ha).
  assert (Hsep : rfind sep (stem ++ ["."%char; m; "4"%char; a]) = (-1)%Z).
  { unfold rfind. apply rfind_from_absent. exact Hs. }
  assert (Hdot : rfind extsep (stem ++ ["."%char; m; "4"%char; a])
                 = Z.of_nat (length stem)).
  { unfold rfind. change "."%char with extsep. rewrite rfind_from_last; [lia|].
    destruct Hm as [-> | ->], Ha as [-> | ->]; reflexivity. }
  unfold splitext, wav_name. rewrite Hsep, Hdot.
  assert (Hlt : (-1 <? Z.of_nat (length stem))%Z = true) by (apply Z.ltb_lt; lia).
  rewrite Hlt. unfold Py.slice.
  change (Z.to_nat (-1 + 1)) with 0. rewrite Nat2Z.id, Nat.sub_0_r, skipn_O.
  rewrite length_app. simpl length.
  replace (length stem + 4 - 4) with (length stem) by lia.
  assert (Hfirst : firstn (length stem) (stem ++ ["."%char; m; "4"%char; a]) = stem).
  { rewrite firstn_app, Nat.sub_diag, firstn_all. simpl. apply app_nil_r. }
  rewrite !Hfirst.
  destruct (existsb _ stem); reflexivity.
Qed.

Lemma wav_name_valid filename :
  nosep filename -> valid_name (wav_name filename) = true.
Proof.
  intros Hs.
  assert (Hgen : forall x : str, nosep x -> valid_name (x ++ lit ".wav") = true).
  { intros x Hx. unfold valid_name.
    assert (H1 : is_nil (x ++ lit ".wav") = false) by (destruct x; reflexivity).
    assert (H2 : existsb (fun c => Py.chr_eqb c sep) (x ++ lit ".wav") = false).
    { rewrite existsb_app. unfold nosep in Hx. rewrite Hx. reflexivity. }
    assert (H3 : forall y : str, length y <= 2 -> Py.str_eqb (x ++ lit ".wav") y = false).
    { intros y Hy. apply str_eqb_neq. intros E.
      apply (f_equal (@length ascii)) in E. rewrite length_app in E.
      change (length (lit ".wav")) with 4 in E. lia. }
    rewrite H1, H2, (H3 curdir), (H3 pardir) by (simpl; lia). reflexivity. }
  unfold wav_name. destruct (existsb _ _); apply Hgen; [|exact Hs].
  rewrite <- (firstn_skipn (length filename - 4) filename) in Hs.
  apply nosep_app in Hs. apply Hs.
Qed.

(** ** The walk against the tree *)

Lemma walk_pairs_tree_files t : forall top,
  walk_pairs top t
  = map (fun e => (join_all top (fst e), snd e)) (tree_files t).
Proof.
  induction t as [files subdirs IH] using tree_induction. intros top.
  unfold walk_pairs. simpl walk. simpl flat_map. simpl tree_files.
  rewrite map_app, map_map. f_equal.
  induction subdirs as [|[d t'] subdirs IHs]; [reflexivity|].
  inversion IH as [|? ? Hd Hrest]; subst.
  simpl flat_map. rewrite flat_map_app, map_app, map_map.
  f_equal; [|apply IHs; exact Hrest].
  simpl in Hd. unfold walk_pairs in Hd. rewrite Hd. reflexivity.
Qed.

Lemma tree_files_valid t :
  valid_tree t = true ->
  Forall (fun e => forallb valid_name (fst e) = true /\ valid_name (snd e) = true)
         (tree_files t).
Proof.
  induction t as [files subdirs IH] using tree_induction. intros Hv.
  simpl in Hv. apply andb_prop in Hv. destruct Hv as [Hf Hd].
  simpl. apply Forall_app. split.
  - apply Forall_forall. intros e He. apply list_elem_of_In, in_map_iff in He.
    destruct He as (f & <- & Hin). split; [reflexivity|].
    rewrite forallb_forall in Hf. apply Hf. exact Hin.
  - induction subdirs as [|[d t'] subdirs IHs]; [constructor|].
    inversion IH as [|? ? Ht Hrest]; subst.
    simpl in Hd. apply andb_prop in Hd. destruct Hd as [Hdt Hd].
    apply andb_prop in Hdt. destruct Hdt as [Hdn Htv].
    simpl flat_map. apply Forall_app. split; [|apply IHs; assumption].
    apply Forall_forall. intros e He. apply list_elem_of_In, in_map_iff in He.
    destruct He as ([ds f] & <- & Hin). simpl.
    specialize (Ht Htv). rewrite Forall_forall in Ht.
    destruct (Ht (ds, f)) as [H1 H2]; [apply list_elem_of_In; exact Hin|].
    simpl in H1, H2. rewrite Hdn, H1. auto.
Qed.

Lemma filter_map_pairs {A B} (g : A -> B) (p : B -> bool) l :
  List.filter p (map g l) = map g (List.filter (fun x => p (g x)) l).
Proof.
  induction l as [|x l IH]; [reflexivity|].
  simpl. destruct (p (g x)); simpl; rewrite IH; reflexivity.
Qed.

Lemma Forall2_refine {A B} (P : A -> Prop) (R Q : A -> B -> Prop) l l' :
  Forall P l -> Forall2 R l l' ->
  (forall x y, P x -> R x y -> Q x y) -> Forall2 Q l l'.
Proof.
  intros HP HR Himp. induction HR as [|x y l l' Hxy HR IH]; [constructor|].
  inversion HP; subst. constructor; auto.
Qed.

Lemma Forall_filter {A} (P : A -> Prop) p l : Forall P l -> Forall P (List.filter p l).
Proof.
  induction 1 as [|x l Hx Hl IH]; [constructor|].
  simpl. destruct (p x); [constructor|]; assumption.
Qed.

Lemma Forall2_map_left {A B C} (g : A -> B) (R : B -> C -> Prop) l : forall l',
  Forall2 R (map g l) l' -> Forall2 (fun x y => R (g x) y) l l'.
Proof.
  induction l as [|x l IH]; intros l' HR; inversion HR; subst; constructor; auto.
Qed.

Lemma Forall_filter_true {A} (p : A -> bool) l :
  Forall (fun x => p x = true) (List.filter p l).
Proof.
  induction l as [|x l IH]; [constructor|].
  simpl. destruct (p x) eqn:Hp; [constructor|]; assumption.
Qed.

Lemma Forall_and {A} (P Q : A -> Prop) l :
  Forall P l -> Forall Q l -> Forall (fun x => P x /\ Q x) l.
Proof.
  induction 1 as [|x l Hx Hl IH]; intros HQ; [constructor|].
  inversion HQ; subst. constructor; auto.
Qed.

Section Destinations.
Context {W : Type} `{OS W}.
Variables (input_dir output_root ffmpeg_path : str).
Hypothesis cwd_abs : forall wq : W, isabs (os_getcwd wq) = true.
Hypothesis input_dir_not_nil : input_dir <> [].

(** The invocation for a file of the tree, spelled out. *)
Lemma item_cmd_paths ds filename co :
  forallb valid_name ds = true -> valid_name filename = true ->
  is_m4a filename = true ->
  item_cmd input_dir output_root ffmpeg_path (join_all input_dir ds, filename) co ->
  exists destination,
    fst co = command ffmpeg_path (join_all input_dir (ds ++ [filename])) destination
    /\ normpath destination
       = normpath (join_all output_root (ds ++ [wav_name filename]))
    /\ destination
       = join_all output_root
           ((if is_nil ds then [curdir] else ds) ++ [wav_name filename]).
Proof.
  intros Hds Hf Hm (wq & rel & Hrel & Hcmd). simpl fst in *. simpl snd in *.
  rewrite (relpath_walk_root (os_getcwd wq) (cwd_abs wq) input_dir ds
             input_dir_not_nil Hds) in Hrel.
  inversion Hrel; subst rel. clear Hrel.
  pose proof (valid_name_inv filename Hf) as ([_ Hs] & _).
  exists (destination output_root (if is_nil ds then curdir else Py.join [sep] ds)
            filename).
  split; [rewrite Hcmd, join_all_app; reflexivity|].
  unfold destination. rewrite (splitext_m4a filename Hs Hm).
  destruct ds as [|d ds]; simpl is_nil; cbv iota.
  - split; [|reflexivity].
    apply normpath_through_curdir. apply wav_name_valid. exact Hs.
  - rewrite join_relative_path by (auto; discriminate).
    rewrite join_all_app. split; reflexivity.
Qed.

End Destinations.

(** C4, as the code has it.  When the entries of the tree under the
    source root have ordinary names, the invocations of a run are those of
    the first files that pass the filter, in the order of the walk, and of
    all N of them when the run returns (a run that raises has made them for
    a first part of these files only).  The source of each is
    [input_dir/d1/.../dk/name].
    Its destination is [output_root/d1/.../dk/new_name] for a file of a
    subdirectory and [output_root/./new_name] for a file of the root itself,
    which [os.path.normpath] takes to [output_root/new_name]; the new name
    is [wav_name name]: the name with [.wav] in place of its extension, or,
    for a name with dots only before its [m4a], the whole name followed by
    [.wav].  On the tree [in/a.m4a], [in/sub/b.m4a] with output root [out/]
    the destinations are [out/./a.wav] and [out/sub/b.wav]. *)
Theorem destinations_mirror_the_tree :
  (forall (W : Type) (os : OS W) (w : W)
          (input_dir : str) (output_dir : option str) (ffmpeg_path : str),
      let T := os_listing (world_at_walk w output_dir) input_dir in
      let out := output_root input_dir output_dir in
      let items := List.filter (fun e => is_m4a (snd e)) (tree_files T) in
      let run := convert_m4a_directory_to_wav input_dir output_dir ffmpeg_path (w, []) in
      (forall wq : W, isabs (os_getcwd wq) = true) ->
      input_dir <> [] ->
      valid_tree T = true ->
      exists done rest,
        items = done ++ rest
        /\ (fst run = inr tt -> rest = [])
        /\ Forall2
             (fun e co =>
                exists destination,
                  fst co = command ffmpeg_path
                             (join_all input_dir (fst e ++ [snd e])) destination
                  /\ destination
                     = join_all out ((if is_nil (fst e) then [curdir] else fst e)
                                       ++ [wav_name (snd e)])
                  /\ normpath destination
                     = normpath (join_all out (fst e ++ [wav_name (snd e)])))
             done (spawned (snd (snd run))))
  /\ map (fun co => nth 6 (fst co) [])
         (spawned (snd (snd (convert_m4a_directory_to_wav (lit "in")
                               (Some (lit "out/")) (lit "ffmpeg") (spec_host, [])))))
     = [lit "out/./a.wav"; lit "out/sub/b.wav"]
  /\ map normpath [lit "out/./a.wav"; lit "out/sub/b.wav"]
     = [lit "out/a.wav"; lit "out/sub/b.wav"].
Proof.
  split; [|split; vm_compute; reflexivity].
  intros W os w input_dir output_dir ffmpeg_path T out items run Hcwd Hin Hvalid.
  destruct (run_prefix input_dir output_dir ffmpeg_path w)
    as (done & rest & Hsplit & H2 & Hend).
  fold T in Hsplit. rewrite walk_pairs_tree_files in Hsplit.
  unfold matching in Hsplit. rewrite filter_map_pairs in Hsplit. simpl in Hsplit.
  fold items in Hsplit.
  apply map_eq_app in Hsplit.
  destruct Hsplit as (done' & rest' & Hitems & <- & <-).
  exists done', rest'. split; [exact Hitems|].
  split.
  { intros Hr. specialize (Hend Hr). destruct rest'; [reflexivity|discriminate]. }
  apply Forall2_map_left in H2.
  assert (Hall : Forall (fun e => (forallb valid_name (fst e) = true
                                    /\ valid_name (snd e) = true)
                                   /\ is_m4a (snd e) = true) items).
  { apply Forall_and.
    - apply Forall_filter, tree_files_valid, Hvalid.
    - apply (Forall_filter_true (fun e => is_m4a (snd e))). }
  rewrite Hitems in Hall. apply Forall_app in Hall. destruct Hall as [Hdone _].
  eapply Forall2_refine; [exact Hdone|exact H2|].
  intros [ds f] co [[Hds Hf] Hm] Hitem. simpl in *.
  destruct (item_cmd_paths input_dir out ffmpeg_path Hcwd Hin ds f co Hds Hf Hm Hitem)
    as (d & H1 & H3 & H4).
  exists d. auto.
Qed.

Lemma example_cwd (h : Host) : isabs (os_getcwd h) = true.
Proof. reflexivity. Qed.

Lemma destinations_mirror_the_tree_witness :
  Forall2
    (fun e co =>
       exists destination,
         fst co = command (lit "ffmpeg")
                    (join_all (lit "in") (fst e ++ [snd e])) destination
         /\ destination
            = join_all (lit "out/") ((if is_nil (fst e) then [curdir] else fst e)
                                       ++ [wav_name (snd e)])
         /\ normpath destination
            = normpath (join_all (lit "out/") (fst e ++ [wav_name (snd e)])))
    [([], lit "a.m4a"); ([lit "sub"], lit "b.m4a")]
    (spawned (snd (snd (convert_m4a_directory_to_wav (lit "in") (Some (lit "out/"))
                          (lit "ffmpeg") (spec_host, []))))).
Proof.
  destruct (proj1 destinations_mirror_the_tree Host Host_OS spec_host
              (lit "in") (Some (lit "out/")) (lit "ffmpeg"))
    as (done & rest & Hsplit & Hret & H2).
  - exact example_cwd.
  - discriminate.
  - reflexivity.
  - rewrite (Hret ltac:(vm_compute; reflexivity)), app_nil_r in Hsplit.
    rewrite <- Hsplit in H2. exact H2.
Defined.

(** C4 as stated fails in three ways.  On the tree of its own example the
    first destination is the string [out/./a.wav], not [out/a.wav].  A file
    named [.m4a] passes the filter and goes to [.m4a.wav]: nothing of its
    name is rewritten.  And where [out/sub] cannot be created, a tree with
    three files that pass the filter gives one invocation before the run
    raises. *)
Lemma destinations_are_not_as_stated :
  map (fun co => nth 6 (fst co) [])
      (spawned (snd (snd (convert_m4a_directory_to_wav (lit "in") (Some (lit "out/"))
                            (lit "ffmpeg") (spec_host, [])))))
  = [lit "out/./a.wav"; lit "out/sub/b.wav"]
  /\ map (fun co => nth 6 (fst co) [])
         (spawned (snd (snd (convert_m4a_directory_to_wav (lit "in") (Some (lit "out"))
                               (lit "ffmpeg")
                               (mkHost [lit "in"] [] [lit "ffmpeg"]
                                       [(lit "in", Dir [lit ".m4a"; lit "x.m4a"] [])] [],
                                [])))))
     = [lit "out/./.m4a.wav"; lit "out/./x.wav"]
  /\ (let run := convert_m4a_directory_to_wav (lit "in") (Some (lit "out"))
                   (lit "ffmpeg") (example_locked, []) in
      length (List.filter (fun e => is_m4a (snd e)) (tree_files example_tree)) = 3
      /\ length (spawned (snd (snd run))) = 1
      /\ fst run = inl (OtherException (lit "PermissionError")
                          (lit "[Errno 13] Permission denied: 'out/sub'"))).
Proof. repeat split; vm_compute; reflexivity. Qed.

(** C10. The filter takes a file name exactly when it ends in [.m4a]
    written in any mix of cases: a name that does not is passed over
    without any effect, and in a run that completes the sources handed to
    the transcoder are the walked files that do, [SONG.M4A] like
    [song.m4a]. *)
Theorem filter_is_case_insensitive :
  (forall filename : str,
      is_m4a filename = true
      <-> exists stem m a,
          filename = stem ++ ["."%char; m; "4"%char; a]
          /\ (m = "m"%char \/ m = "M"%char) /\ (a = "a"%char \/ a = "A"%char))
  /\ (forall (W : Type) (os : OS W) (input_dir output_dir ffmpeg_path root filename : str)
             (counts : nat * nat) (st : W * list event),
         is_m4a filename = false ->
         process_file input_dir output_dir ffmpeg_path root filename counts st
         = (inr counts, st))
  /\ (forall (W : Type) (os : OS W) (w : W)
             (input_dir : str) (output_dir : option str) (ffmpeg_path : str),
         preconditions_hold w input_dir ffmpeg_path = true ->
         (forall (wq : W) p,
             os_path_exists wq p = false -> fst (os_makedirs wq p) = None) ->
         input_dir <> [] ->
         fst (convert_m4a_directory_to_wav input_dir output_dir ffmpeg_path (w, []))
         = inr tt
         /\ map (fun co => nth 2 (fst co) [])
                (spawned (snd (snd (convert_m4a_directory_to_wav input_dir output_dir
                                      ffmpeg_path (w, [])))))
            = map (fun rf => join (fst rf) (snd rf))
                  (List.filter (fun rf => is_m4a (snd rf))
                     (walk_pairs input_dir
                        (os_listing (world_at_walk w output_dir) input_dir))))
  /\ is_m4a (lit "SONG.M4A") = true
  /\ is_m4a (lit "song.m4a") = true
  /\ is_m4a (lit "song.m4a.bak") = false.
Proof.
  split; [exact is_m4a_iff|].
  split; [intros; apply process_file_skip; assumption|].
  split; [|repeat split; reflexivity].
  intros W os w input_dir output_dir ffmpeg_path Hpre Hmk Hin.
  destruct (run_completes input_dir output_dir ffmpeg_path w [] Hpre Hmk Hin)
    as (w' & body & Hrun & H2).
  rewrite Hrun. split; [reflexivity|].
  simpl snd. rewrite !spawned_app.
  assert (Hsum : forall c f p, spawned (summary c f p) = []) by reflexivity.
  rewrite Hsum, app_nil_r. simpl app.
  change (fun rf : str * str => is_m4a (snd rf)) with matching.
  clear Hrun.
  induction H2 as [|rf co l l' Hitem H2 IH]; [reflexivity|].
  simpl. f_equal; [|exact IH].
  destruct Hitem as (wq & rel & _ & ->). reflexivity.
Qed.

Lemma filter_is_case_insensitive_witness :
  map (fun co => nth 2 (fst co) [])
      (spawned (snd (snd (convert_m4a_directory_to_wav (lit "in") None (lit "ffmpeg")
                            (example_host, [])))))
  = [lit "in/a.m4a"; lit "in/sub/b.m4a"; lit "in/sub/C.M4A"].
Proof.
  destruct (proj1 (proj2 (proj2 filter_is_case_insensitive)) Host Host_OS example_host
              (lit "in") None (lit "ffmpeg")) as [_ Hsrc].
  - reflexivity.
  - exact example_makedirs.
  - discriminate.
  - rewrite Hsrc. reflexivity.
Defined.

End TreeProofs.

(* ===================================================================== *)
(** * More on the recolouring script *)
(* ===================================================================== *)

Module RecolorLaws.
Import ConvertToHex ConvertToHexProofs.

(** ** Two passes in a row *)

Lemma is_ink_clip r g b : is_ink (clip8 r) (clip8 g) (clip8 b) = is_ink r g b.
Proof. unfold is_ink. rewrite !clip8_ink. reflexivity. Qed.

(** What a pass with [c2] makes of what a pass with [c1] wrote. *)
Lemma recolor_pixel_twice c1 c2 p :
  recolor_pixel c2 (recolor_pixel c1 p)
  = if is_ink (fst (fst c1)) (snd (fst c1)) (snd c1)
    then recolor_pixel c2 p else recolor_pixel c1 p.
Proof.
  destruct c1 as [[r1 g1] b1], c2 as [[r2 g2] b2], p as [[[r g] b] a].
  simpl fst. simpl snd. unfold recolor_pixel.
  destruct (is_ink r g b) eqn:Hp; unfold clip_pixel.
  - rewrite is_ink_clip. destruct (is_ink r1 g1 b1); simpl;
      rewrite ?clip8_idem; reflexivity.
  - rewrite is_ink_clip, Hp. simpl. rewrite !clip8_idem.
    destruct (is_ink r1 g1 b1); reflexivity.
Qed.

(** X1. A pass with the colour c2 over the result of a pass with the colour
    c1 gives what a single pass gives: the pass with c2 when c1 is itself
    below the threshold in all three channels (its pixels are ink again),
    and the pass with c1 otherwise (no ink is left for c2). *)
Theorem second_pass_composes :
  forall (W : Type) (st : W * list event) (img : Image) (c1 c2 : Z * Z * Z),
    length (data img) = fst (size img) * snd (size img) ->
    exists first second : Image,
      recolor_loops img c1 (Image_new (size img) (255, 255, 255, 0)%Z) st
      = (inr first, st)
      /\ recolor_loops first c2 (Image_new (size first) (255, 255, 255, 0)%Z) st
         = (inr second, st)
      /\ recolor_loops img
           (if is_ink (fst (fst c1)) (snd (fst c1)) (snd c1) then c2 else c1)
           (Image_new (size img) (255, 255, 255, 0)%Z) st
         = (inr second, st).
Proof.
  intros W st img c1 c2 Hlen.
  set (first := mkImage (size img) (map (recolor_pixel c1) (data img))).
  assert (Hlen1 : length (data first) = fst (size first) * snd (size first)).
  { subst first. simpl. rewrite length_map. exact Hlen. }
  exists first, (mkImage (size first) (map (recolor_pixel c2) (data first))).
  split; [|split].
  - apply recolor_loops_map; [exact Hlen|reflexivity|apply Image_new_length].
  - apply recolor_loops_map; [exact Hlen1|reflexivity|apply Image_new_length].
  - rewrite (recolor_loops_map img _ Hlen st)
      by (try reflexivity; apply Image_new_length).
    subst first. simpl. rewrite map_map. do 3 f_equal.
    symmetry. apply map_ext. intros p. rewrite recolor_pixel_twice.
    destruct (is_ink _ _ _); reflexivity.
Qed.

Lemma second_pass_composes_witness :
  exists first second : Image,
    recolor_loops example_image (10, 20, 30)%Z
      (Image_new (2, 2) (255, 255, 255, 0)%Z) (example_disk, [])
    = (inr first, (example_disk, []))
    /\ recolor_loops first (255, 0, 0)%Z
         (Image_new (size first) (255, 255, 255, 0)%Z) (example_disk, [])
       = (inr second, (example_disk, []))
    /\ data second = [(255, 0, 0, 255); (255, 255, 255, 255);
                      (255, 0, 0, 0); (240, 240, 240, 255)]%Z.
Proof.
  destruct (second_pass_composes Disk (example_disk, []) example_image
              (10, 20, 30)%Z (255, 0, 0)%Z)
    as (first & second & H1 & H2 & H3).
  - reflexivity.
  - exists first, second. split; [exact H1|]. split; [exact H2|].
    vm_compute in H3. inversion H3. reflexivity.
Defined.

(** X2. Running the script again on what it saved, with the same colour
    string, saves the same image once more, whatever the colour: dark
    colours included. *)
Theorem rerun_saves_the_same_image :
  forall (W : Type) (PIL : Pillow W) (w w1 : W) (tr : list event)
         (input_path output_path again_path color_hex : str) (img : Image)
         (c : Z * Z * Z),
    Image_open_convert w input_path = inr img ->
    length (data img) = fst (size img) * snd (size img) ->
    parse_color color_hex = inr c ->
    let once := mkImage (size img) (map (recolor_pixel c) (data img)) in
    convert_to_color input_path output_path color_hex (w, tr)
    = saved_or_logged tr output_path once (Image_save w once output_path)
    /\ forall tr1,
        Image_open_convert w1 output_path = inr once ->
        convert_to_color output_path again_path color_hex (w1, tr1)
        = saved_or_logged tr1 again_path once (Image_save w1 once again_path).
Proof.
  intros W PIL w w1 tr input_path output_path again_path color_hex img c
         Hopen Hlen Hcol once.
  split.
  - rewrite (body_runs w tr input_path output_path color_hex img c) by assumption.
    reflexivity.
  - intros tr1 Hopen1.
    assert (Hlen1 : length (data once) = fst (size once) * snd (size once)).
    { subst once. simpl. rewrite length_map. exact Hlen. }
    rewrite (body_runs w1 tr1 output_path again_path color_hex once c)
      by assumption.
    cbv zeta.
    assert (Hfix : mkImage (size once) (map (recolor_pixel c) (data once)) = once).
    { subst once. simpl. f_equal. rewrite map_map. apply map_ext. intros p.
      rewrite recolor_pixel_twice. destruct (is_ink _ _ _); reflexivity. }
    rewrite Hfix. reflexivity.
Qed.

Lemma rerun_saves_the_same_image_witness :
  snd (snd (convert_to_color (lit "out.png") (lit "again.png") (lit "#102030")
              (mkDisk [(lit "out.png",
                        mkImage (2, 2) (map (recolor_pixel (16, 32, 48)%Z)
                                            (data example_image)))] [], [])))
  = [Saved (mkImage (2, 2) [(16, 32, 48, 255); (255, 255, 255, 255);
                            (16, 32, 48, 0); (240, 240, 240, 255)]%Z)
       (lit "again.png");
     Printed (lit "Image successfully saved to again.png")].
Proof.
  pose proof (rerun_saves_the_same_image Disk Disk_Pillow example_disk
                (mkDisk [(lit "out.png",
                          mkImage (2, 2) (map (recolor_pixel (16, 32, 48)%Z)
                                              (data example_image)))] [])
                [] (lit "draw.png") (lit "out.png") (lit "again.png")
                (lit "#102030") example_image (16, 32, 48)%Z
                eq_refl eq_refl eq_refl) as [_ Hagain].
  rewrite (Hagain [] eq_refl). reflexivity.
Defined.


(** ** How a colour may be spelled *)

Lemma lower_chr_keeps c :
  Py.hexval (Py.lower_chr c) = Py.hexval c
  /\ Py.isspace (Py.lower_chr c) = Py.isspace c
  /\ Py.is_underscore (Py.lower_chr c) = Py.is_underscore c
  /\ Py.chr_eqb (Py.lower_chr c) "+"%char = Py.chr_eqb c "+"%char
  /\ Py.chr_eqb (Py.lower_chr c) "-"%char = Py.chr_eqb c "-"%char
  /\ Py.chr_eqb (Py.lower_chr c) "0"%char = Py.chr_eqb c "0"%char
  /\ Py.chr_eqb (Py.lower_chr c) "#"%char = Py.chr_eqb c "#"%char
  /\ (Py.chr_eqb (Py.lower_chr c) "x"%char || Py.chr_eqb (Py.lower_chr c) "X"%char
      = Py.chr_eqb c "x"%char || Py.chr_eqb c "X"%char).
Proof.
  destruct c as [[] [] [] [] [] [] [] []]; vm_compute; repeat split.
Qed.

Lemma skip_space_lower s : Py.skip_space (Py.lower s) = Py.lower (Py.skip_space s).
Proof.
  induction s as [|c s IH]; [reflexivity|].
  simpl. destruct (lower_chr_keeps c) as (_ & -> & _).
  destruct (Py.isspace c); [exact IH|reflexivity].
Qed.

Lemma take_sign_lower s :
  Py.take_sign (Py.lower s)
  = (fst (Py.take_sign s), Py.lower (snd (Py.take_sign s))).
Proof.
  destruct s as [|c s]; [reflexivity|].
  simpl. destruct (lower_chr_keeps c) as (_ & _ & _ & -> & -> & _).
  destruct (Py.chr_eqb c "+"%char); [reflexivity|].
  destruct (Py.chr_eqb c "-"%char); reflexivity.
Qed.

Lemma drop_prefix_lower s : Py.drop_prefix (Py.lower s) = Py.lower (Py.drop_prefix s).
Proof.
  destruct s as [|z [|x t]]; try reflexivity.
  simpl.
  destruct (lower_chr_keeps z) as (_ & _ & _ & _ & _ & -> & _).
  destruct (lower_chr_keeps x) as (_ & _ & _ & _ & _ & _ & _ & ->).
  destruct (Py.chr_eqb z "0"%char && _); [|reflexivity].
  destruct t as [|u t]; [reflexivity|]. simpl.
  destruct (lower_chr_keeps u) as (_ & _ & -> & _).
  destruct (Py.is_underscore u); reflexivity.
Qed.

Lemma scan_digits_lower s : forall acc digits prev,
  Py.scan_digits (Py.lower s) acc digits prev
  = match Py.scan_digits s acc digits prev with
    | Some (v, n, rest) => Some (v, n, Py.lower rest)
    | None => None
    end.
Proof.
  induction s as [|c s IH]; intros acc digits prev.
  - simpl. destruct prev; reflexivity.
  - simpl. destruct (lower_chr_keeps c) as (-> & _ & -> & _).
    destruct (Py.hexval c); [apply IH|].
    destruct (Py.is_underscore c); destruct prev; try reflexivity. apply IH.
Qed.

Lemma read_digits_lower sign s : Py.read_digits sign (Py.lower s) = Py.read_digits sign s.
Proof.
  unfold Py.read_digits. rewrite scan_digits_lower.
  destruct s as [|u s]; [reflexivity|].
  change (Py.lower (u :: s)) with (Py.lower_chr u :: Py.lower s).
  destruct (lower_chr_keeps u) as (_ & _ & -> & _).
  destruct (Py.is_underscore u); [reflexivity|].
  destruct (Py.scan_digits (u :: s) 0 0 false) as [[[v n] rest]|]; [|reflexivity].
  destruct n; [reflexivity|].
  rewrite skip_space_lower. destruct (Py.skip_space rest); reflexivity.
Qed.

(** [int(s, 16)] does not look at the case of letters. *)
Lemma int16_lower s : Py.int16 (Py.lower s) = Py.int16 s.
Proof.
  unfold Py.int16. rewrite skip_space_lower, take_sign_lower.
  destruct (Py.take_sign (Py.skip_space s)) as [sign s2]. simpl.
  rewrite drop_prefix_lower. apply read_digits_lower.
Qed.

Lemma lstrip_lower s :
  Py.lstrip "#"%char (Py.lower s) = Py.lower (Py.lstrip "#"%char s).
Proof.
  induction s as [|c s IH]; [reflexivity|].
  simpl. destruct (lower_chr_keeps c) as (_ & _ & _ & _ & _ & _ & -> & _).
  destruct (Py.chr_eqb c "#"%char); [exact IH|reflexivity].
Qed.

Lemma slice_lower s i j : Py.slice (Py.lower s) i j = Py.lower (Py.slice s i j).
Proof.
  unfold Py.slice, Py.lower. rewrite skipn_map, firstn_map. reflexivity.
Qed.

Lemma int_slice_lower s i v :
  int_slice (Py.lower s) i = inr v <-> int_slice s i = inr v.
Proof.
  unfold int_slice. rewrite slice_lower, int16_lower.
  destruct (Py.int16 _); split; intros Hs; inversion Hs; reflexivity.
Qed.

Lemma lstrip_hashes n s :
  Py.lstrip "#"%char (repeat "#"%char n ++ s) = Py.lstrip "#"%char s.
Proof. induction n as [|n IH]; [reflexivity|exact IH]. Qed.

(** X3. The parser does not look at the case of the letters of a colour
    string, nor at how many [#] characters come first: the lowered string,
    and the string with more [#] in front, are accepted exactly when the
    string is, with the same three channels. *)
Theorem colour_spelling_does_not_matter :
  forall (s : str) (n : nat) (c : Z * Z * Z),
    (parse_color (Py.lower s) = inr c <-> parse_color s = inr c)
    /\ (parse_color (repeat "#"%char n ++ s) = inr c <-> parse_color s = inr c).
Proof.
  intros s n c. split.
  - unfold parse_color. rewrite lstrip_lower.
    set (h := Py.lstrip "#"%char s).
    pose proof (int_slice_lower h 0) as H0.
    pose proof (int_slice_lower h 2) as H2.
    pose proof (int_slice_lower h 4) as H4.
    destruct (int_slice (Py.lower h) 0) as [e0|r], (int_slice h 0) as [e0'|r'];
      try (split; discriminate);
      try (exfalso; destruct (H0 r) as [Hx _]; specialize (Hx eq_refl); discriminate);
      try (exfalso; destruct (H0 r') as [_ Hx]; specialize (Hx eq_refl); discriminate).
    assert (r = r') by (destruct (H0 r) as [Hx _]; specialize (Hx eq_refl); congruence).
    subst r'.
    destruct (int_slice (Py.lower h) 2) as [e2|g], (int_slice h 2) as [e2'|g'];
      try (split; discriminate);
      try (exfalso; destruct (H2 g) as [Hx _]; specialize (Hx eq_refl); discriminate);
      try (exfalso; destruct (H2 g') as [_ Hx]; specialize (Hx eq_refl); discriminate).
    assert (g = g') by (destruct (H2 g) as [Hx _]; specialize (Hx eq_refl); congruence).
    subst g'.
    destruct (int_slice (Py.lower h) 4) as [e4|b], (int_slice h 4) as [e4'|b'];
      try (split; discriminate);
      try (exfalso; destruct (H4 b) as [Hx _]; specialize (Hx eq_refl); discriminate);
      try (exfalso; destruct (H4 b') as [_ Hx]; specialize (Hx eq_refl); discriminate).
    assert (b = b') by (destruct (H4 b) as [Hx _]; specialize (Hx eq_refl); congruence).
    subst b'. reflexivity.
  - unfold parse_color. rewrite lstrip_hashes. reflexivity.
Qed.

Lemma colour_spelling_does_not_matter_witness :
  parse_color (lit "##ff5733") = inr (255, 87, 51)%Z.
Proof.
  apply (proj2 (colour_spelling_does_not_matter (lit "ff5733") 2 (255, 87, 51)%Z)).
  apply (proj1 (colour_spelling_does_not_matter (lit "FF5733") 0 (255, 87, 51)%Z)).
  reflexivity.
Defined.

End RecolorLaws.

(* ===================================================================== *)
(** * What a run prints and creates *)
(* ===================================================================== *)

Module RunTraceProofs.
Import PosixPath M4aToWav RunTrace M4aToWavProofs.

Lemma printed_app a b : printed (a ++ b) = printed a ++ printed b.
Proof. unfold printed. apply flat_map_app. Qed.

Lemma prints_with_app prefix a b :
  prints_with prefix (a ++ b) = prints_with prefix a ++ prints_with prefix b.
Proof. unfold prints_with. rewrite printed_app. apply List.filter_app. Qed.

Lemma made_dirs_app a b : made_dirs (a ++ b) = made_dirs a ++ made_dirs b.
Proof. unfold made_dirs. apply flat_map_app. Qed.

Lemma count_ok_app a b : count_ok (a ++ b) = count_ok a + count_ok b.
Proof. unfold count_ok. rewrite List.filter_app. apply length_app. Qed.

Lemma count_failed_app a b : count_failed (a ++ b) = count_failed a + count_failed b.
Proof. unfold count_failed. rewrite List.filter_app. apply length_app. Qed.

Lemma spawned_item ff ir :
  spawned (item_events ff ir)
  = [(command ff (source ir) (dest ir), outcome (result ir))].
Proof.
  unfold item_events. rewrite spawned_app.
  destruct (made_dir ir); simpl;
    (destruct (raised _ (result ir)) as [e|]; [rewrite spawned_failure_report|]);
    reflexivity.
Qed.

Section Loop.
Context {W : Type} `{OS W}.
Variables input_dir output_dir ffmpeg_path : str.

(** One file that passes the filter: either nothing but an error of
    [relpath] or [makedirs], or the events of one [item_run]. *)
Lemma process_file_trace rf c fl (w : W) tr :
  is_m4a (snd rf) = true ->
  (exists e w',
      process_file input_dir output_dir ffmpeg_path (fst rf) (snd rf) (c, fl) (w, tr)
      = (inl e, (w', tr))
      /\ loop_fatal input_dir [fst rf] e)
  \/ (exists ir w',
         process_file input_dir output_dir ffmpeg_path (fst rf) (snd rf) (c, fl) (w, tr)
         = (inr (c + (if succeeded (outcome (result ir)) then 1 else 0),
                 fl + (if succeeded (outcome (result ir)) then 0 else 1)),
            (w', tr ++ item_events ffmpeg_path ir))
         /\ item_ok input_dir output_dir rf ir).
Proof.
  intros Hm. rewrite process_file_eq by exact Hm.
  destruct (relpath (os_getcwd w) (fst rf) input_dir) as [e|rel] eqn:Hrel.
  { left. exists e, w. split; [reflexivity|].
    right. exists w, (fst rf). simpl. auto. }
  cbv zeta.
  set (cur := join output_dir rel).
  set (src := join (fst rf) (snd rf)).
  set (dst := destination output_dir rel (snd rf)).
  destruct (os_path_exists w cur) eqn:Hex.
  - (* the directory is there *)
    right.
    destruct (spawn w (command ffmpeg_path src dst)) as [r w2] eqn:Hsp.
    exists (mkItemRun None src dst r), w2.
    split.
    + unfold item_events.
      destruct r as [e|[[|rc|rc] so se]]; simpl;
        rewrite ?Nat.add_0_r, ?Nat.add_1_r; reflexivity.
    + split; [reflexivity|]. exists w, rel; auto.
  - destruct (os_makedirs w cur) as [[e|] w1] eqn:Hmk.
    { left. exists e, w1. split; [reflexivity|].
      left. exists w, cur. rewrite Hmk. auto. }
    right.
    destruct (spawn w1 (command ffmpeg_path src dst)) as [r w2] eqn:Hsp.
    exists (mkItemRun (Some cur) src dst r), w2.
    split.
    + unfold item_events.
      destruct r as [e|[[|rc|rc] so se]]; simpl;
        rewrite ?Nat.add_0_r, ?Nat.add_1_r; reflexivity.
    + split; [reflexivity|]. exists w, rel; auto.
Qed.

(** The loop over all (root, filename) pairs leaves one block of events
    per file it got to the transcoder with. *)
Lemma loop_trace l : forall c fl (w : W) tr,
  exists r w' runs,
    for_each l
      (fun rf => process_file input_dir output_dir ffmpeg_path (fst rf) (snd rf))
      (c, fl) (w, tr)
    = (r, (w', tr ++ flat_map (item_events ffmpeg_path) runs))
    /\ Forall (fun ir => exists rf, In rf l /\ matching rf = true
                                  /\ item_ok input_dir output_dir rf ir) runs
    /\ match r with
       | inr (c', fl') =>
           c' = c + count_ok (spawned (flat_map (item_events ffmpeg_path) runs))
           /\ fl' = fl + count_failed (spawned (flat_map (item_events ffmpeg_path) runs))
       | inl e => loop_fatal input_dir (map fst l) e
       end.
Proof.
  induction l as [|rf l IH]; intros c fl w tr.
  - exists (inr (c, fl)), w, []. simpl. rewrite app_nil_r.
    repeat split; auto; unfold count_ok, count_failed; simpl; lia.
  - rewrite for_each_cons. cbv beta.
    destruct (is_m4a (snd rf)) eqn:Hm.
    + destruct (process_file_trace rf c fl w tr Hm)
        as [(e & w1 & Hrun & Hf)|(ir & w1 & Hrun & Hok)]; rewrite Hrun.
      * exists (inl e), w1, []. simpl. rewrite app_nil_r.
        split; [reflexivity|]. split; [constructor|].
        destruct Hf as [Hf|(wq & root & [<-|[]] & Hr)]; [left; exact Hf|].
        right. exists wq, (fst rf). simpl. auto.
      * destruct (IH (c + (if succeeded (outcome (result ir)) then 1 else 0))
                     (fl + (if succeeded (outcome (result ir)) then 0 else 1))
                     w1 (tr ++ item_events ffmpeg_path ir))
          as (r & w' & runs & Hrest & Hall & Hpost).
        exists r, w', (ir :: runs).
        split; [rewrite Hrest; simpl flat_map; rewrite app_assoc; reflexivity|].
        split.
        { constructor.
          - exists rf. simpl. auto.
          - eapply Forall_impl; [exact Hall|].
            intros ir' (rf' & Hin & Hm' & Hi). exists rf'. simpl. auto. }
        destruct r as [e|[c' fl']].
        { destruct Hpost as [Hf|(wq & root & Hin & Hr)]; [left; exact Hf|].
          right. exists wq, root. simpl. auto. }
        destruct Hpost as [Hc Hfl]. simpl flat_map.
        rewrite spawned_app, spawned_item, count_ok_app, count_failed_app.
        unfold count_ok at 1, count_failed at 1. simpl.
        destruct (succeeded (outcome (result ir))); simpl; lia.
    + rewrite process_file_skip by exact Hm.
      destruct (IH c fl w tr) as (r & w' & runs & Hrest & Hall & Hpost).
      exists r, w', runs. split; [exact Hrest|]. split.
      { eapply Forall_impl; [exact Hall|].
        intros ir' (rf' & Hin & Hm' & Hi). exists rf'. simpl. auto. }
      destruct r as [e|[c' fl']]; [|exact Hpost].
      destruct Hpost as [Hf|(wq & root & Hin & Hr)]; [left; exact Hf|].
      right. exists wq, root. simpl. auto.
Qed.

End Loop.


Section WholeRun.
Context {W : Type} `{OS W}.
Variables (input_dir : str) (output_dir : option str) (ffmpeg_path : str).

Abbreviation out := (output_root input_dir output_dir).

(** Lines 46-53, with what they print and create. *)
Lemma choose_output_dir_shape (w : W) tr :
  exists r pre,
    choose_output_dir input_dir output_dir (w, tr)
    = (r, (world_at_walk w output_dir, tr ++ pre))
    /\ root_notice input_dir output_dir pre
    /\ match r with
       | inr o => o = out
       | inl e => exists (wq : W) p,
                    os_path_exists wq p = false /\ fst (os_makedirs wq p) = Some e
       end.
Proof.
  unfold choose_output_dir, world_at_walk, output_root, root_notice.
  destruct output_dir as [o|].
  - rewrite bind_ask. destruct (os_path_exists w o) eqn:Hex; simpl negb; cbv iota.
    + exists (inr o), []. rewrite app_nil_r.
      repeat split; auto.
    + rewrite bind_assoc, bind_print. unfold bind, makedirs, ret.
      destruct (os_makedirs w o) as [[e|] w1] eqn:Hmk; simpl.
      * eexists (inl e), [_]. split; [reflexivity|]. split; [auto|].
        exists w, o. rewrite Hmk. auto.
      * eexists (inr o), [_; _]. rewrite <- app_assoc.
        split; [reflexivity|]. split; [auto|reflexivity].
  - rewrite bind_print. eexists (inr input_dir), [_].
    split; [reflexivity|]. split; reflexivity.
Qed.

(** The trace of a run: what lines 46-53 leave, one block per file that
    reached the transcoder, and the summary when the run returns. *)
Lemma run_trace (w : W) tr :
  let pairs := walk_pairs input_dir
                 (os_listing (world_at_walk w output_dir) input_dir) in
  exists r w' pre runs post,
    convert_m4a_directory_to_wav input_dir output_dir ffmpeg_path (w, tr)
    = (r, (w', tr ++ pre ++ flat_map (item_events ffmpeg_path) runs ++ post))
    /\ (pre = [] \/ root_notice input_dir output_dir pre)
    /\ Forall (fun ir => exists rf, In rf pairs /\ matching rf = true
                                  /\ item_ok input_dir out rf ir) runs
    /\ match r with
       | inr _ =>
           post = summary
                    (count_ok (spawned (flat_map (item_events ffmpeg_path) runs)))
                    (count_failed (spawned (flat_map (item_events ffmpeg_path) runs)))
                    (abspath (os_getcwd w') out)
       | inl e =>
           post = []
           /\ (preconditions_hold w input_dir ffmpeg_path = false
               \/ (preconditions_hold w input_dir ffmpeg_path = true
                   /\ loop_fatal input_dir (map fst pairs) e))
       end.
Proof.
  intros pairs. unfold convert_m4a_directory_to_wav.
  unfold bind at 1. rewrite validate_inputs_eq. simpl fst.
  destruct (preconditions_hold w input_dir ffmpeg_path) eqn:Hpre.
  2: { destruct (os_path_isdir w input_dir);
       eexists (inl _), w, [], [], []; simpl; rewrite app_nil_r;
       (split; [reflexivity|]); (split; [left; reflexivity|]);
       (split; [constructor|]); auto. }
  unfold bind at 1.
  destruct (choose_output_dir_shape w tr) as (r0 & pre & Hch & Hnote & Hr0).
  rewrite Hch. destruct r0 as [e|o].
  { exists (inl e), (world_at_walk w output_dir), pre, [], [].
    simpl. rewrite app_nil_r.
    split; [reflexivity|]. split; [right; exact Hnote|].
    split; [constructor|].
    split; [reflexivity|]. right. split; [reflexivity|]. left. exact Hr0. }
  subst o. unfold bind at 1. unfold convert_tree. rewrite bind_ask.
  unfold walk_pairs in pairs. rewrite loops_flatten. fold pairs.
  destruct (loop_trace input_dir out ffmpeg_path pairs 0 0
              (world_at_walk w output_dir) (tr ++ pre))
    as (r & w' & runs & Hloop & Hall & Hpost).
  rewrite Hloop. destruct r as [e|[c fl]].
  { exists (inl e), w', pre, runs, []. rewrite app_nil_r, app_assoc.
    split; [reflexivity|]. split; [right; exact Hnote|].
    split; [exact Hall|].
    split; [reflexivity|]. right. split; [reflexivity|exact Hpost]. }
  destruct Hpost as [Hc Hfl]. simpl in Hc, Hfl. subst c fl.
  unfold print_summary.
  rewrite !bind_print, bind_ask. unfold print, emit.
  eexists (inr tt), w', pre, runs, _. split.
  { rewrite <- !app_assoc. reflexivity. }
  split; [right; exact Hnote|]. split; [exact Hall|].
  reflexivity.
Qed.

End WholeRun.


(** ** The texts printed, by what they begin with *)

Abbreviation converting := (lit "Converting: ").
Abbreviation failed_to := (lit "--- FAILED to convert: ").
Abbreviation error_code := (lit "Error Code: ").
Abbreviation header := (["010"%char] ++ lit "--- Conversion Summary ---").

Lemma prints_of_notice input_dir output_dir pre :
  pre = [] \/ root_notice input_dir output_dir pre ->
  prints_with converting pre = [] /\ prints_with failed_to pre = []
  /\ prints_with error_code pre = [] /\ prints_with header pre = []
  /\ spawned pre = [].
Proof.
  intros [->|Hn]; [repeat split; reflexivity|].
  unfold root_notice in Hn.
  destruct output_dir as [o|]; [destruct Hn as [->|[->| ->]]|rewrite Hn];
    repeat split; reflexivity.
Qed.

Lemma prints_of_summary c f p :
  prints_with converting (summary c f p) = []
  /\ prints_with failed_to (summary c f p) = []
  /\ prints_with error_code (summary c f p) = []
  /\ prints_with header (summary c f p) = [header]
  /\ spawned (summary c f p) = [].
Proof. repeat split; reflexivity. Qed.

Lemma prints_of_item ff ir :
  prints_with converting (item_events ff ir) = [progress_text (source ir) (dest ir)]
  /\ prints_with failed_to (item_events ff ir)
     = (if succeeded (outcome (result ir)) then []
        else [failed_to ++ source ir ++ lit " ---"])
  /\ prints_with error_code (item_events ff ir)
     = map (fun rc => error_code ++ Py.str_of_Z rc)
           (reported_status (outcome (result ir)))
  /\ prints_with header (item_events ff ir) = [].
Proof.
  unfold item_events.
  destruct (made_dir ir);
    (destruct (result ir) as [e|[[|rc|rc] so se]]; [destruct e| | |]);
    repeat split; reflexivity.
Qed.

Section Blocks.
Variable ff : str.

Abbreviation blocks runs := (flat_map (item_events ff) runs).

Lemma blocks_converting runs :
  prints_with converting (blocks runs)
  = map (fun co => progress_text (nth 2 (fst co) []) (nth 6 (fst co) []))
        (spawned (blocks runs)).
Proof.
  induction runs as [|ir runs IH]; [reflexivity|].
  simpl flat_map. rewrite prints_with_app, spawned_app, spawned_item, IH.
  destruct (prints_of_item ff ir) as (-> & _). reflexivity.
Qed.

Lemma blocks_failed runs :
  prints_with failed_to (blocks runs)
  = map (fun co => failed_to ++ nth 2 (fst co) [] ++ lit " ---")
        (List.filter (fun co => negb (succeeded (snd co))) (spawned (blocks runs))).
Proof.
  induction runs as [|ir runs IH]; [reflexivity|].
  simpl flat_map. rewrite prints_with_app, spawned_app, spawned_item, IH.
  destruct (prints_of_item ff ir) as (_ & -> & _). simpl.
  destruct (succeeded (outcome (result ir))); reflexivity.
Qed.

Lemma blocks_error_code runs :
  prints_with error_code (blocks runs)
  = map (fun rc => error_code ++ Py.str_of_Z rc)
        (flat_map (fun co => reported_status (snd co)) (spawned (blocks runs))).
Proof.
  induction runs as [|ir runs IH]; [reflexivity|].
  simpl flat_map. rewrite prints_with_app, spawned_app, spawned_item, IH.
  destruct (prints_of_item ff ir) as (_ & _ & -> & _). simpl.
  rewrite map_app. reflexivity.
Qed.

Lemma blocks_header runs : prints_with header (blocks runs) = [].
Proof.
  induction runs as [|ir runs IH]; [reflexivity|].
  simpl flat_map. rewrite prints_with_app, IH.
  destruct (prints_of_item ff ir) as (_ & _ & _ & ->). reflexivity.
Qed.

End Blocks.


(** ** What every run shows *)

Section Projections.
Context {W : Type} `{OS W}.
Variables (input_dir : str) (output_dir : option str) (ffmpeg_path : str).

(** The trace of a run, cut into its three parts, with the invocations and
    the four kinds of printed texts of each part. *)
Lemma run_prints (w : W) :
  exists r w' pre runs post,
    convert_m4a_directory_to_wav input_dir output_dir ffmpeg_path (w, [])
    = (r, (w', pre ++ flat_map (item_events ffmpeg_path) runs ++ post))
    /\ spawned (pre ++ flat_map (item_events ffmpeg_path) runs ++ post)
       = spawned (flat_map (item_events ffmpeg_path) runs)
    /\ (forall prefix,
          prefix = converting \/ prefix = failed_to \/ prefix = error_code ->
          prints_with prefix (pre ++ flat_map (item_events ffmpeg_path) runs ++ post)
          = prints_with prefix (flat_map (item_events ffmpeg_path) runs))
    /\ prints_with header (pre ++ flat_map (item_events ffmpeg_path) runs ++ post)
       = match r with inr _ => [header] | inl _ => [] end
    /\ match r with
       | inr _ =>
           post = summary
                    (count_ok (spawned (flat_map (item_events ffmpeg_path) runs)))
                    (count_failed (spawned (flat_map (item_events ffmpeg_path) runs)))
                    (abspath (os_getcwd w') (output_root input_dir output_dir))
       | inl _ => post = []
       end.
Proof.
  destruct (run_trace input_dir output_dir ffmpeg_path w [])
    as (r & w' & pre & runs & post & Hrun & Hnote & _ & Hpost).
  simpl app in Hrun.
  exists r, w', pre, runs, post. split; [exact Hrun|].
  destruct (prints_of_notice input_dir output_dir pre Hnote)
    as (Hp1 & Hp2 & Hp3 & Hp4 & Hp5).
  assert (Hq : (forall prefix,
                   prefix = converting \/ prefix = failed_to \/ prefix = error_code ->
                   prints_with prefix post = [])
               /\ spawned post = []
               /\ prints_with header post
                  = match r with inr _ => [header] | inl _ => [] end).
  { destruct r as [e|u].
    - destruct Hpost as [-> _]. split; [intros; reflexivity|split; reflexivity].
    - rewrite Hpost. split; [|split; reflexivity].
      intros prefix [->|[->| ->]]; reflexivity. }
  destruct Hq as (Hq1 & Hq2 & Hq3).
  split; [rewrite !spawned_app, Hp5, Hq2, app_nil_r; reflexivity|].
  split.
  { intros prefix Hprefix. rewrite !prints_with_app, (Hq1 prefix Hprefix), app_nil_r.
    destruct Hprefix as [->|[->| ->]]; rewrite ?Hp1, ?Hp2, ?Hp3; reflexivity. }
  split.
  { rewrite !prints_with_app, Hp4, blocks_header, Hq3. reflexivity. }
  destruct r as [e|u]; [apply Hpost|exact Hpost].
Qed.

End Projections.




(** X7. When an output root is given that does not exist and creating it
    fails, the run raises that error right after the line that announces
    the creation: no tree is walked, no process started, no summary
    printed. *)
Theorem output_root_creation_failure_aborts :
  forall (W : Type) (os : OS W) (w w1 : W) (tr : list event)
         (input_dir output_dir ffmpeg_path : str) (e : exn),
    preconditions_hold w input_dir ffmpeg_path = true ->
    os_path_exists w output_dir = false ->
    os_makedirs w output_dir = (Some e, w1) ->
    convert_m4a_directory_to_wav input_dir (Some output_dir) ffmpeg_path (w, tr)
    = (inl e,
       (w1, tr ++ [Printed (lit "Output directory '" ++ output_dir
                              ++ lit "' does not exist. Creating it.")])).
Proof.
  intros W os w w1 tr input_dir output_dir ffmpeg_path e Hpre Hex Hmk.
  unfold convert_m4a_directory_to_wav.
  unfold bind at 1. rewrite validate_inputs_eq. simpl fst. rewrite Hpre.
  unfold bind at 1. unfold choose_output_dir.
  rewrite bind_ask, Hex. simpl negb. cbv iota.
  rewrite bind_assoc, bind_print. unfold bind, makedirs. rewrite Hmk.
  reflexivity.
Qed.

Lemma output_root_creation_failure_aborts_witness :
  convert_m4a_directory_to_wav (lit "in") (Some (lit "out/")) (lit "ffmpeg")
    (mkLocked example_host, [])
  = (inl (OtherException (lit "PermissionError")
            (lit "[Errno 13] Permission denied: 'out/'")),
     (mkLocked example_host,
      [Printed (lit "Output directory 'out/' does not exist. Creating it.")])).
Proof.
  apply (output_root_creation_failure_aborts Locked Locked_OS
           (mkLocked example_host) (mkLocked example_host) []
           (lit "in") (lit "out/") (lit "ffmpeg")); reflexivity.
Defined.

(** X9. The two checks say what failed, the input root first: when it is
    not a directory the error is "Input directory not found: " and the
    path, whatever the transcoder; otherwise, when the transcoder is neither
    on the search path nor an existing file, the error names the transcoder
    path. *)
Theorem failed_check_names_its_cause :
  forall (W : Type) (os : OS W) (w : W) (tr : list event)
         (input_dir : str) (output_dir : option str) (ffmpeg_path : str),
    (os_path_isdir w input_dir = false ->
     convert_m4a_directory_to_wav input_dir output_dir ffmpeg_path (w, tr)
     = (inl (FileNotFoundError (lit "Input directory not found: " ++ input_dir)),
        (w, tr)))
    /\ (os_path_isdir w input_dir = true ->
        shutil_which w ffmpeg_path = None ->
        os_path_exists w ffmpeg_path = false \/ os_path_isfile w ffmpeg_path = false ->
        convert_m4a_directory_to_wav input_dir output_dir ffmpeg_path (w, tr)
        = (inl (FileNotFoundError
                  (lit "FFmpeg executable not found at '" ++ ffmpeg_path
                     ++ lit "'. Ensure FFmpeg is installed and in your PATH, or provide the full path.")),
           (w, tr))).
Proof.
  intros W os w tr input_dir output_dir ffmpeg_path.
  unfold convert_m4a_directory_to_wav, bind.
  rewrite validate_inputs_eq. simpl fst. unfold preconditions_hold. split.
  - intros ->. reflexivity.
  - intros -> -> Hff. simpl.
    destruct Hff as [-> | ->]; rewrite ?andb_false_r; reflexivity.
Qed.

Lemma failed_check_names_its_cause_witness :
  convert_m4a_directory_to_wav (lit "in") None (lit "/opt/ffmpeg") (example_host, [])
  = (inl (FileNotFoundError
            (lit "FFmpeg executable not found at '/opt/ffmpeg'. Ensure FFmpeg is installed and in your PATH, or provide the full path.")),
     (example_host, [])).
Proof.
  apply (proj2 (failed_check_names_its_cause Host Host_OS example_host []
                  (lit "in") None (lit "/opt/ffmpeg"))).
  - reflexivity.
  - reflexivity.
  - left. reflexivity.
Defined.

End RunTraceProofs.

(* ===================================================================== *)
(** * What stops a run *)
(* ===================================================================== *)

Module BatchProofs.
Import PosixPath M4aToWav RunTrace Recorder M4aToWavProofs RunTraceProofs.

Lemma created_app {W} (a b : list (call W)) : created (a ++ b) = created a ++ created b.
Proof. unfold created. apply flat_map_app. Qed.

Lemma invocations_app {W} (a b : list (call W)) :
  invocations (a ++ b) = invocations a ++ invocations b.
Proof. unfold invocations. apply flat_map_app. Qed.

Lemma made_dirs_failure_report src e : made_dirs (failure_report src e) = [].
Proof. destruct e; reflexivity. Qed.

Section Loop.
Context {W : Type} `{OS W}.
Variables input_dir output_dir ffmpeg_path : str.

(** One file that passes the filter, in the world [w] and in the world
    that keeps the record: the same result, world and trace, and in the
    record one call for each directory created and each invocation; when
    the body raises, its last call is the [os.makedirs] that raised (or
    the root is the empty string, which [os.path.relpath] rejects). *)
Lemma process_file_calls rf c fl (w : W) cs tr :
  is_m4a (snd rf) = true ->
  exists r w' evs new,
    process_file input_dir output_dir ffmpeg_path (fst rf) (snd rf) (c, fl) (w, tr)
    = (r, (w', tr ++ evs))
    /\ process_file input_dir output_dir ffmpeg_path (fst rf) (snd rf) (c, fl)
         (mkRecorded w cs, tr)
       = (r, (mkRecorded w' (cs ++ new), tr ++ evs))
    /\ Forall guarded new
    /\ made_dirs evs = created new
    /\ spawned evs = invocations new
    /\ match r with
       | inr _ => Forall (fun c => creation_error c = None) new
       | inl e => ends_in_failed_creation new e w' \/ (new = [] /\ fst rf = [])
       end.
Proof.
  intros Hm. rewrite !process_file_eq by exact Hm.
  cbn [os_getcwd os_path_exists os_makedirs spawn Recorded_OS inner calls].
  destruct (relpath (os_getcwd w) (fst rf) input_dir) as [e|rel] eqn:Hrel.
  { exists (inl e), w, [], []. rewrite !app_nil_r.
    repeat split; auto. right. split; [reflexivity|].
    eapply relpath_raises; exact Hrel. }
  cbv zeta.
  set (cur := join output_dir rel).
  set (src := join (fst rf) (snd rf)).
  set (dst := destination output_dir rel (snd rf)).
  set (cmd := command ffmpeg_path src dst).
  assert (Hfr : forall e, made_dirs (failure_report src e) = []
                         /\ spawned (failure_report src e) = []).
  { intros e. split; [apply made_dirs_failure_report|apply spawned_failure_report]. }
  destruct (os_path_exists w cur) eqn:Hex.
  - cbn [inner calls].
    destruct (spawn w cmd) as [[e|cp] w2] eqn:Hsp; cbn [fst snd].
    + eexists (inr _), w2, _, [Spawn w cmd (inl e)].
      split; [reflexivity|]. split; [reflexivity|].
      split; [repeat constructor|].
      destruct (Hfr e) as [Hf1 Hf2]. simpl. rewrite ?Hf1, ?Hf2.
      repeat split; repeat constructor.
    + destruct (returncode cp =? 0)%Z eqn:Hz.
      * eexists (inr _), w2, _, [Spawn w cmd (inr cp)].
        split; [reflexivity|]. split; [reflexivity|].
        split; [repeat constructor|]. repeat split; repeat constructor.
      * eexists (inr _), w2, _, [Spawn w cmd (inr cp)].
        split; [reflexivity|]. split; [reflexivity|].
        split; [repeat constructor|].
        destruct (Hfr (CalledProcessError (returncode cp) cmd (stdout cp) (stderr cp)))
          as [Hf1 Hf2].
        simpl. rewrite ?Hf1, ?Hf2. repeat split; repeat constructor.
  - destruct (os_makedirs w cur) as [[e|] w1] eqn:Hmk; cbn [fst snd inner calls].
    { exists (inl e), w1, [], [Makedirs w cur (Some e)]. rewrite app_nil_r.
      split; [reflexivity|]. split; [reflexivity|].
      split; [repeat constructor; exact Hex|].
      split; [reflexivity|]. split; [reflexivity|].
      left. exists [], w, cur. repeat split; auto. }
    destruct (spawn w1 cmd) as [[e|cp] w2] eqn:Hsp; cbn [fst snd].
    + eexists (inr _), w2, _, [Makedirs w cur None; Spawn w1 cmd (inl e)].
      rewrite <- (app_assoc cs). 
      split; [reflexivity|]. split; [reflexivity|].
      split; [repeat constructor; exact Hex|].
      destruct (Hfr e) as [Hf1 Hf2]. simpl. rewrite ?Hf1, ?Hf2.
      repeat split; repeat constructor.
    + destruct (returncode cp =? 0)%Z eqn:Hz.
      * eexists (inr _), w2, _, [Makedirs w cur None; Spawn w1 cmd (inr cp)].
        rewrite <- (app_assoc cs).
        split; [reflexivity|]. split; [reflexivity|].
        split; [repeat constructor; exact Hex|]. repeat split; repeat constructor.
      * eexists (inr _), w2, _, [Makedirs w cur None; Spawn w1 cmd (inr cp)].
        rewrite <- (app_assoc cs).
        split; [reflexivity|]. split; [reflexivity|].
        split; [repeat constructor; exact Hex|].
        destruct (Hfr (CalledProcessError (returncode cp) cmd (stdout cp) (stderr cp)))
          as [Hf1 Hf2].
        simpl. rewrite ?Hf1, ?Hf2. repeat split; repeat constructor.
Qed.

(** The same for the loop over all (root, filename) pairs. *)
Lemma loop_calls l : forall c fl (w : W) cs tr,
  exists r w' evs new,
    for_each l
      (fun rf => process_file input_dir output_dir ffmpeg_path (fst rf) (snd rf))
      (c, fl) (w, tr)
    = (r, (w', tr ++ evs))
    /\ for_each l
         (fun rf => process_file input_dir output_dir ffmpeg_path (fst rf) (snd rf))
         (c, fl) (mkRecorded w cs, tr)
       = (r, (mkRecorded w' (cs ++ new), tr ++ evs))
    /\ Forall guarded new
    /\ made_dirs evs = created new
    /\ spawned evs = invocations new
    /\ match r with
       | inr _ => Forall (fun c => creation_error c = None) new
       | inl e => ends_in_failed_creation new e w' \/ In [] (map fst l)
       end.
Proof.
  induction l as [|rf l IH]; intros c fl w cs tr.
  - exists (inr (c, fl)), w, [], []. rewrite !app_nil_r.
    repeat split; constructor.
  - rewrite !for_each_cons. cbv beta.
    destruct (is_m4a (snd rf)) eqn:Hm.
    + destruct (process_file_calls rf c fl w cs tr Hm)
        as (r1 & w1 & evs1 & new1 & Hrun & Hrec & Hg1 & Hd1 & Hs1 & Hpost1).
      rewrite Hrun, Hrec. destruct r1 as [e|[c1 fl1]].
      * exists (inl e), w1, evs1, new1.
        split; [reflexivity|]. split; [reflexivity|].
        split; [exact Hg1|]. split; [exact Hd1|]. split; [exact Hs1|].
        destruct Hpost1 as [Hf|[_ Hroot]]; [left; exact Hf|].
        right. left. exact Hroot.
      * destruct (IH c1 fl1 w1 (cs ++ new1) (tr ++ evs1))
          as (r & w' & evs & new & Hrun2 & Hrec2 & Hg & Hd & Hs & Hpost).
        exists r, w', (evs1 ++ evs), (new1 ++ new).
        rewrite Hrun2, Hrec2, !app_assoc.
        split; [reflexivity|]. split; [reflexivity|].
        split; [apply Forall_app; auto|].
        split; [rewrite made_dirs_app, created_app, Hd1, Hd; reflexivity|].
        split; [rewrite spawned_app, invocations_app, Hs1, Hs; reflexivity|].
        destruct r as [e|cf].
        { destruct Hpost as [(init & wq & p & -> & Hinit & Hex & Hmk)|Hin].
          - left. exists (new1 ++ init), wq, p. rewrite app_assoc.
            split; [reflexivity|]. split; [apply Forall_app; auto|]. auto.
          - right. right. exact Hin. }
        apply Forall_app; auto.
    + rewrite !process_file_skip by exact Hm.
      destruct (IH c fl w cs tr)
        as (r & w' & evs & new & Hrun2 & Hrec2 & Hg & Hd & Hs & Hpost).
      exists r, w', evs, new.
      split; [exact Hrun2|]. split; [exact Hrec2|].
      split; [exact Hg|]. split; [exact Hd|]. split; [exact Hs|].
      destruct r as [e|cf]; [|exact Hpost].
      destruct Hpost as [Hf|Hin]; [left; exact Hf|right; right; exact Hin].
Qed.

End Loop.

Section WholeRun.
Context {W : Type} `{OS W}.
Variables (input_dir : str) (output_dir : option str) (ffmpeg_path : str).

(** Lines 46-53, in both worlds. *)
Lemma choose_output_dir_calls (w : W) cs tr :
  exists r pre new,
    choose_output_dir input_dir output_dir (w, tr)
    = (r, (world_at_walk w output_dir, tr ++ pre))
    /\ choose_output_dir input_dir output_dir (mkRecorded w cs, tr)
       = (r, (mkRecorded (world_at_walk w output_dir) (cs ++ new), tr ++ pre))
    /\ Forall guarded new
    /\ made_dirs pre = created new
    /\ spawned pre = invocations new
    /\ match r with
       | inr o => o = output_root input_dir output_dir
                  /\ Forall (fun c => creation_error c = None) new
       | inl e => ends_in_failed_creation new e (world_at_walk w output_dir)
       end.
Proof.
  unfold choose_output_dir, world_at_walk, output_root.
  destruct output_dir as [o|].
  - rewrite !bind_ask. cbn [os_path_exists Recorded_OS inner].
    destruct (os_path_exists w o) eqn:Hex; simpl negb; cbv iota.
    + exists (inr o), [], []. rewrite !app_nil_r.
      repeat split; constructor.
    + rewrite !bind_assoc, !bind_print. unfold bind, makedirs, ret.
      cbn [os_makedirs Recorded_OS inner calls].
      destruct (os_makedirs w o) as [[e|] w1] eqn:Hmk; cbn [fst snd].
      * eexists (inl e), [_], [Makedirs w o (Some e)].
        split; [reflexivity|]. split; [reflexivity|].
        split; [repeat constructor; exact Hex|].
        split; [reflexivity|]. split; [reflexivity|].
        exists [], w, o. repeat split; auto.
      * eexists (inr o), [_; _], [Makedirs w o None]. rewrite <- !app_assoc.
        split; [reflexivity|]. split; [reflexivity|].
        split; [repeat constructor; exact Hex|].
        repeat split; repeat constructor.
  - rewrite !bind_print. eexists (inr input_dir), [_], []. rewrite app_nil_r.
    repeat split; constructor.
Qed.

(** A run in the world [w] and the same run in the world that keeps the
    record go the same way; the record holds a call of [os.makedirs] for
    each directory created and a call of [subprocess.run] for each
    invocation in the trace, and a run that raises after its checks stops
    at a failed [os.makedirs]. *)
Lemma run_calls (w : W) :
  exists r w' evs,
    convert_m4a_directory_to_wav input_dir output_dir ffmpeg_path (w, [])
    = (r, (w', evs))
    /\ convert_m4a_directory_to_wav input_dir output_dir ffmpeg_path
         (mkRecorded w [], [])
       = (r, (mkRecorded w' (calls_made input_dir output_dir ffmpeg_path w), evs))
    /\ Forall guarded (calls_made input_dir output_dir ffmpeg_path w)
    /\ made_dirs evs = created (calls_made input_dir output_dir ffmpeg_path w)
    /\ spawned evs = invocations (calls_made input_dir output_dir ffmpeg_path w)
    /\ match r with
       | inr _ =>
           Forall (fun c => creation_error c = None)
                  (calls_made input_dir output_dir ffmpeg_path w)
       | inl e =>
           (preconditions_hold w input_dir ffmpeg_path = false
            /\ calls_made input_dir output_dir ffmpeg_path w = [])
           \/ (preconditions_hold w input_dir ffmpeg_path = true
               /\ (ends_in_failed_creation
                     (calls_made input_dir output_dir ffmpeg_path w) e w'
                   \/ input_dir = []))
       end.
Proof.
  assert (Hgen : exists r w' evs cs,
             convert_m4a_directory_to_wav input_dir output_dir ffmpeg_path (w, [])
             = (r, (w', evs))
             /\ convert_m4a_directory_to_wav input_dir output_dir ffmpeg_path
                  (mkRecorded w [], [])
                = (r, (mkRecorded w' cs, evs))
             /\ Forall guarded cs
             /\ made_dirs evs = created cs
             /\ spawned evs = invocations cs
             /\ match r with
                | inr _ => Forall (fun c => creation_error c = None) cs
                | inl e =>
                    (preconditions_hold w input_dir ffmpeg_path = false /\ cs = [])
                    \/ (preconditions_hold w input_dir ffmpeg_path = true
                        /\ (ends_in_failed_creation cs e w' \/ input_dir = []))
                end).
  { rewrite !run_unfold, !validate_inputs_eq. cbn [fst].
    change (preconditions_hold (mkRecorded w []) input_dir ffmpeg_path)
      with (preconditions_hold w input_dir ffmpeg_path).
    change (os_path_isdir (mkRecorded w []) input_dir) with (os_path_isdir w input_dir).
    destruct (preconditions_hold w input_dir ffmpeg_path) eqn:Hpre.
    2: { destruct (os_path_isdir w input_dir);
         eexists (inl _), w, [], [];
         (split; [reflexivity|]); (split; [reflexivity|]);
         (split; [constructor|]); (split; [reflexivity|]);
         (split; [reflexivity|]); left; auto. }
    destruct (choose_output_dir_calls w [] [])
      as (r0 & pre & new0 & Hch & Hrec & Hg0 & Hd0 & Hs0 & Hpost0).
    rewrite Hch, Hrec. simpl app. destruct r0 as [e|o].
    { exists (inl e), (world_at_walk w output_dir), pre, new0.
      repeat split; auto. }
    destruct Hpost0 as [-> Hok0].
    rewrite !convert_tree_eq. cbn [os_listing Recorded_OS inner].
    set (pairs := walk_pairs input_dir (os_listing (world_at_walk w output_dir) input_dir)).
    destruct (loop_calls input_dir (output_root input_dir output_dir) ffmpeg_path
                pairs 0 0 (world_at_walk w output_dir) new0 pre)
      as (r & w' & evs & new & Hloop & Hlrec & Hg & Hd & Hs & Hpost).
    rewrite Hloop, Hlrec. destruct r as [e|[c fl]].
    { exists (inl e), w', (pre ++ evs), (new0 ++ new).
      split; [reflexivity|]. split; [reflexivity|].
      split; [apply Forall_app; auto|].
      split; [rewrite made_dirs_app, created_app, Hd0, Hd; reflexivity|].
      split; [rewrite spawned_app, invocations_app, Hs0, Hs; reflexivity|].
      right. split; [reflexivity|].
      destruct Hpost as [(init & wq & p & -> & Hinit & Hex & Hmk)|Hin].
      - left. exists (new0 ++ init), wq, p. rewrite app_assoc.
        split; [reflexivity|]. split; [apply Forall_app; auto|]. auto.
      - right. destruct input_dir as [|a rest] eqn:Hid; [reflexivity|]. exfalso.
        apply (walk_pairs_roots (a :: rest)
                 (os_listing (world_at_walk w output_dir) (a :: rest)) []);
          [discriminate|exact Hin|reflexivity]. }
    rewrite !print_summary_eq. cbn [os_getcwd Recorded_OS inner].
    eexists (inr tt), w', _, (new0 ++ new).
    split; [reflexivity|]. split; [reflexivity|].
    split; [apply Forall_app; auto|].
    assert (Hsum : forall c f p, made_dirs (summary c f p) = []
                                 /\ spawned (summary c f p) = []).
    { intros; split; reflexivity. }
    destruct (Hsum c fl (abspath (os_getcwd w') (output_root input_dir output_dir)))
      as [Hm1 Hm2].
    split; [rewrite !made_dirs_app, created_app, Hd0, Hd, Hm1, app_nil_r; reflexivity|].
    split; [rewrite !spawned_app, invocations_app, Hs0, Hs, Hm2, app_nil_r; reflexivity|].
    apply Forall_app; auto. }
  destruct Hgen as (r & w' & evs & cs & Hrun & Hrec & Hrest).
  assert (Hcs : calls_made input_dir output_dir ffmpeg_path w = cs).
  { unfold calls_made. rewrite Hrec. reflexivity. }
  rewrite Hcs. exists r, w', evs. auto.
Qed.

End WholeRun.


(** ** The claim about failures, and two more properties of the calls *)






(** X8. Every call of [os.makedirs] that a run makes is made in a world in
    which [os.path.exists] denies the path: the run looks first (lines 51
    and 66) and calls in the world it looked in.  And the directories its
    trace shows as created are, in order, the paths of those calls that did
    not raise. *)
Theorem directories_are_created_only_where_absent :
  forall (W : Type) (os : OS W) (w : W)
         (input_dir : str) (output_dir : option str) (ffmpeg_path : str),
    let run := convert_m4a_directory_to_wav input_dir output_dir ffmpeg_path (w, []) in
    let made := calls_made input_dir output_dir ffmpeg_path w in
    Forall (fun c => match c with
                     | Makedirs before path _ => os_path_exists before path = false
                     | Spawn _ _ _ => True
                     end) made
    /\ made_dirs (snd (snd run))
       = flat_map (fun c => match c with
                            | Makedirs _ path None => [path]
                            | _ => []
                            end) made.
Proof.
  intros W os w input_dir output_dir ffmpeg_path. cbv zeta.
  destruct (run_calls input_dir output_dir ffmpeg_path w)
    as (r & w' & evs & Hrun & _ & Hg & Hd & _).
  rewrite Hrun. split; [exact Hg|exact Hd].
Qed.

(** The example run creates the output root and one subdirectory. *)
Example example_run_creates_two_directories :
  made_dirs (snd (snd (convert_m4a_directory_to_wav (lit "in") (Some (lit "out/"))
                         (lit "ffmpeg") (example_host, []))))
  = [lit "out/"; lit "out/sub"]
  /\ length (calls_made (lit "in") (Some (lit "out/")) (lit "ffmpeg") example_host) = 5.
Proof. split; vm_compute; reflexivity. Qed.

End BatchProofs.

(* ===================================================================== *)
(** * Sources against destinations *)
(* ===================================================================== *)

Module DestinationProofs.
Import PosixPath M4aToWav PathProofs M4aToWavProofs TreeProofs.

Lemma join_keeps_tail a b : exists x, join a b = x ++ b.
Proof.
  unfold join. destruct (Py.startswith b [sep]).
  - exists []. reflexivity.
  - destruct (is_nil a || Py.endswith a [sep]).
    + exists a. reflexivity.
    + exists (a ++ [sep]). rewrite <- app_assoc. reflexivity.
Qed.

Lemma startswith_app_left s p t :
  Py.startswith s p = true -> Py.startswith (s ++ t) p = true.
Proof.
  revert s. induction p as [|y p IH]; intros s Hs; [reflexivity|].
  destruct s as [|x s]; [discriminate|].
  simpl in *. apply andb_prop in Hs. destruct Hs as [-> Hs].
  simpl. apply IH. exact Hs.
Qed.

Lemma endswith_app_right x s p :
  Py.endswith s p = true -> Py.endswith (x ++ s) p = true.
Proof.
  unfold Py.endswith. rewrite rev_app_distr. apply startswith_app_left.
Qed.

Lemma is_m4a_app x filename : is_m4a filename = true -> is_m4a (x ++ filename) = true.
Proof.
  unfold is_m4a, Py.lower. rewrite map_app. apply endswith_app_right.
Qed.

Lemma endswith_wav x : Py.endswith (x ++ lit ".wav") (lit ".wav") = true.
Proof. apply endswith_app_right. reflexivity. Qed.

(** A name cannot pass the filter and end in [.wav]. *)
Lemma m4a_is_not_wav s : is_m4a s = true -> Py.endswith s (lit ".wav") = false.
Proof.
  intros Hm. apply is_m4a_iff in Hm. destruct Hm as (stem & m & a & -> & _ & Ha).
  unfold Py.endswith. rewrite rev_app_distr.
  destruct Ha as [-> | ->]; reflexivity.
Qed.

Lemma join_head_not_nil (x : str) l : x <> [] -> Py.join [sep] (x :: l) <> [].
Proof.
  intros Hx. destruct l as [|y l]; simpl; [exact Hx|].
  destruct x; [congruence|discriminate].
Qed.

(** [os.path.relpath] never gives the empty string. *)
Lemma relpath_not_nil cwd path start rel :
  relpath cwd path start = inr rel -> rel <> [].
Proof.
  unfold relpath. destruct (is_nil path); [discriminate|].
  set (sl := nonempty_comps (abspath cwd start)).
  set (pl := nonempty_comps (abspath cwd path)).
  set (i := length (commonprefix sl pl)).
  assert (Hall : Forall (fun x : str => x <> []) (repeat pardir (length sl - i) ++ skipn i pl)).
  { apply Forall_app. split.
    - apply Forall_forall. intros x Hx. apply list_elem_of_In, repeat_spec in Hx.
      subst x. discriminate.
    - apply Forall_forall. intros x Hx. apply list_elem_of_In in Hx.
      assert (Hin : In x pl).
      { rewrite <- (firstn_skipn i pl). apply in_or_app. right. exact Hx. }
      unfold pl, nonempty_comps in Hin. apply filter_In in Hin.
      destruct Hin as [_ Hn]. destruct x; [discriminate|discriminate]. }
  destruct (repeat pardir (length sl - i) ++ skipn i pl) as [|x l];
    simpl is_nil; cbv iota; intros Heq; inversion Heq; subst rel.
  - discriminate.
  - apply join_head_not_nil. inversion Hall; assumption.
Qed.

Lemma join_not_nil_right a b : b <> [] -> join a b <> [].
Proof.
  intros Hb. destruct (join_keeps_tail a b) as [x ->].
  destruct x; [exact Hb|discriminate].
Qed.

(** The components of the absolute form of [base/n] end with [n]. *)
Lemma abspath_join_name cwd base n :
  isabs cwd = true -> base <> [] -> valid_name n = true ->
  nonempty_comps (abspath cwd (join base n))
  = norm_comps (absolutize cwd base) ++ [n].
Proof.
  intros Hcwd Hbase Hn.
  pose proof (valid_name_inv n Hn) as (Hclean & _).
  unfold abspath. rewrite absolutize_join by assumption.
  pose proof (absolutize_not_nil cwd Hcwd base) as Hnn.
  rewrite normpath_abs.
  - rewrite nonempty_comps_normal by apply norm_comps_clean.
    apply norm_comps_join_name; assumption.
  - rewrite isabs_join by assumption. apply absolutize_abs. exact Hcwd.
Qed.

Lemma wav_name_ends x : Py.endswith (wav_name x) (lit ".wav") = true.
Proof. unfold wav_name. destruct (existsb _ _); apply endswith_wav. Qed.

Lemma walk_pairs_valid top t root filename :
  valid_tree t = true -> In (root, filename) (walk_pairs top t) ->
  valid_name filename = true.
Proof.
  intros Hv Hin. rewrite walk_pairs_tree_files in Hin.
  apply in_map_iff in Hin. destruct Hin as ([ds f] & Heq & Hin).
  simpl in Heq. inversion Heq; subst root filename.
  pose proof (tree_files_valid t Hv) as Hall. rewrite Forall_forall in Hall.
  apply (Hall (ds, f)). apply list_elem_of_In. exact Hin.
Qed.

(** X10. In every run, the source given to a process ends in [.m4a] in
    some mix of cases and its destination ends in [.wav], so the two are
    never the same string.  When the input root is not the empty string and
    the entries of the tree have ordinary names, the two are not the same
    after [os.path.abspath] either, whatever the working directory: no
    spelling with [.], [..] or doubled separators makes them one path.
    (Paths that differ in this way can still reach one file through a link;
    the worlds here have none.) *)
Theorem source_and_destination_are_different_paths :
  forall (W : Type) (os : OS W) (w : W)
         (input_dir : str) (output_dir : option str) (ffmpeg_path : str),
    let tr := snd (snd (convert_m4a_directory_to_wav input_dir output_dir
                          ffmpeg_path (w, []))) in
    Forall
      (fun co =>
         is_m4a (nth 2 (fst co) []) = true
         /\ Py.endswith (nth 6 (fst co) []) (lit ".wav") = true
         /\ nth 2 (fst co) [] <> nth 6 (fst co) [])
      (spawned tr)
    /\ (input_dir <> [] ->
        valid_tree (os_listing (world_at_walk w output_dir) input_dir) = true ->
        Forall
          (fun co =>
             forall cwd, isabs cwd = true ->
                         abspath cwd (nth 2 (fst co) []) <> abspath cwd (nth 6 (fst co) []))
          (spawned tr)).
Proof.
  intros W os w input_dir output_dir ffmpeg_path. cbv zeta.
  destruct (run_summary input_dir output_dir ffmpeg_path w [])
    as (r & w' & evs & Hrun & Hall & _).
  rewrite Hrun. simpl. split.
  - eapply Forall_impl; [exact Hall|].
    intros co ([root filename] & _ & Hm & wq & rel & _ & Hcmd).
    unfold matching in Hm. simpl in Hm, Hcmd. rewrite Hcmd. simpl.
    assert (Hsrc : is_m4a (join root filename) = true).
    { destruct (join_keeps_tail root filename) as [x ->]. apply is_m4a_app, Hm. }
    assert (Hdst : Py.endswith (destination (output_root input_dir output_dir) rel filename)
                     (lit ".wav") = true).
    { unfold destination.
      destruct (join_keeps_tail (join (output_root input_dir output_dir) rel)
                  (fst (splitext filename) ++ lit ".wav")) as [x ->].
      rewrite app_assoc. apply endswith_wav. }
    split; [exact Hsrc|]. split; [exact Hdst|].
    intros Heq. rewrite <- Heq in Hdst.
    rewrite (m4a_is_not_wav _ Hsrc) in Hdst. discriminate.
  - intros Hin Hvalid.
    eapply Forall_impl; [exact Hall|].
    intros co ([root filename] & Hpair & Hm & wq & rel & Hrel & Hcmd) cwd Hcwd.
    unfold matching in Hm. simpl in Hm, Hcmd, Hrel. rewrite Hcmd. simpl.
    assert (Hname : valid_name filename = true).
    { eapply walk_pairs_valid; [exact Hvalid|exact Hpair]. }
    pose proof (valid_name_inv filename Hname) as ([_ Hs] & _).
    assert (Hroot : root <> []).
    { apply (walk_pairs_roots input_dir
               (os_listing (world_at_walk w output_dir) input_dir) root Hin).
      apply in_map_iff. exists (root, filename). auto. }
    unfold destination. rewrite (splitext_m4a filename Hs Hm).
    intros Heq. apply (f_equal nonempty_comps) in Heq.
    rewrite (abspath_join_name cwd root filename Hcwd Hroot Hname) in Heq.
    rewrite (abspath_join_name cwd _ (wav_name filename) Hcwd) in Heq.
    + apply app_inj_tail in Heq. destruct Heq as [_ Heq].
      pose proof (wav_name_ends filename) as Hw. rewrite <- Heq in Hw.
      rewrite (m4a_is_not_wav _ Hm) in Hw. discriminate.
    + apply join_not_nil_right. eapply relpath_not_nil. exact Hrel.
    + apply wav_name_valid. exact Hs.
Qed.

Lemma source_and_destination_are_different_paths_witness :
  Forall
    (fun co =>
       forall cwd, isabs cwd = true ->
                   abspath cwd (nth 2 (fst co) []) <> abspath cwd (nth 6 (fst co) []))
    (spawned (snd (snd (convert_m4a_directory_to_wav (lit "in") None (lit "ffmpeg")
                          (example_host, []))))).
Proof.
  apply (proj2 (source_and_destination_are_different_paths Host Host_OS example_host
                  (lit "in") None (lit "ffmpeg"))).
  - discriminate.
  - reflexivity.
Defined.

(** ** Which files share a destination *)

Lemma wav_name_ordinary stem ext :
  length ext = 4 ->
  existsb (fun c => negb (Py.chr_eqb c extsep)) stem = true ->
  wav_name (stem ++ ext) = stem ++ lit ".wav".
Proof.
  intros Hl Hs. unfold wav_name. rewrite length_app, Hl.
  replace (length stem + 4 - 4) with (length stem) by lia.
  rewrite firstn_app, Nat.sub_diag, firstn_all. simpl firstn. rewrite app_nil_r, Hs.
  reflexivity.
Qed.

Lemma is_m4a_nosep_ext ext : is_m4a ext = true -> length ext = 4 -> nosep ext.
Proof.
  intros Hm Hl. apply is_m4a_iff in Hm. destruct Hm as (stem & m & a & -> & Hm & Ha).
  rewrite length_app in Hl. simpl in Hl.
  destruct stem; [|simpl in Hl; lia].
  destruct Hm as [-> | ->], Ha as [-> | ->]; reflexivity.
Qed.

(** X11. Within one directory the destination depends on the stem of the
    file name only, not on how its extension is cased: two names with
    ordinary stems (no separator, not dots only) and extensions [.m4a] in
    any mix of cases get the same destination exactly when their stems are
    equal, so [x.m4a] and [x.M4A] are converted into the same file. *)
Theorem destination_depends_on_the_stem_only :
  forall (output_dir relative_path stem1 stem2 ext1 ext2 : str),
    nosep stem1 -> nosep stem2 ->
    existsb (fun c => negb (Py.chr_eqb c extsep)) stem1 = true ->
    existsb (fun c => negb (Py.chr_eqb c extsep)) stem2 = true ->
    is_m4a ext1 = true -> length ext1 = 4 ->
    is_m4a ext2 = true -> length ext2 = 4 ->
    (destination output_dir relative_path (stem1 ++ ext1)
     = destination output_dir relative_path (stem2 ++ ext2)
     <-> stem1 = stem2)
    /\ destination output_dir relative_path (stem1 ++ ext1)
       = join (join output_dir relative_path) (stem1 ++ lit ".wav").
Proof.
  intros output_dir relative_path stem1 stem2 ext1 ext2
         Hs1 Hs2 Hd1 Hd2 Hm1 Hl1 Hm2 Hl2.
  assert (Hname : forall stem ext,
             nosep stem ->
             existsb (fun c => negb (Py.chr_eqb c extsep)) stem = true ->
             is_m4a ext = true -> length ext = 4 ->
             fst (splitext (stem ++ ext)) ++ lit ".wav" = stem ++ lit ".wav").
  { intros stem ext Hs Hd Hm Hl.
    rewrite splitext_m4a.
    - apply wav_name_ordinary; assumption.
    - apply nosep_app. split; [exact Hs|apply is_m4a_nosep_ext; assumption].
    - apply is_m4a_app. exact Hm. }
  unfold destination.
  rewrite (Hname stem1 ext1), (Hname stem2 ext2) by assumption.
  split; [|reflexivity].
  assert (Hrel : forall stem : str,
             nosep stem -> Py.startswith (stem ++ lit ".wav") [sep] = false).
  { intros stem Hs. apply nosep_not_abs. apply nosep_app. split; [exact Hs|reflexivity]. }
  rewrite (join_rel _ (stem1 ++ lit ".wav") (Hrel stem1 Hs1)),
          (join_rel _ (stem2 ++ lit ".wav") (Hrel stem2 Hs2)).
  split.
  - intros Heq. apply app_inv_head in Heq. apply app_inv_tail in Heq. exact Heq.
  - intros ->. reflexivity.
Qed.

Lemma destination_depends_on_the_stem_only_witness :
  destination (lit "out") (lit "sub") (lit "song.m4a")
  = destination (lit "out") (lit "sub") (lit "song.M4A").
Proof.
  apply (proj1 (destination_depends_on_the_stem_only (lit "out") (lit "sub")
                  (lit "song") (lit "song") (lit ".m4a") (lit ".M4A")
                  eq_refl eq_refl eq_refl eq_refl eq_refl eq_refl eq_refl eq_refl)).
  reflexivity.
Defined.

End DestinationProofs.
